(** * Cardinal Signposts: generator and validator

    A shallow embedding of [cardinal_signposts/generator.py] and
    [cardinal_signposts/validators.py], followed by one of the row fixer of
    [scripts/fix_google_shopping.py].

    Python [str] values are modelled as byte strings ([string]), the UTF-8
    encoding of the text.  The operations of the source that follow the
    Unicode database ([upper], [lower], [capitalize], [strip]) are
    parameters of the embedding, given by a [Platform]; so are the answers
    of the locale and of the file system: whether the bytes of a file decode
    as text, and whether a name and a text can be written.  What is proved
    with a [Platform] as a parameter holds for each of them; a statement
    without that parameter, and every worked example, is about
    [ascii_platform].

    The project tree is a finite tree of directories; each directory lists
    its regular files (name and text) and its sub-directories (name and
    tree) in the order [os.scandir] enumerates them.  [pathlib.Path] values
    are lists of path segments of a POSIX path.  The file system has no
    symbolic links.  Text files are read with universal newlines, as
    [read_text] does. *)

From Stdlib Require Import String Ascii List ZArith Lia Bool Arith.
From Stdlib Require Import Sorted Permutation.
From Stdlib Require QArith OrderedTypeEx DecimalString.
Import ListNotations.

Open Scope list_scope.
Open Scope string_scope.

(** ** Python string primitives *)

Module Py.

(** [s.startswith(p)] *)
Definition startswith (s p : string) : bool := String.prefix p s.

(** [s.endswith(p)]: some tail of [s] is [p]. *)
Fixpoint endswith (s p : string) : bool :=
  String.eqb s p ||
  match s with
  | EmptyString => false
  | String _ s' => endswith s' p
  end.

(** [p in s] for strings. *)
Fixpoint contains (p s : string) : bool :=
  String.prefix p s ||
  match s with
  | EmptyString => false
  | String _ s' => contains p s'
  end.

(** The character [c] occurs in [s]. *)
Fixpoint occurs (c : ascii) (s : string) : bool :=
  match s with
  | EmptyString => false
  | String x s' => Ascii.eqb c x || occurs c s'
  end.

(** [sep.join(l)] *)
Definition join (sep : string) (l : list string) : string := String.concat sep l.

(** [s.split(sep)] for a non-empty separator: the pieces between the
    non-overlapping occurrences of [sep], found from the left.  [skip] counts
    the characters of a separator match that are still to be dropped. *)
Fixpoint split_from (sep : string) (skip : nat) (s : string) : list string :=
  match s with
  | EmptyString => [EmptyString]
  | String c s' =>
      match skip with
      | S k => split_from sep k s'
      | O =>
          if String.prefix sep s
          then EmptyString :: split_from sep (String.length sep - 1) s'
          else match split_from sep 0 s' with
               | h :: t => String c h :: t
               | [] => [String c EmptyString]
               end
      end
  end.

Definition split (s sep : string) : list string := split_from sep 0 s.

(** ASCII range of [str.isspace]: TAB, LF, VT, FF, CR, FS, GS, RS, US, SPACE. *)
Definition isspace (c : ascii) : bool :=
  let n := nat_of_ascii c in
  (Nat.leb 9 n && Nat.leb n 13) || (Nat.leb 28 n && Nat.leb n 32).

(** [s.lstrip()], [s.rstrip()] and [s.strip()] for ASCII white space: the
    [strip] of [ascii_platform]. *)
Fixpoint lstrip (s : string) : string :=
  match s with
  | EmptyString => EmptyString
  | String c s' => if isspace c then lstrip s' else s
  end.

(** Removal of the trailing characters that satisfy [f]. *)
Fixpoint rstrip_by (f : ascii -> bool) (s : string) : string :=
  match s with
  | EmptyString => EmptyString
  | String c s' =>
      match rstrip_by f s' with
      | EmptyString => if f c then EmptyString else String c EmptyString
      | r => String c r
      end
  end.

Definition rstrip (s : string) : string := rstrip_by isspace s.

Definition strip (s : string) : string := rstrip (lstrip s).

(** [s.rstrip('/')] *)
Definition rstrip_slash (s : string) : string :=
  rstrip_by (fun c => Ascii.eqb c "/") s.

Definition is_lower (c : ascii) : bool :=
  let n := nat_of_ascii c in Nat.leb 97 n && Nat.leb n 122.

Definition is_upper (c : ascii) : bool :=
  let n := nat_of_ascii c in Nat.leb 65 n && Nat.leb n 90.

Definition upper_char (c : ascii) : ascii :=
  if is_lower c then ascii_of_nat (nat_of_ascii c - 32) else c.

Definition lower_char (c : ascii) : ascii :=
  if is_upper c then ascii_of_nat (nat_of_ascii c + 32) else c.

Fixpoint map_str (f : ascii -> ascii) (s : string) : string :=
  match s with
  | EmptyString => EmptyString
  | String c s' => String (f c) (map_str f s')
  end.

(** [s.upper()], [s.lower()] and [s.capitalize()] on ASCII letters, every
    other byte left as it is: the case mappings of [ascii_platform]. *)
Definition upper (s : string) : string := map_str upper_char s.
Definition lower (s : string) : string := map_str lower_char s.
Definition capitalize (s : string) : string :=
  match s with
  | EmptyString => EmptyString
  | String c s' => String (upper_char c) (lower s')
  end.

(** [s * n] *)
Fixpoint repeat_str (s : string) (n : nat) : string :=
  match n with
  | O => EmptyString
  | S k => s ++ repeat_str s k
  end.

(** The line feed character and the one-character string ["\n"]. *)
Definition lf_char : ascii := ascii_of_nat 10.
Definition LF : string := String lf_char EmptyString.

(** Text-mode reading ([newline=None]): [\r\n] and a lone [\r] both read as
    [\n]. *)
Definition cr_char : ascii := ascii_of_nat 13.

Fixpoint universal_newlines (s : string) : string :=
  match s with
  | EmptyString => EmptyString
  | String c s' =>
      if Ascii.eqb c cr_char
      then if String.prefix LF s' then universal_newlines s'
           else String lf_char (universal_newlines s')
      else String c (universal_newlines s')
  end.

(** [sorted(l, key=name)]: a stable insertion sort on the names. *)
Fixpoint insert_by_name {A : Type} (x : string * A) (l : list (string * A))
  : list (string * A) :=
  match l with
  | [] => [x]
  | y :: l' =>
      if String.leb (fst x) (fst y) then x :: l else y :: insert_by_name x l'
  end.

Fixpoint sorted_by_name {A : Type} (l : list (string * A)) : list (string * A) :=
  match l with
  | [] => []
  | x :: l' => insert_by_name x (sorted_by_name l')
  end.

(** [l.append(x)] and [l.extend(m)], as the new list. *)
Definition append {A : Type} (l : list A) (x : A) : list A := List.app l [x].
Definition extend {A : Type} (l m : list A) : list A := List.app l m.

(** [x in l] for a list of strings. *)
Definition mem (x : string) (l : list string) : bool := existsb (String.eqb x) l.

(** [d.get(k, default)] for a dict given by its items. *)
Fixpoint dict_get (d : list (string * string)) (k default : string) : string :=
  match d with
  | [] => default
  | (k', v) :: d' => if String.eqb k k' then v else dict_get d' k default
  end.

(** [next((l for l in lines if p(l)), None)] *)
Definition next_such (p : string -> bool) (lines : list string) : option string :=
  List.find p lines.

End Py.


(** ** The file system under the project root *)

(** A directory: its regular files, as (name, text), and its sub-directories,
    as (name, directory), each in [os.scandir] order. *)
#[warnings="-register-all"]
Inductive dir : Type :=
| MkDir (files : list (string * string)) (subdirs : list (string * dir)).

Definition files (d : dir) : list (string * string) :=
  match d with MkDir fs _ => fs end.

Definition subdirs (d : dir) : list (string * dir) :=
  match d with MkDir _ sds => sds end.

(** A [pathlib.Path]: the segments below the anchor [/]. *)
Definition path := list string.
Bind Scope list_scope with path.

(** [str(p)] for an absolute path. *)
Definition path_str (p : path) : string := "/" ++ Py.join "/" p.

(** [str(p.relative_to(root))], given the segments below [root]. *)
Definition rel_str (rel : path) : string :=
  match rel with
  | [] => "."
  | _ => Py.join "/" rel
  end.

(** [p.name] *)
Definition path_name (p : path) : string := last p EmptyString.

Inductive exn : Type :=
| ValueError (msg : string)
| IsADirectoryError (file : string)
| FileNotFoundError (file : string)
| OSError (msg : string)
| UnicodeEncodeError (msg : string)
| UnicodeDecodeError (msg : string).

(** The error taxonomy of the specification: the exception of the
    constructor is the configuration error, the exceptions of file
    operations are input-output failures. *)
Inductive error_kind : Type := ConfigurationError | IOFailure.

Definition kind_of (e : exn) : error_kind :=
  match e with
  | ValueError _ => ConfigurationError
  | IsADirectoryError _ | FileNotFoundError _ | OSError _
  | UnicodeEncodeError _ | UnicodeDecodeError _ => IOFailure
  end.

(** [str(e)] *)
Definition exn_str (e : exn) : string :=
  match e with
  | ValueError msg => msg
  | IsADirectoryError f => "[Errno 21] Is a directory: '" ++ f ++ "'"
  | FileNotFoundError f => "[Errno 2] No such file or directory: '" ++ f ++ "'"
  | OSError msg | UnicodeEncodeError msg | UnicodeDecodeError msg => msg
  end.

(** ** The Python runtime and the file system

    [str_upper], [str_lower], [str_capitalize] and [str_strip] are
    [str.upper], [str.lower], [str.capitalize] and [str.strip], which follow
    the Unicode database.  [decode_error c] is the message of the
    [UnicodeDecodeError] that reading the bytes [c] as text raises, if it
    raises.  [write_error p c] is the exception with which the file system
    or the encoder refuses to write the text [c] to the file at [p], if it
    does: [OSError] 36 for a name longer than the file system takes,
    [UnicodeEncodeError] for a text the encoding cannot express, and the
    like. *)
Class Platform : Type := {
  str_upper : string -> string;
  str_lower : string -> string;
  str_capitalize : string -> string;
  str_strip : string -> string;
  decode_error : string -> option string;
  write_error : path -> string -> option exn
}.

Section Embedding.
Context {PF : Platform}.

(** The directory reached from [d] along [p], if there is one. *)
Fixpoint find_sub (name : string) (sds : list (string * dir)) : option dir :=
  match sds with
  | [] => None
  | (n, sd) :: sds' => if String.eqb name n then Some sd else find_sub name sds'
  end.

Fixpoint lookup_dir (d : dir) (p : path) : option dir :=
  match p with
  | [] => Some d
  | n :: p' =>
      match find_sub n (subdirs d) with
      | Some sd => lookup_dir sd p'
      | None => None
      end
  end.

(** The text of file [name] in a file listing. *)
Fixpoint find_file (name : string) (fs : list (string * string)) : option string :=
  match fs with
  | [] => None
  | (n, c) :: fs' => if String.eqb name n then Some c else find_file name fs'
  end.

(** The text stored in file [name] of the directory at [p]. *)
Definition file_at (d : dir) (p : path) (name : string) : option string :=
  match lookup_dir d p with
  | Some sd => find_file name (files sd)
  | None => None
  end.

(** [Path(p).exists()], for [fs] the directory [/]. *)
Definition path_exists (fs : dir) (p : path) : bool :=
  match p with
  | [] => true
  | _ =>
      match lookup_dir fs (removelast p) with
      | Some d =>
          Py.mem (last p EmptyString) (map fst (files d))
          || Py.mem (last p EmptyString) (map fst (subdirs d))
      | None => false
      end
  end.

(** Replace the text of [name], or add the file at the end of the listing. *)
Fixpoint store_file (name content : string) (fs : list (string * string))
  : list (string * string) :=
  match fs with
  | [] => [(name, content)]
  | (n, c) :: fs' =>
      if String.eqb name n then (n, content) :: fs'
      else (n, c) :: store_file name content fs'
  end.

(** [(dirpath / name).write_text(content)] in a directory whose
    sub-directories are [dirnames] and whose files are [fs]: opening fails
    on the name of a directory, and the platform may refuse the name or the
    text. *)
Definition write_text (dirpath : path) (dirnames : list string)
  (fs : list (string * string)) (name content : string)
  : exn + list (string * string) :=
  if Py.mem name dirnames
  then inl (IsADirectoryError (path_str (dirpath ++ [name])%list))
  else
    match write_error (dirpath ++ [name])%list content with
    | Some e => inl e
    | None => inr (store_file name content fs)
    end.

(** [(dirpath / name).read_text()] *)
Definition read_text (dirpath : path) (dirnames : list string)
  (fs : list (string * string)) (name : string) : exn + string :=
  match find_file name fs with
  | Some c =>
      match decode_error c with
      | Some msg => inl (UnicodeDecodeError msg)
      | None => inr (Py.universal_newlines c)
      end
  | None =>
      if Py.mem name dirnames
      then inl (IsADirectoryError (path_str (dirpath ++ [name])%list))
      else inl (FileNotFoundError (path_str (dirpath ++ [name])%list))
  end.

(** [(dirpath / name).unlink()] for a file taken from the listing. *)
Fixpoint unlink (name : string) (fs : list (string * string))
  : list (string * string) :=
  match fs with
  | [] => []
  | (n, c) :: fs' => if String.eqb name n then fs' else (n, c) :: unlink name fs'
  end.

(** ** [os.walk], top-down, with the loop body run at every yield

    [body rel dirnames fs s] is the loop body at the directory [rel] below the
    top: it sees the names of the sub-directories and the files of that
    directory, may rewrite the files, and updates the loop-carried state [s].
    [keep] is the filter the body assigns to [dirnames[:]]; the walk descends
    into the kept sub-directories only, in listing order, after the body has
    run.  The loop bodies of the source write and delete files of the
    directory they are at and nothing else, so the sub-directories the walk
    scans later are those the tree had when the walk started. *)
Section Walk.
Context {S : Type}.
Variable keep : string -> bool.
Variable body :
  path -> list string -> list (string * string) -> S ->
  exn + (list (string * string) * S).

(** The descent into the sub-directories [l] of the directory [rel], each
    walked by [w]. *)
Fixpoint walk_subdirs (w : path -> dir -> S -> exn + (dir * S))
  (rel : path) (l : list (string * dir)) (s : S) {struct l}
  : exn + (list (string * dir) * S) :=
  match l with
  | [] => inr ([], s)
  | (n, sd) :: l' =>
      if keep n then
        match w (rel ++ [n])%list sd s with
        | inl e => inl e
        | inr (sd', s2) =>
            match walk_subdirs w rel l' s2 with
            | inl e => inl e
            | inr (l'', s3) => inr ((n, sd') :: l'', s3)
            end
        end
      else
        match walk_subdirs w rel l' s with
        | inl e => inl e
        | inr (l'', s3) => inr ((n, sd) :: l'', s3)
        end
  end.

Fixpoint walk (rel : path) (d : dir) (s : S) {struct d} : exn + (dir * S) :=
  match d with
  | MkDir fs sds =>
      match body rel (map fst sds) fs s with
      | inl e => inl e
      | inr (fs', s1) =>
          match walk_subdirs (fun r sd s' => walk r sd s') rel sds s1 with
          | inl e => inl e
          | inr (sds', s2) => inr (MkDir fs' sds', s2)
          end
      end
  end.
End Walk.

(** The exclusion test of the walks of [create_signposts] and
    [validate_signposts]: [d.startswith('.') or d in [...]]. *)
Definition excluded (d : string) : bool :=
  Py.startswith d "."
  || Py.mem d ["node_modules"; "__pycache__"; "venv"; "env"; ".git"].

Definition kept (d : string) : bool := negb (excluded d).

(** A signpost-named file: [f.startswith("_CARDINAL_") and f.endswith(".txt")]. *)
Definition is_signpost (f : string) : bool :=
  Py.startswith f "_CARDINAL_" && Py.endswith f ".txt".

(** ** generator.py *)

Record SignpostGenerator : Type := {
  root_path : path;
  format : string;
  include_rules : bool;
  include_tree : bool;
  custom_rules : list (string * string)
}.

(** [SignpostGenerator.__init__], run on the file system [fs] (the directory
    [/]); the resolved root path is given by its segments.  The constructor
    only reads the file system, which is returned as it was. *)
Definition SignpostGenerator_init (fs : dir) (root : path) (fmt : string)
  (rules tree : bool) (custom : option (list (string * string)))
  : (exn + SignpostGenerator) * dir :=
  let self := {| root_path := root;
                 format := fmt;
                 include_rules := rules;
                 include_tree := tree;
                 custom_rules := match custom with Some c => c | None => [] end |} in
  if negb (path_exists fs root)
  then (inl (ValueError ("Path does not exist: " ++ path_str root)), fs)
  else (inr self, fs).

(** The [role_map] literal of [_infer_directory_role]. *)
Definition role_map : list (string * string) :=
  [ ("src", "Source code");
    ("source", "Source code");
    ("lib", "Library code");
    ("tests", "Test suite");
    ("test", "Test suite");
    ("docs", "Documentation");
    ("documentation", "Documentation");
    ("examples", "Example code");
    ("scripts", "Utility scripts");
    ("config", "Configuration files");
    ("data", "Data files");
    ("models", "Data models");
    ("views", "View templates");
    ("controllers", "Controller logic");
    ("routes", "Route definitions");
    ("middleware", "Middleware components");
    ("utils", "Utility functions");
    ("helpers", "Helper functions");
    ("services", "Service layer");
    ("api", "API implementation");
    ("static", "Static assets");
    ("public", "Public files");
    ("assets", "Asset files");
    ("components", "UI components");
    ("pages", "Page components");
    ("layouts", "Layout components");
    ("hooks", "Custom hooks");
    ("context", "Context providers");
    ("store", "State management");
    ("types", "Type definitions");
    ("interfaces", "Interface definitions");
    ("constants", "Constants");
    ("enums", "Enumerations") ].

(** [_infer_directory_role(dir_path)] *)
Definition _infer_directory_role (dir_path : path) : string :=
  let dir_name := str_lower (path_name dir_path) in
  Py.dict_get role_map dir_name (str_capitalize dir_name ++ " directory").

(** The name filter of [build_tree], applied to files and directories alike. *)
Definition tree_hidden (name : string) : bool :=
  Py.startswith name "."
  || Py.mem name ["node_modules"; "__pycache__"; "venv"; "env"].

(** The entries of a directory as [build_tree] lists them: sorted on
    [(not is_dir, name)], so directories first, then filtered.  A directory
    carries its tree, a file carries [None]. *)
Definition tree_items (d : dir) : list (string * option dir) :=
  filter (fun i => negb (tree_hidden (fst i)))
    (Py.sorted_by_name (map (fun x => (fst x, Some (snd x))) (subdirs d))
     ++ Py.sorted_by_name (map (fun x => (fst x, @None dir)) (files d))).

(** [build_tree(path, prefix, depth)] with [max_depth = 3]; [levels] is
    [max_depth + 1 - depth], so that [levels = 0] is the early return on
    [depth > max_depth].  The result is what the call appends to
    [tree_lines]. *)
Fixpoint build_tree (levels : nat) (d : dir) (prefix : string) : list string :=
  match levels with
  | O => []
  | S k =>
      (fix each (items : list (string * option dir)) : list string :=
         match items with
         | [] => []
         | (name, sub) :: rest =>
             let is_last := match rest with [] => true | _ => false end in
             let current_prefix := if is_last then "└── " else "├── " in
             let line :=
               prefix ++ current_prefix ++ name
               ++ (match sub with Some _ => "/" | None => EmptyString end) in
             let below :=
               match sub with
               | Some sd =>
                   let extension := if is_last then "    " else "│   " in
                   build_tree k sd (prefix ++ extension)
               | None => []
               end in
             line :: (below ++ each rest)%list
         end) (tree_items d)
  end.

(** [_generate_tree(root)] on the project tree [t] whose root directory is
    named [root_name]. *)
Definition _generate_tree (root_name : string) (t : dir) : list string :=
  (root_name ++ "/") :: build_tree 4 t EmptyString.

(** [_generate_root_content()], reading the project tree [t] for the
    directory structure. *)
Definition _generate_root_content (self : SignpostGenerator) (t : dir) : string :=
  let lines :=
    [ Py.repeat_str "═" 60;
      "CARDINAL RULES - READ BEFORE ANY OPERATION";
      Py.repeat_str "═" 60;
      EmptyString;
      "ROOT: " ++ path_str (root_path self) ++ "/";
      "HERE: " ++ path_str (root_path self) ++ "/";
      "ROLE: Project root directory";
      EmptyString ] in
  let lines :=
    if include_rules self then
      (lines ++
      [ "BEFORE GENERATING CODE:";
        "1. pwd && ls -la";
        "2. cat _CARDINAL_*.txt (signpost in current directory)";
        "3. State absolute path out loud";
        "4. Verify file doesn't already exist";
        EmptyString;
        "CONSTITUTIONAL RULES:";
        "- Absolute paths only, never use relative paths";
        "- ONE config location (verify before creating config)";
        "- NO new directories without explicit approval";
        "- Generate ONE file per operation, then STOP";
        "- All imports must use absolute paths";
        EmptyString;
        "VIOLATION = HALT IMMEDIATELY";
        EmptyString ])%list
    else lines in
  let lines :=
    match custom_rules self with
    | [] => lines
    | rules =>
        (lines ++ ["CUSTOM RULES:"]
         ++ map (fun kv => "- " ++ fst kv ++ ": " ++ snd kv)%string rules
         ++ [EmptyString])%list
    end in
  let lines :=
    if include_tree self then
      (lines ++ ["DIRECTORY STRUCTURE:"]
       ++ _generate_tree (path_name (root_path self)) t
       ++ [EmptyString])%list
    else lines in
  Py.join Py.LF lines.

(** [_generate_directory_content(dir_path, role)] *)
Definition _generate_directory_content (self : SignpostGenerator)
  (dir_path : path) (role : string) : string :=
  let lines :=
    [ "ROOT: " ++ path_str (root_path self) ++ "/";
      "HERE: " ++ path_str dir_path ++ "/";
      "ROLE: " ++ role ] in
  Py.join Py.LF lines.

(** [_create_root_signpost()]: the new project tree and the path written. *)
Definition _create_root_signpost (self : SignpostGenerator) (t : dir)
  : exn + (dir * path) :=
  let content := _generate_root_content self t in
  match write_text (root_path self) (map fst (subdirs t)) (files t)
          "_CARDINAL_ROOT.txt" content with
  | inl e => inl e
  | inr fs' => inr (MkDir fs' (subdirs t), (root_path self ++ ["_CARDINAL_ROOT.txt"])%list)
  end.

(** The file name [_create_directory_signpost] derives from the path of the
    directory below the root. *)
Definition signpost_filename (rel : path) : string :=
  "_CARDINAL_" ++ Py.join "_" (map str_upper rel) ++ ".txt".

(** [_create_directory_signpost(dir_path)] for the directory [rel] below the
    root, whose sub-directories are [dirnames] and files [fs]: the new files
    of the directory and the path written. *)
Definition _create_directory_signpost (self : SignpostGenerator) (rel : path)
  (dirnames : list string) (fs : list (string * string))
  : exn + (list (string * string) * path) :=
  let dir_path := (root_path self ++ rel)%list in
  let filename := signpost_filename rel in
  let role := _infer_directory_role dir_path in
  let content := _generate_directory_content self dir_path role in
  match write_text dir_path dirnames fs filename content with
  | inl e => inl e
  | inr fs' => inr (fs', (dir_path ++ [filename])%list)
  end.

(** The body of the [for] loop of [create_signposts]; the loop-carried state
    is the list [created]. *)
Definition create_body (self : SignpostGenerator) (max_depth : Z) (rel : path)
  (dirnames : list string) (fs : list (string * string)) (created : list path)
  : exn + (list (string * string) * list path) :=
  let depth := List.length rel in
  if (depth =? 0)%nat || (Z.of_nat depth >? max_depth)%Z
  then inr (fs, created)
  else
    match _create_directory_signpost self rel dirnames fs with
    | inl e => inl e
    | inr (fs', signpost) => inr (fs', Py.append created signpost)
    end.

(** [create_signposts(max_depth)] on the project tree [t]: the new tree and
    the list of created paths, or the exception raised. *)
Definition create_signposts (self : SignpostGenerator) (max_depth : Z) (t : dir)
  : exn + (dir * list path) :=
  match _create_root_signpost self t with
  | inl e => inl e
  | inr (t1, root_signpost) =>
      walk kept (create_body self max_depth) [] t1 [root_signpost]
  end.

(** The body of the outer [for] loop of [remove]: the inner loop runs over
    the [filenames] of the listing; the state is the counter [removed]. *)
Definition remove_body (rel : path) (dirnames : list string)
  (fs : list (string * string)) (removed : nat)
  : exn + (list (string * string) * nat) :=
  inr (fold_left
         (fun (st : list (string * string) * nat) (filename : string) =>
            if is_signpost filename
            then (unlink filename (fst st), S (snd st))
            else st)
         (map fst fs) (fs, removed)).

(** [remove()] *)
Definition remove (t : dir) : exn + (dir * nat) :=
  walk (fun _ => true) remove_body [] t 0%nat.

(** [update()] *)
Definition update (self : SignpostGenerator) (t : dir) : exn + (dir * list path) :=
  match remove t with
  | inl e => inl e
  | inr (t1, _) => create_signposts self 10 t1
  end.

(** ** validators.py *)

(** The value the validator extracts from a [LABEL:] line:
    [line.split(label)[1].strip().rstrip('/')]. *)
Definition field_value (line label : string) : string :=
  Py.rstrip_slash (str_strip (nth 1 (Py.split line label) EmptyString)).

(** [_validate_signpost_content(signpost_path, root_path)] for the signpost
    [name] in the directory [rel] below [root], whose sub-directories are
    [dirnames] and files [fs]. *)
Definition _validate_signpost_content (root rel : path) (dirnames : list string)
  (fs : list (string * string)) (name : string) : bool * list string :=
  let signpost_path := (root ++ rel ++ [name])%list in
  let signpost_rel := rel_str (rel ++ [name])%list in
  match read_text (root ++ rel)%list dirnames fs name with
  | inl e =>
      (false, ["Cannot read " ++ path_str signpost_path ++ ": " ++ exn_str e])
  | inr content =>
      let issues :=
        fold_left
          (fun (issues : list string) (field : string) =>
             if negb (Py.contains field content)
             then Py.append issues ("Missing '" ++ field ++ "' in " ++ signpost_rel)
             else issues)
          ["ROOT:"; "HERE:"; "ROLE:"] [] in
      let lines := Py.split content Py.LF in
      let issues :=
        match Py.next_such (fun l => Py.startswith l "ROOT:") lines with
        | Some root_line =>
            let root_value := field_value root_line "ROOT:" in
            let expected_root := path_str root in
            if negb (String.eqb root_value expected_root)
            then Py.append issues
                   ("Incorrect ROOT in " ++ signpost_rel ++ ": "
                    ++ "expected " ++ expected_root ++ ", got " ++ root_value)
            else issues
        | None => issues
        end in
      let issues :=
        match Py.next_such (fun l => Py.startswith l "HERE:") lines with
        | Some here_line =>
            let here_value := field_value here_line "HERE:" in
            let expected_here := path_str (root ++ rel)%list in
            if negb (String.eqb here_value expected_here)
            then Py.append issues
                   ("Incorrect HERE in " ++ signpost_rel ++ ": "
                    ++ "expected " ++ expected_here ++ ", got " ++ here_value)
            else issues
        | None => issues
        end in
      (match issues with [] => true | _ => false end, issues)
  end.

(** The body of the [for] loop of [validate_signposts]; the loop-carried
    state is the list [issues].  The body reads the directory only. *)
Definition validate_body (root rel : path) (dirnames : list string)
  (fs : list (string * string)) (issues : list string)
  : exn + (list (string * string) * list string) :=
  match rel with
  | [] => inr (fs, issues)
  | _ =>
      let signpost_files := filter is_signpost (map fst fs) in
      match signpost_files with
      | [] => inr (fs, Py.append issues ("Missing signpost in: " ++ rel_str rel))
      | first :: others =>
          let issues :=
            match others with
            | [] => issues
            | _ => Py.append issues ("Multiple signposts in: " ++ rel_str rel)
            end in
          let '(valid, content_issues) :=
            _validate_signpost_content root rel dirnames fs first in
          inr (fs, if negb valid then Py.extend issues content_issues else issues)
      end
  end.

(** [validate_signposts(root_path)] on the project tree [t], together with
    the list [issues] as it stands when the function returns. *)
Definition validate_signposts_run (root : path) (t : dir) : bool * list string :=
  let dirnames := map fst (subdirs t) in
  if negb (Py.mem "_CARDINAL_ROOT.txt" (map fst (files t))
           || Py.mem "_CARDINAL_ROOT.txt" dirnames)
  then (false,
        Py.append [] ("Missing root signpost: "
                      ++ path_str (root ++ ["_CARDINAL_ROOT.txt"])%list))
  else
    let '(root_valid, root_issues) :=
      _validate_signpost_content root [] dirnames (files t) "_CARDINAL_ROOT.txt" in
    let issues := if negb root_valid then Py.extend [] root_issues else [] in
    match walk kept (validate_body root) [] t issues with
    | inl _ => (false, issues)
    | inr (_, issues) =>
        match issues with
        | [] => (true, issues)
        | _ => (false, issues)
        end
    end.

Definition validate_signposts (root : path) (t : dir) : bool :=
  fst (validate_signposts_run root t).

(** [SignpostGenerator.validate()] *)
Definition validate (self : SignpostGenerator) (t : dir) : bool :=
  validate_signposts (root_path self) t.

(** ** The scenario of the test suite: [src], [src/models], [tests],
    [config] under the project root. *)
Definition empty_dir : dir := MkDir [] [].

Definition temp_project : dir :=
  MkDir [] [ ("src", MkDir [] [("models", empty_dir)]);
             ("tests", empty_dir);
             ("config", empty_dir) ].

Definition default_generator (root : path) : SignpostGenerator :=
  {| root_path := root; format := "txt"; include_rules := true;
     include_tree := false; custom_rules := [] |}.

(** ** Specification-level views of the tree *)

(** What [os.walk] yields on a tree that does not change during the walk:
    [(dirpath, dirnames, files)] for the top and then, in listing order, for
    the kept sub-directories. *)
Fixpoint os_walk (keep : string -> bool) (rel : path) (d : dir)
  : list (path * list string * list (string * string)) :=
  match d with
  | MkDir fs sds =>
      (rel, map fst sds, fs)
      :: flat_map
           (fun x => if keep (fst x) then os_walk keep (rel ++ [fst x])%list (snd x)
                     else [])
           sds
  end.

(** The tracked directories: every directory below the root that the
    exclusion-filtered walk reaches. *)
Definition tracked (t : dir) : list (path * list string * list (string * string)) :=
  tl (os_walk kept [] t).

(** The tree with every signpost-named file deleted, in every directory. *)
Fixpoint without_signposts (d : dir) : dir :=
  match d with
  | MkDir fs sds =>
      MkDir (filter (fun f => negb (is_signpost (fst f))) fs)
            (map (fun x => (fst x, without_signposts (snd x))) sds)
  end.

(** The number of signpost-named files, over every directory. *)
Fixpoint count_signposts (d : dir) : nat :=
  match d with
  | MkDir fs sds =>
      (List.length (filter is_signpost (map fst fs))
       + list_sum (map (fun x => count_signposts (snd x)) sds))%nat
  end.

(** The tree with every excluded directory emptied. *)
Fixpoint hollow (d : dir) : dir :=
  match d with
  | MkDir fs sds =>
      MkDir fs
        (map (fun x => if kept (fst x) then (fst x, hollow (snd x))
                       else (fst x, empty_dir))
           sds)
  end.

(** The depth of a tree: the largest number of path segments of a directory
    below its root. *)
Fixpoint depth (d : dir) : nat :=
  match d with
  | MkDir _ sds => fold_right (fun x m => Nat.max (S (depth (snd x))) m) 0%nat sds
  end.

(** The one-character string [\r]. *)
Definition CRs : string := String Py.cr_char EmptyString.

(** The patterns the validator is sensitive to; none of them holds [/] or a
    space. *)
Definition sensitive (p : string) : Prop :=
  p = Py.LF \/ p = CRs \/ p = "ROOT:" \/ p = "HERE:".

(** The value part of a generated [ROOT:] or [HERE:] line: a space, the
    path, a slash. *)
Definition slashed (p : path) : string := " " ++ path_str p ++ "/".

(** A path segment the file system can hold and that the text of a signpost
    can carry: non-empty, without [/], without line breaks and without the
    field labels the validator splits on. *)
Definition clean (s : string) : bool :=
  negb (Py.contains "/" s)
  && negb (Py.contains Py.LF s)
  && negb (Py.contains CRs s)
  && negb (Py.contains "ROOT:" s)
  && negb (Py.contains "HERE:" s).

Definition segment_ok (s : string) : bool :=
  negb (String.eqb s EmptyString) && clean s.

(** No entry of the tree, file or directory, has a signpost name, and every
    tracked directory has a name that is [segment_ok]. *)
Fixpoint fresh (d : dir) : bool :=
  match d with
  | MkDir fs sds =>
      forallb (fun f => negb (is_signpost (fst f))) fs
      && forallb (fun x => negb (is_signpost (fst x))) sds
      && forallb (fun x => if kept (fst x)
                           then segment_ok (fst x) && fresh (snd x)
                           else true) sds
  end.

(** A line of a signpost that comes before the [ROOT:] line and cannot be
    taken for a field line: no line break in it, no field label at its
    start. *)
Definition plain (l : string) : bool :=
  negb (Py.contains Py.LF l) && negb (Py.contains CRs l)
  && negb (Py.startswith l "ROOT:") && negb (Py.startswith l "HERE:").

(** The validator's reading of a field value: surrounding white space
    dropped, then every trailing slash. *)
Definition normalise (v : string) : string := Py.rstrip_slash (str_strip v).

(** [str.strip] on the value part of a generated line, a space and then a
    text that starts and ends with a slash: the space goes and the rest
    stays, a slash not being white space. *)
Definition strip_keeps_paths : Prop :=
  forall s : string, str_strip (" /" ++ s ++ "/") = "/" ++ s ++ "/".

(** The issue reported for a [ROOT:] or [HERE:] value [got] that is not the
    [expected] path, in the signpost [name] of the directory [rel]. *)
Definition incorrect_issue (field : string) (rel : path) (name expected got : string)
  : string :=
  "Incorrect " ++ field ++ " in " ++ rel_str (rel ++ [name])%list ++ ": "
  ++ "expected " ++ expected ++ ", got " ++ got.

(** The issues of a signpost whose [ROOT:] and [HERE:] values are [rv] and
    [hv], as the specification words them. *)
Definition value_issues (root rel : path) (name rv hv : string) : list string :=
  ((if String.eqb (normalise rv) (path_str root) then []
    else [incorrect_issue "ROOT" rel name (path_str root) (normalise rv)])
   ++
   (if String.eqb (normalise hv) (path_str (root ++ rel))
    then []
    else [incorrect_issue "HERE" rel name (path_str (root ++ rel)) (normalise hv)]))%list.

(** [s] up to the first occurrence of [label], the whole of [s] when there
    is none. *)
Fixpoint before (label s : string) : string :=
  if String.prefix label s then EmptyString
  else match s with
       | EmptyString => EmptyString
       | String c s' => String c (before label s')
       end.





(** The line the validator's per-directory check adds for a directory
    without signpost, and for one with several. *)
Definition missing_issue (rel : path) : string :=
  "Missing signpost in: " ++ rel_str rel.

Definition multiple_issue (rel : path) : string :=
  "Multiple signposts in: " ++ rel_str rel.

(** The issues of one tracked directory, as the specification words them:
    no signpost, a missing issue and nothing else; several, a multiple issue
    and then the content issues of the first; one, its content issues. *)
Definition dir_issues (root : path)
  (x : path * list string * list (string * string)) : list string :=
  let '(rel, dirnames, fs) := x in
  match filter is_signpost (map fst fs) with
  | [] => [missing_issue rel]
  | first :: others =>
      ((match others with [] => [] | _ => [multiple_issue rel] end)
       ++ snd (_validate_signpost_content root rel dirnames fs first))%list
  end.

(** The test of the loop body of [create_signposts] that lets a directory
    have its signpost: not [depth == 0 or depth > max_depth]. *)
Definition within_depth (max_depth : Z) (rel : path) : bool :=
  negb ((List.length rel =? 0)%nat || (Z.of_nat (List.length rel) >? max_depth)%Z).

(** The text [create_signposts] writes for the directory [rel]. *)
Definition directory_text (self : SignpostGenerator) (rel : path) : string :=
  _generate_directory_content self (root_path self ++ rel)%list
    (_infer_directory_role (root_path self ++ rel)%list).

(** The tree after the walk of [create_signposts]: every directory within
    the depth limit that the walk reaches holds its signpost. *)
Fixpoint signposted (self : SignpostGenerator) (max_depth : Z) (rel : path)
  (d : dir) : dir :=
  match d with
  | MkDir fs sds =>
      MkDir (if within_depth max_depth rel
             then store_file (signpost_filename rel) (directory_text self rel) fs
             else fs)
            (map (fun x => if kept (fst x)
                           then (fst x,
                                 signposted self max_depth (rel ++ [fst x])%list (snd x))
                           else x)
               sds)
  end.

(** The platform takes the text [c] for the file at [p]. *)
Definition accepted (p : path) (c : string) : bool :=
  match write_error p c with
  | Some _ => false
  | None => true
  end.

(** The signpost of the directory [rel] can be written: its name is not
    that of a sub-directory, and the platform takes it. *)
Definition signpost_writable (self : SignpostGenerator) (rel : path)
  (dirnames : list string) : bool :=
  negb (Py.mem (signpost_filename rel) dirnames)
  && accepted ((root_path self ++ rel) ++ [signpost_filename rel])%list
       (directory_text self rel).

(** Every signpost the walk has to write can be written. *)
Fixpoint writable (self : SignpostGenerator) (max_depth : Z) (rel : path)
  (d : dir) : bool :=
  match d with
  | MkDir fs sds =>
      (negb (within_depth max_depth rel)
       || signpost_writable self rel (map fst sds))
      && forallb (fun x => if kept (fst x)
                           then writable self max_depth (rel ++ [fst x])%list (snd x)
                           else true)
           sds
  end.

(** The path of the signpost of the directory [rel]. *)
Definition marker_path (root rel : path) : path :=
  (root ++ rel ++ [signpost_filename rel])%list.

(** The signposts written for the yields [l] of a walk. *)
Definition markers (root : path) (max_depth : Z)
  (l : list (path * list string * list (string * string))) : list path :=
  map (fun x => marker_path root (fst (fst x)))
    (filter (fun x => within_depth max_depth (fst (fst x))) l).

(** What a walk of [create_signposts] from [rel] does to [d]: it raises
    exactly when some signpost cannot be written, and otherwise leaves the
    signposted tree and has appended the signposts it wrote. *)
Definition create_walk_outcome (g : SignpostGenerator) (md : Z) (rel : path)
  (d : dir) (created : list path) (r : exn + (dir * list path)) : Prop :=
  match r with
  | inr (d', created') =>
      writable g md rel d = true /\ d' = signposted g md rel d
      /\ created' = (created ++ markers (root_path g) md (os_walk kept rel d))%list
  | inl _ => writable g md rel d = false
  end.

(** The project tree once [_create_root_signpost] has written the root
    signpost. *)
Definition root_written (self : SignpostGenerator) (t : dir) : dir :=
  MkDir (store_file "_CARDINAL_ROOT.txt" (_generate_root_content self t) (files t))
        (subdirs t).

(** [create_signposts] returns: no exception was raised. *)
Definition creatable (self : SignpostGenerator) (max_depth : Z) (t : dir) : bool :=
  negb (Py.mem "_CARDINAL_ROOT.txt" (map fst (subdirs t)))
  && accepted (root_path self ++ ["_CARDINAL_ROOT.txt"])%list
       (_generate_root_content self t)
  && writable self max_depth [] t.

(** The paths of the tracked directories. *)
Definition tracked_paths (t : dir) : list path :=
  map (fun x => fst (fst x)) (tracked t).

(** The platform serves the signposts of the tree [t]: it takes the root
    signpost and the signpost of every tracked directory, under its derived
    name, and decodes their texts when they are read back.  (No file system
    takes every name: on most a name of more than 255 bytes is refused.) *)
Definition platform_serves (self : SignpostGenerator) (t : dir) : Prop :=
  accepted (root_path self ++ ["_CARDINAL_ROOT.txt"])%list
    (_generate_root_content self t) = true
  /\ decode_error (_generate_root_content self t) = None
  /\ forall rel,
       In rel (tracked_paths t) ->
       accepted ((root_path self ++ rel) ++ [signpost_filename rel])%list
         (directory_text self rel) = true
       /\ decode_error (directory_text self rel) = None.

(** The lines of a root signpost that come before its [ROOT:] line. *)
Definition banner_lines : list string :=
  [ Py.repeat_str "═" 60;
    "CARDINAL RULES - READ BEFORE ANY OPERATION";
    Py.repeat_str "═" 60;
    EmptyString ].

(** What the loop body adds to [issues] at one yield of the walk. *)
Definition body_issues (root : path)
  (x : path * list string * list (string * string)) : list string :=
  match fst (fst x) with
  | [] => []
  | _ => dir_issues root x
  end.

(** ** [check_signpost_coverage] *)

(** The body of the [for] loop of [check_signpost_coverage]; the
    loop-carried state is [(total_dirs, dirs_with_signposts)]. *)
Definition coverage_body (rel : path) (dirnames : list string)
  (fs : list (string * string)) (st : nat * nat)
  : exn + (list (string * string) * (nat * nat)) :=
  let total_dirs := S (fst st) in
  let has_signpost := existsb is_signpost (map fst fs) in
  inr (fs, (total_dirs, if has_signpost then S (snd st) else snd st)).

(** The two counters when the loop of [check_signpost_coverage] ends.  [t]
    is the directory at [root_path], or [None] when [root_path] is not an
    existing directory: [os.walk] then yields nothing. *)
Definition coverage_counts (t : option dir) : nat * nat :=
  match t with
  | None => (0%nat, 0%nat)
  | Some t =>
      match walk kept coverage_body [] t (0%nat, 0%nat) with
      | inr (_, st) => st
      | inl _ => (0%nat, 0%nat)
      end
  end.

(** [(a / b) * 100] on the exact quotient; the source computes it on
    floats. *)
Definition percent (a b : nat) : QArith_base.Q :=
  QArith_base.Qmult
    (QArith_base.Qdiv (QArith_base.inject_Z (Z.of_nat a))
                      (QArith_base.inject_Z (Z.of_nat b)))
    (QArith_base.inject_Z 100).

(** [check_signpost_coverage(root_path)], for [t] the directory at
    [root_path], if there is one. *)
Definition check_signpost_coverage (t : option dir) : QArith_base.Q :=
  let '(total_dirs, dirs_with_signposts) := coverage_counts t in
  if (total_dirs =? 0)%nat then QArith_base.inject_Z 0
  else percent dirs_with_signposts total_dirs.

(** A yield of the walk whose directory holds a signpost-named file. *)
Definition has_signpost (x : path * list string * list (string * string)) : bool :=
  existsb is_signpost (map fst (snd x)).

(** ** Views of a tree for the tree renderer *)

(** What [build_tree] can show of a tree: the entries that are not hidden,
    down to [levels] levels. *)
Fixpoint visible (levels : nat) (d : dir) : dir :=
  match levels with
  | O => MkDir [] []
  | S k =>
      MkDir (filter (fun f => negb (tree_hidden (fst f))) (files d))
            (map (fun x => (fst x, visible k (snd x)))
               (filter (fun x => negb (tree_hidden (fst x))) (subdirs d)))
  end.

(** Two trees that hold the same entries, with their listings in any order
    at every level; names are unique within a directory. *)
#[warnings="-register-all"]
Inductive reordered : dir -> dir -> Prop :=
| reordered_dir (fs fs' : list (string * string)) (sds mid sds' : list (string * dir)) :
    Permutation fs fs' ->
    NoDup (map fst fs) ->
    Forall2 (fun x y => fst x = fst y /\ reordered (snd x) (snd y)) sds mid ->
    Permutation mid sds' ->
    NoDup (map fst sds) ->
    reordered (MkDir fs sds) (MkDir fs' sds').

(** Two entries of a listing with the same name and kind, the directories
    related by [R]. *)
Definition same_item (R : dir -> dir -> Prop) (x y : string * option dir) : Prop :=
  fst x = fst y
  /\ match snd x, snd y with
     | Some d, Some d' => R d d'
     | None, None => True
     | _, _ => False
     end.

(** A listing in ascending order of names. *)
Definition name_sorted {A : Type} (l : list (string * A)) : Prop :=
  StronglySorted (fun a b => String.leb (fst a) (fst b) = true) l.

(** ** scripts/fix_google_shopping.py *)

(** A row of the CSV file is the list of its fields.  [str.lower] and
    [str.strip] are parameters of this part of the embedding, so that what is
    proved holds for the Unicode-aware functions of the source. *)

Definition COL_SKU : nat := 17%nat.
Definition COL_GENDER : nat := 38%nat.
Definition COL_AGE_GROUP : nat := 39%nat.
Definition COL_MPN : nat := 40%nat.
Definition COL_CONDITION : nat := 41%nat.
Definition COL_CUSTOM_PRODUCT : nat := 42%nat.
Definition COL_TARGET_GENDER : nat := 67%nat.

(** Truth value of a [str]: it is not empty. *)
Definition truthy (s : string) : bool := negb (String.eqb s EmptyString).

(** [row[i]], read where the source has checked [len(row) > i]. *)
Definition item (row : list string) (i : nat) : string := nth i row EmptyString.

(** [row[i] = v]; the source assigns only where it has checked
    [len(row) > i], so that the [IndexError] of an index out of range is not
    reached. *)
Fixpoint set_item (i : nat) (v : string) (row : list string) : list string :=
  match row, i with
  | [], _ => []
  | _ :: rest, O => v :: rest
  | x :: rest, S j => x :: set_item j v rest
  end.

(** [f"{i}"] for a row number. *)
Definition str_of_int (i : nat) : string :=
  DecimalString.NilEmpty.string_of_uint (Nat.to_uint i).

(** [last_product_data] *)
Record product_data : Type := {
  gender : string;
  age_group : string;
  title : string;
  handle : string
}.

(** The variables the loop of [process_csv] carries. *)
Record loop_state : Type := {
  output_rows : list (list string);
  last_product_data : product_data;
  all_changes : list string;
  total_rows : nat;
  fixed_rows : nat
}.

Section GoogleShopping.

Variable str_lower : string -> string.
Variable str_strip : string -> string.

(** [not s or s.strip() == ''] *)
Definition blank (s : string) : bool :=
  negb (truthy s) || String.eqb (str_strip s) EmptyString.

(** The five blocks of [fix_row], each on the row and the list of changes
    so far.  Gender: lower case where that gives a valid value. *)
Definition fix_gender (st : list string * list string)
  : list string * list string :=
  let '(row, changes) := st in
  if Nat.ltb COL_GENDER (length row) && truthy (item row COL_GENDER) then
    let original := item row COL_GENDER in
    let fixed := str_lower original in
    if Py.mem fixed ["male"; "female"; "unisex"]
       && negb (String.eqb original fixed)
    then (set_item COL_GENDER fixed row,
          Py.append changes ("Gender: " ++ original ++ "→" ++ fixed))
    else (row, changes)
  else (row, changes).

(** Age group: lower case where that gives a valid value. *)
Definition fix_age_group (st : list string * list string)
  : list string * list string :=
  let '(row, changes) := st in
  if Nat.ltb COL_AGE_GROUP (length row) && truthy (item row COL_AGE_GROUP) then
    let original := item row COL_AGE_GROUP in
    let fixed := str_lower original in
    let valid_ages := ["newborn"; "infant"; "toddler"; "kids"; "adult"] in
    if Py.mem fixed valid_ages && negb (String.eqb original fixed)
    then (set_item COL_AGE_GROUP fixed row,
          Py.append changes ("Age: " ++ original ++ "→" ++ fixed))
    else (row, changes)
  else (row, changes).

(** Condition: [new] where it is blank. *)
Definition fix_condition (st : list string * list string)
  : list string * list string :=
  let '(row, changes) := st in
  if Nat.ltb COL_CONDITION (length row) then
    if blank (item row COL_CONDITION)
    then (set_item COL_CONDITION "new" row,
          Py.append changes "Condition: →new")
    else (row, changes)
  else (row, changes).

(** Custom product: [FALSE] where it is blank. *)
Definition fix_custom_product (st : list string * list string)
  : list string * list string :=
  let '(row, changes) := st in
  if Nat.ltb COL_CUSTOM_PRODUCT (length row) then
    if blank (item row COL_CUSTOM_PRODUCT)
    then (set_item COL_CUSTOM_PRODUCT "FALSE" row,
          Py.append changes "Custom Product: →FALSE")
    else (row, changes)
  else (row, changes).

(** MPN: the SKU where the MPN is blank and there is a SKU. *)
Definition fix_mpn (st : list string * list string)
  : list string * list string :=
  let '(row, changes) := st in
  if Nat.ltb COL_MPN (length row) && Nat.ltb COL_SKU (length row) then
    if blank (item row COL_MPN) && truthy (item row COL_SKU)
    then (set_item COL_MPN (item row COL_SKU) row,
          Py.append changes ("MPN: →" ++ item row COL_SKU))
    else (row, changes)
  else (row, changes).

(** [fix_row(row, row_num)]: the row and the list of changes. *)
Definition fix_row (row : list string) (row_num : nat)
  : list string * list string :=
  let st := (row, []) in
  let st := fix_gender st in
  let st := fix_age_group st in
  let st := fix_condition st in
  let st := fix_custom_product st in
  let st := fix_mpn st in
  st.

(** One turn of the loop of [process_csv] over the data rows, [i] being the
    row number and [row] the row. *)
Definition process_row (i : nat) (row : list string) (st : loop_state)
  : loop_state :=
  if match row with [] => true | _ :: _ => false end
     || Nat.ltb (length row) 10
  then
    {| output_rows := Py.append (output_rows st) row;
       last_product_data := last_product_data st;
       all_changes := all_changes st;
       total_rows := total_rows st;
       fixed_rows := fixed_rows st |}
  else
    let current_handle :=
      if Nat.ltb 0 (length row) then item row 0 else EmptyString in
    let last := last_product_data st in
    let changes_so_far := all_changes st in
    let '(row, last, changes_so_far) :=
      if Nat.ltb 1 (length row) && truthy (str_strip (item row 1)) then
        let last :=
          {| gender := gender last; age_group := age_group last;
             title := item row 1; handle := current_handle |} in
        let '(row, last, changes_so_far) :=
          if Nat.ltb COL_GENDER (length row) && truthy (item row COL_GENDER)
          then
            (row,
             {| gender := item row COL_GENDER; age_group := age_group last;
                title := title last; handle := handle last |},
             changes_so_far)
          else if Nat.ltb COL_TARGET_GENDER (length row)
                  && truthy (item row COL_TARGET_GENDER)
          then
            let target_gender :=
              str_lower
                (str_strip
                   (hd EmptyString (Py.split (item row COL_TARGET_GENDER) ";"))) in
            if Py.mem target_gender ["male"; "female"; "unisex"]
            then
              (set_item COL_GENDER target_gender row,
               {| gender := target_gender; age_group := age_group last;
                  title := title last; handle := handle last |},
               Py.append changes_so_far
                 ("Row " ++ str_of_int i ++ ": Copied gender from metafield: '"
                  ++ target_gender ++ "'"))
            else (row, last, changes_so_far)
          else (row, last, changes_so_far) in
        let last :=
          if Nat.ltb COL_AGE_GROUP (length row) && truthy (item row COL_AGE_GROUP)
          then {| gender := gender last; age_group := item row COL_AGE_GROUP;
                  title := title last; handle := handle last |}
          else last in
        (row, last, changes_so_far)
      else
        if String.eqb current_handle (handle last) then
          let '(row, changes_so_far) :=
            if Nat.ltb COL_GENDER (length row)
               && negb (truthy (item row COL_GENDER))
               && truthy (gender last)
            then (set_item COL_GENDER (gender last) row,
                  Py.append changes_so_far
                    ("Row " ++ str_of_int i ++ ": Propagated gender='"
                     ++ gender last ++ "'"))
            else (row, changes_so_far) in
          let '(row, changes_so_far) :=
            if Nat.ltb COL_AGE_GROUP (length row)
               && negb (truthy (item row COL_AGE_GROUP))
               && truthy (age_group last)
            then (set_item COL_AGE_GROUP (age_group last) row,
                  Py.append changes_so_far
                    ("Row " ++ str_of_int i ++ ": Propagated age_group='"
                     ++ age_group last ++ "'"))
            else (row, changes_so_far) in
          (row, last, changes_so_far)
        else (row, last, changes_so_far) in
    let '(fixed_row, changes) := fix_row row i in
    let changed := match changes with [] => false | _ :: _ => true end in
    {| output_rows := Py.append (output_rows st) fixed_row;
       last_product_data := last;
       all_changes :=
         if changed then Py.extend changes_so_far changes else changes_so_far;
       total_rows := S (total_rows st);
       fixed_rows := if changed then S (fixed_rows st) else fixed_rows st |}.

(** [for i, row in enumerate(rows, start=i)] *)
Fixpoint process_loop (i : nat) (rows : list (list string)) (st : loop_state)
  : loop_state :=
  match rows with
  | [] => st
  | row :: rest => process_loop (S i) rest (process_row i row st)
  end.

(** [process_csv] between the reading of [rows] and the writing of
    [output_rows]: the state when the loop ends, or [None] where [rows[0]]
    raises [IndexError]. *)
Definition process_rows (rows : list (list string)) : option loop_state :=
  match rows with
  | [] => None
  | header :: data =>
      Some (process_loop 2 data
              {| output_rows := [header];
                 last_product_data :=
                   {| gender := EmptyString; age_group := EmptyString;
                      title := EmptyString; handle := EmptyString |};
                 all_changes := [];
                 total_rows := 0;
                 fixed_rows := 0 |})
  end.

End GoogleShopping.

(** The value [fix_row] leaves in a gender or age column: the lower-case
    form where that is one of the [valid] values. *)
Definition lowered (str_lower : string -> string) (valid : list string)
  (original : string) : string :=
  if truthy original && Py.mem (str_lower original) valid
  then str_lower original else original.

(** The value [fix_row] leaves in a column with a default. *)
Definition defaulted (str_strip : string -> string) (default original : string)
  : string :=
  if blank str_strip original then default else original.

(** The value [fix_row] leaves in the MPN column. *)
Definition mpn_value (str_strip : string -> string) (mpn sku : string) : string :=
  if blank str_strip mpn && truthy sku then sku else mpn.

Definition genders : list string := ["male"; "female"; "unisex"].
Definition ages : list string := ["newborn"; "infant"; "toddler"; "kids"; "adult"].

(** The columns [process_csv] may write. *)
Definition google_column (i : nat) : bool :=
  Nat.leb COL_GENDER i && Nat.leb i COL_CUSTOM_PRODUCT.

(** An output row against its input row: as many fields, the same ones outside
    the Google Shopping columns, and the row itself when it is shorter than
    ten fields. *)
Definition row_kept (r o : list string) : Prop :=
  length o = length r
  /\ (length r < 10 -> o = r)
  /\ (forall i, google_column i = false -> item o i = item r i).

(** A block that reports nothing leaves the row as it is, and no block
    drops a reported change. *)
Definition quiet_step (f : list string * list string -> list string * list string)
  : Prop :=
  forall st, length (snd st) <= length (snd (f st))
             /\ (length (snd (f st)) = length (snd st) -> fst (f st) = fst st).

(** ** Induction on directory trees *)

Section DirInduction.
Variable P : dir -> Prop.
Hypothesis step :
  forall fs sds, Forall (fun x => P (snd x)) sds -> P (MkDir fs sds).

Fixpoint dir_tree_ind (d : dir) : P d :=
  match d with
  | MkDir fs sds =>
      step fs sds
        ((fix all (l : list (string * dir)) : Forall (fun x => P (snd x)) l :=
            match l with
            | [] => Forall_nil _
            | x :: l' => Forall_cons x (dir_tree_ind (snd x)) (all l')
            end) sds)
  end.
End DirInduction.

End Embedding.

(** The platform of the worked examples: case mapping and white space on
    the ASCII range, every file decodable, every write accepted. *)
#[global] Instance ascii_platform : Platform | 100 :=
  {| str_upper := Py.upper;
     str_lower := Py.lower;
     str_capitalize := Py.capitalize;
     str_strip := Py.strip;
     decode_error := fun _ => None;
     write_error := fun _ _ => None |}.

(** * Properties *)

(** ** Examples *)

Example split_on_label :
  Py.split "HERE: /proj/HERE:x/" "HERE:" = [EmptyString; " /proj/"; "x/"].
Proof. reflexivity. Qed.

Example split_on_lines :
  Py.split ("a" ++ Py.LF ++ Py.LF ++ "b") Py.LF = ["a"; EmptyString; "b"].
Proof. reflexivity. Qed.

Example strip_then_rstrip : Py.rstrip_slash (Py.strip "  /a/b//  ") = "/a/b".
Proof. reflexivity. Qed.

Example read_with_carriage_return :
  Py.universal_newlines ("a" ++ CRs ++ Py.LF ++ "b" ++ CRs ++ "c")
  = "a" ++ Py.LF ++ "b" ++ Py.LF ++ "c".
Proof. reflexivity. Qed.

Example role_of_src : _infer_directory_role ["proj"; "src"] = "Source code".
Proof. reflexivity. Qed.

Example role_of_unknown : _infer_directory_role ["proj"; "MyStuff"] = "Mystuff directory".
Proof. reflexivity. Qed.

Example filename_of_src_models :
  signpost_filename ["src"; "models"] = "_CARDINAL_SRC_MODELS.txt".
Proof. reflexivity. Qed.

Example tree_of_scenario :
  _generate_tree "test_project" temp_project
  = [ "test_project/"; "├── config/"; "├── src/"; "│   └── models/"; "└── tests/" ].
Proof. reflexivity. Qed.

Example scenario_creates_five :
  match create_signposts (default_generator ["tmp"; "test_project"]) 10 temp_project with
  | inr (_, created) => List.length created
  | inl _ => 0%nat
  end = 5%nat.
Proof. reflexivity. Qed.

(** ** Python string facts *)

Lemma append_assoc (a b c : string) : (a ++ b) ++ c = a ++ (b ++ c).
Proof. induction a as [|x a IH]; simpl; [reflexivity | now rewrite IH]. Qed.

Lemma prefix_app (p s : string) : String.prefix p (p ++ s) = true.
Proof.
  induction p as [|c p IH]; simpl.
  - destruct s; reflexivity.
  - destruct (ascii_dec c c); [exact IH | congruence].
Qed.

Lemma prefix_nil (p : string) : String.prefix EmptyString p = true.
Proof. destruct p; reflexivity. Qed.

Lemma contains_prefix (p s : string) :
  String.prefix p s = true -> Py.contains p s = true.
Proof. intros H. destruct s; simpl in *; rewrite H; reflexivity. Qed.

Lemma contains_cons (p : string) (c : ascii) (s : string) :
  Py.contains p (String c s) = String.prefix p (String c s) || Py.contains p s.
Proof. reflexivity. Qed.

Lemma contains_app_r (p a b : string) :
  Py.contains p b = true -> Py.contains p (a ++ b) = true.
Proof.
  intros H. induction a as [|c a IH]; simpl; [exact H|].
  rewrite IH. apply orb_true_r.
Qed.

Lemma prefix_app_weaken (p a b : string) :
  String.prefix p a = true -> String.prefix p (a ++ b) = true.
Proof.
  revert a. induction p as [|x p IH]; intros a H; [apply prefix_nil|].
  destruct a as [|y a]; simpl in *; [discriminate|].
  destruct (ascii_dec x y); [apply IH; exact H | discriminate].
Qed.

Lemma contains_app_l (p a b : string) :
  Py.contains p a = true -> Py.contains p (a ++ b) = true.
Proof.
  induction a as [|c a IH]; intros H.
  - simpl in H. rewrite orb_false_r in H.
    apply contains_prefix. apply (prefix_app_weaken p EmptyString b H).
  - change (String c a ++ b) with (String c (a ++ b)).
    rewrite contains_cons in *. apply orb_true_iff in H. destruct H as [H|H].
    + change (String c (a ++ b)) with (String c a ++ b).
      rewrite (prefix_app_weaken _ _ b H). reflexivity.
    + rewrite (IH H). apply orb_true_r.
Qed.

Lemma contains_false_cons (p : string) (c : ascii) (s : string) :
  Py.contains p (String c s) = false ->
  String.prefix p (String c s) = false /\ Py.contains p s = false.
Proof. rewrite contains_cons. apply orb_false_elim. Qed.

Lemma endswith_app (a b : string) : Py.endswith (a ++ b) b = true.
Proof.
  induction a as [|c a IH]; simpl.
  - destruct b; cbn [Py.endswith]; rewrite String.eqb_refl; reflexivity.
  - rewrite IH. apply orb_true_r.
Qed.

(** A character that does not occur in [p] cuts every occurrence of [p]. *)
Lemma prefix_cut (c : ascii) (p a b : string) :
  Py.occurs c p = false ->
  String.prefix p (a ++ String c b) = String.prefix p a.
Proof.
  revert a. induction p as [|x p IH]; intros a Hc.
  - rewrite !prefix_nil. reflexivity.
  - simpl in Hc. apply orb_false_elim in Hc. destruct Hc as [Hx Hp].
    destruct a as [|y a]; simpl.
    + destruct (ascii_dec x c) as [->|]; [|reflexivity].
      rewrite Ascii.eqb_refl in Hx. discriminate.
    + destruct (ascii_dec x y); [apply IH; exact Hp | reflexivity].
Qed.

Lemma contains_cut (c : ascii) (p a b : string) :
  Py.occurs c p = false -> p <> EmptyString ->
  Py.contains p (a ++ String c b) = Py.contains p a || Py.contains p b.
Proof.
  intros Hc Hp. induction a as [|y a IH].
  - simpl. destruct p as [|x p]; [congruence|].
    simpl in Hc. apply orb_false_elim in Hc. destruct Hc as [Hx _].
    destruct (ascii_dec x c) as [->|].
    + rewrite Ascii.eqb_refl in Hx. discriminate.
    + reflexivity.
  - change (String y a ++ String c b) with (String y (a ++ String c b)).
    rewrite !contains_cons, IH.
    change (String y (a ++ String c b)) with (String y a ++ String c b).
    rewrite (prefix_cut c p (String y a) b Hc).
    rewrite orb_assoc. reflexivity.
Qed.

Lemma prefix_char (c y : ascii) (s : string) :
  String.prefix (String c EmptyString) (String y s) = Ascii.eqb c y.
Proof.
  simpl. destruct (ascii_dec c y) as [->|Hn].
  - rewrite Ascii.eqb_refl. apply prefix_nil.
  - symmetry. apply Ascii.eqb_neq. exact Hn.
Qed.

Lemma split_skip (sep x b : string) :
  Py.split_from sep (String.length x) (x ++ b) = Py.split_from sep 0 b.
Proof. induction x as [|c x IH]; simpl; [reflexivity | exact IH]. Qed.

Lemma split_sep_head (sep b : string) :
  sep <> EmptyString ->
  Py.split (sep ++ b) sep = EmptyString :: Py.split b sep.
Proof.
  intros Hsep. destruct sep as [|c sep]; [congruence|].
  unfold Py.split.
  change (String c sep ++ b) with (String c (sep ++ b)).
  cbn [Py.split_from].
  change (String c (sep ++ b)) with (String c sep ++ b).
  rewrite prefix_app. cbn [String.length]. rewrite Nat.sub_1_r. cbn [Nat.pred].
  rewrite split_skip. reflexivity.
Qed.

Lemma split_none (sep s : string) :
  Py.contains sep s = false -> Py.split s sep = [s].
Proof.
  unfold Py.split. induction s as [|c s IH]; intros H; [reflexivity|].
  apply contains_false_cons in H. destruct H as [Hp Hc].
  cbn [Py.split_from]. rewrite Hp, (IH Hc). reflexivity.
Qed.

(** The piece after the first label, for a line that starts with the label
    and does not repeat it. *)
Lemma split_label (label v : string) :
  label <> EmptyString -> Py.contains label v = false ->
  nth 1 (Py.split (label ++ v) label) EmptyString = v.
Proof.
  intros Hl Hv. rewrite split_sep_head by exact Hl.
  rewrite split_none by exact Hv. reflexivity.
Qed.

Lemma split_lf_app (a b : string) :
  Py.contains Py.LF a = false ->
  Py.split (a ++ Py.LF ++ b) Py.LF = a :: Py.split b Py.LF.
Proof.
  unfold Py.split. induction a as [|y a IH]; intros H.
  - cbn. rewrite prefix_nil. reflexivity.
  - apply contains_false_cons in H. destruct H as [Hp Hc].
    change ((String y a ++ Py.LF ++ b)) with (String y (a ++ Py.LF ++ b)).
    cbn [Py.split_from].
    unfold Py.LF in Hp |- * at 1. rewrite prefix_char in *. rewrite Hp.
    fold Py.LF. rewrite (IH Hc). reflexivity.
Qed.

Lemma universal_newlines_app (a b : string) :
  Py.contains CRs a = false ->
  Py.universal_newlines (a ++ b) = a ++ Py.universal_newlines b.
Proof.
  induction a as [|y a IH]; intros H; [reflexivity|].
  apply contains_false_cons in H. destruct H as [Hp Hc].
  unfold CRs in Hp. rewrite prefix_char in Hp.
  cbn [append Py.universal_newlines].
  rewrite Ascii.eqb_sym, Hp, (IH Hc). reflexivity.
Qed.

Lemma join_cons (sep x : string) (l : list string) :
  l <> [] -> Py.join sep (x :: l) = x ++ sep ++ Py.join sep l.
Proof. destruct l; [congruence | reflexivity]. Qed.

Lemma join_app_tail (sep : string) (l1 l2 : list string) :
  l2 <> [] -> Py.join sep (l1 ++ l2) = Py.join sep (l1 ++ [Py.join sep l2]).
Proof.
  intros H2. induction l1 as [|x l1 IH]; [reflexivity|].
  rewrite <- !app_comm_cons.
  rewrite !join_cons, IH; [reflexivity | |]; intros E;
    apply app_eq_nil in E; destruct E; congruence.
Qed.

Lemma join_snoc (sep s : string) (l : list string) :
  exists x, Py.join sep (l ++ [s]) = x ++ s.
Proof.
  induction l as [|y l [x IH]].
  - exists EmptyString. reflexivity.
  - rewrite <- app_comm_cons, join_cons by (destruct l; discriminate).
    rewrite IH. exists (y ++ sep ++ x).
    rewrite !append_assoc. reflexivity.
Qed.

Lemma universal_newlines_join (l1 : list string) (z : string) :
  Forall (fun s => Py.contains CRs s = false) l1 ->
  Py.universal_newlines (Py.join Py.LF (l1 ++ [z]))
  = Py.join Py.LF (l1 ++ [Py.universal_newlines z]).
Proof.
  induction 1 as [|x l1 Hx _ IH]; [reflexivity|].
  rewrite <- !app_comm_cons, !join_cons by (destruct l1; discriminate).
  rewrite universal_newlines_app by exact Hx.
  cbn [append Py.LF Py.universal_newlines]. rewrite IH. reflexivity.
Qed.

Lemma split_join (l1 : list string) (z : string) :
  Forall (fun s => Py.contains Py.LF s = false) l1 ->
  Py.split (Py.join Py.LF (l1 ++ [z])) Py.LF = (l1 ++ Py.split z Py.LF)%list.
Proof.
  induction 1 as [|x l1 Hx _ IH]; [reflexivity|].
  rewrite <- !app_comm_cons, !join_cons by (destruct l1; discriminate).
  rewrite split_lf_app by exact Hx. rewrite IH. reflexivity.
Qed.


Lemma contains_join (p : string) (l1 l2 : list string) (x : string) :
  Py.contains p x = true ->
  Py.contains p (Py.join Py.LF (l1 ++ x :: l2)) = true.
Proof.
  intros Hx. induction l1 as [|y l1 IH].
  - destruct l2 as [|z l2]; [exact Hx|].
    rewrite app_nil_l, join_cons by discriminate.
    apply contains_app_l. exact Hx.
  - rewrite <- app_comm_cons, join_cons by (destruct l1; discriminate).
    apply contains_app_r, contains_app_r. exact IH.
Qed.

Lemma rstrip_by_snoc (f : ascii -> bool) (a : string) (c : ascii) :
  Py.rstrip_by f (a ++ String c EmptyString)
  = if f c then Py.rstrip_by f a else a ++ String c EmptyString.
Proof.
  induction a as [|y a IH].
  - simpl. destruct (f c); reflexivity.
  - change (String y a ++ String c EmptyString)
      with (String y (a ++ String c EmptyString)).
    cbn [Py.rstrip_by]. rewrite IH. destruct (f c); [reflexivity|].
    destruct a; reflexivity.
Qed.

Lemma nonempty_snoc (s : string) :
  s <> EmptyString -> exists s' c, s = s' ++ String c EmptyString.
Proof.
  induction s as [|y s IH]; intros H; [congruence|].
  destruct s as [|z s].
  - exists EmptyString, y. reflexivity.
  - destruct IH as (s' & c & E); [discriminate|].
    exists (String y s'), c. rewrite E. reflexivity.
Qed.

(** ** Paths and their text *)

Lemma segment_ok_clean (s : string) :
  segment_ok s = true -> s <> EmptyString /\ clean s = true.
Proof.
  unfold segment_ok. intros H. apply andb_true_iff in H. destruct H as [H1 H2].
  split; [|exact H2]. apply negb_true_iff, String.eqb_neq in H1. exact H1.
Qed.

Lemma clean_parts (s : string) :
  clean s = true ->
  Py.contains "/" s = false /\ Py.contains Py.LF s = false /\
  Py.contains CRs s = false /\ Py.contains "ROOT:" s = false /\
  Py.contains "HERE:" s = false.
Proof.
  unfold clean. intros H.
  repeat (apply andb_true_iff in H; destruct H as [H ?]).
  repeat split; apply negb_true_iff; assumption.
Qed.

Lemma sensitive_facts (p : string) :
  sensitive p ->
  p <> EmptyString /\ Py.occurs "/" p = false /\ Py.occurs " " p = false
  /\ Py.contains p EmptyString = false.
Proof.
  intros [-> | [-> | [-> | ->]]]; repeat split; try discriminate; reflexivity.
Qed.

Lemma clean_sensitive (p s : string) :
  sensitive p -> clean s = true -> Py.contains p s = false.
Proof.
  intros Hp Hs. apply clean_parts in Hs.
  destruct Hs as (_ & H1 & H2 & H3 & H4).
  destruct Hp as [-> | [-> | [-> | ->]]]; assumption.
Qed.

Lemma contains_join_slash (p : string) (segs : list string) :
  sensitive p -> Forall (fun s => clean s = true) segs ->
  Py.contains p (Py.join "/" segs) = false.
Proof.
  intros Hp. destruct (sensitive_facts p Hp) as (Hne & Hsl & _ & He).
  induction 1 as [|x l Hx Hl IH]; [exact He|].
  destruct l as [|y l]; [apply clean_sensitive; assumption|].
  rewrite join_cons by discriminate.
  change (x ++ "/" ++ Py.join "/" (y :: l))
    with (x ++ String "/" (Py.join "/" (y :: l))).
  rewrite contains_cut by assumption.
  rewrite IH, (clean_sensitive p x Hp Hx). reflexivity.
Qed.

Lemma contains_path_str (p : string) (segs : path) :
  sensitive p -> Forall (fun s => clean s = true) segs ->
  Py.contains p (path_str segs) = false.
Proof.
  intros Hp Hs. destruct (sensitive_facts p Hp) as (Hne & Hsl & _ & He).
  unfold path_str. change ("/" ++ Py.join "/" segs)
    with (EmptyString ++ String "/" (Py.join "/" segs)).
  rewrite contains_cut by assumption.
  rewrite He, contains_join_slash by assumption. reflexivity.
Qed.

Lemma contains_slashed (p : string) (segs : path) :
  sensitive p -> Forall (fun s => clean s = true) segs ->
  Py.contains p (slashed segs) = false.
Proof.
  intros Hp Hs. destruct (sensitive_facts p Hp) as (Hne & Hsl & Hsp & He).
  unfold slashed.
  change (" " ++ path_str segs ++ "/")
    with (EmptyString ++ String " " (path_str segs ++ String "/" EmptyString)).
  rewrite contains_cut by assumption.
  rewrite contains_cut by assumption.
  rewrite He, contains_path_str by assumption. reflexivity.
Qed.

(** A non-root path with well-formed segments ends in a character that is
    not a slash. *)
Lemma path_str_last (segs : path) :
  segs <> [] -> Forall (fun s => segment_ok s = true) segs ->
  exists x c, path_str segs = x ++ String c EmptyString /\ c <> "/"%char.
Proof.
  intros Hne Hs.
  destruct (exists_last Hne) as (l & s & ->).
  apply Forall_app in Hs. destruct Hs as [_ Hs]. inversion Hs as [|? ? Hok _]; subst.
  apply segment_ok_clean in Hok. destruct Hok as [Hn Hc].
  destruct (nonempty_snoc s Hn) as (s' & c & ->).
  destruct (join_snoc "/" (s' ++ String c EmptyString) l) as [x E].
  exists ("/" ++ x ++ s'), c. split.
  - unfold path_str. rewrite E, !append_assoc. reflexivity.
  - intros ->. apply clean_parts in Hc. destruct Hc as [Hc _].
    rewrite contains_app_r in Hc; [discriminate | reflexivity].
Qed.

(** The validator recovers the path from the value part of a generated
    line. *)
Lemma normalise_slashed {PF : Platform} (segs : path) :
  strip_keeps_paths ->
  segs <> [] -> Forall (fun s => segment_ok s = true) segs ->
  normalise (slashed segs) = path_str segs.
Proof.
  intros Hstrip Hne Hs. destruct (path_str_last segs Hne Hs) as (x & c & E & Hc).
  unfold normalise, slashed, path_str.
  change (" " ++ ("/" ++ Py.join "/" segs) ++ "/")
    with (" /" ++ Py.join "/" segs ++ "/").
  rewrite Hstrip.
  change ("/" ++ Py.join "/" segs ++ "/") with (path_str segs ++ "/").
  unfold Py.rstrip_slash.
  change (path_str segs ++ "/") with (path_str segs ++ String "/" EmptyString).
  rewrite rstrip_by_snoc. rewrite Ascii.eqb_refl.
  fold (path_str segs). rewrite E, rstrip_by_snoc.
  destruct (Ascii.eqb_spec c "/"); [contradiction | reflexivity].
Qed.

(** The conditions on the platform hold on the platform of the examples. *)
Lemma ascii_platform_serves (g : SignpostGenerator) (t : dir) :
  @platform_serves ascii_platform g t.
Proof.
  repeat split.
Qed.

Lemma ascii_strip_keeps_paths : @strip_keeps_paths ascii_platform.
Proof.
  intros s. cbn [str_strip ascii_platform]. unfold Py.strip.
  assert (Hl : Py.lstrip (" /" ++ s ++ "/") = "/" ++ s ++ "/") by reflexivity.
  rewrite Hl. unfold Py.rstrip.
  change ("/" ++ s ++ "/") with (("/" ++ s) ++ String "/" EmptyString).
  rewrite rstrip_by_snoc. reflexivity.
Qed.

(** ** The content check *)

Lemma find_first {A : Type} (f : A -> bool) (pre : list A) (x : A) (rest : list A) :
  Forall (fun y => f y = false) pre -> f x = true ->
  find f (pre ++ x :: rest) = Some x.
Proof.
  intros Hpre Hx. induction Hpre as [|y l Hy _ IH]; simpl.
  - rewrite Hx. reflexivity.
  - rewrite Hy. exact IH.
Qed.

Lemma plain_parts (l : string) :
  plain l = true ->
  Py.contains Py.LF l = false /\ Py.contains CRs l = false /\
  Py.startswith l "ROOT:" = false /\ Py.startswith l "HERE:" = false.
Proof.
  unfold plain. intros H.
  repeat (apply andb_true_iff in H; destruct H as [H ?]).
  repeat split; apply negb_true_iff; assumption.
Qed.

(** The content check on a signpost whose text is some plain lines, a
    [ROOT:] line, a [HERE:] line and a last part that starts with [ROLE:]:
    the issues are those of the two values. *)
Lemma content_check {PF : Platform} (root rel : path) (dirnames : list string)
  (fs : list (string * string)) (name : string)
  (pre : list string) (rv hv z : string) :
  find_file name fs
  = Some (Py.join Py.LF (pre ++ ["ROOT:" ++ rv; "HERE:" ++ hv; "ROLE:" ++ z])) ->
  Forall (fun l => plain l = true) pre ->
  Py.contains Py.LF rv = false -> Py.contains CRs rv = false ->
  Py.contains Py.LF hv = false -> Py.contains CRs hv = false ->
  Py.contains "ROOT:" rv = false -> Py.contains "HERE:" hv = false ->
  decode_error (Py.join Py.LF (pre ++ ["ROOT:" ++ rv; "HERE:" ++ hv; "ROLE:" ++ z]))
  = None ->
  _validate_signpost_content root rel dirnames fs name
  = (match value_issues root rel name rv hv with [] => true | _ => false end,
     value_issues root rel name rv hv).
Proof.
  intros Hfile Hpre Hrl Hrc Hhl Hhc Hrr Hhh Hdec.
  unfold _validate_signpost_content, read_text. rewrite Hfile, Hdec.
  set (RL := "ROOT:" ++ rv). set (HL := "HERE:" ++ hv). set (RO := "ROLE:" ++ z).
  assert (Hl1cr : Forall (fun s => Py.contains CRs s = false) (pre ++ [RL; HL])).
  { apply Forall_app. split.
    - eapply Forall_impl; [|exact Hpre]. intros l Hl. apply plain_parts in Hl. tauto.
    - repeat constructor.
      + unfold RL. destruct rv; [reflexivity|]. exact Hrc.
      + unfold HL. destruct hv; [reflexivity|]. exact Hhc. }
  assert (Hl1lf : Forall (fun s => Py.contains Py.LF s = false) (pre ++ [RL; HL])).
  { apply Forall_app. split.
    - eapply Forall_impl; [|exact Hpre]. intros l Hl. apply plain_parts in Hl. tauto.
    - repeat constructor.
      + unfold RL. destruct rv; [reflexivity|]. exact Hrl.
      + unfold HL. destruct hv; [reflexivity|]. exact Hhl. }
  replace (pre ++ [RL; HL; RO])%list with ((pre ++ [RL; HL]) ++ [RO])%list
    by (rewrite <- app_assoc; reflexivity).
  rewrite universal_newlines_join by exact Hl1cr.
  unfold RO. rewrite (universal_newlines_app "ROLE:" z) by reflexivity.
  set (Z := "ROLE:" ++ Py.universal_newlines z).
  rewrite split_join by exact Hl1lf.
  assert (Hc1 : Py.contains "ROOT:" (Py.join Py.LF ((pre ++ [RL; HL]) ++ [Z])) = true).
  { rewrite <- app_assoc. apply contains_join. apply contains_prefix, prefix_app. }
  assert (Hc2 : Py.contains "HERE:" (Py.join Py.LF ((pre ++ [RL; HL]) ++ [Z])) = true).
  { replace ((pre ++ [RL; HL]) ++ [Z])%list with ((pre ++ [RL]) ++ HL :: [Z])%list
      by (rewrite <- !app_assoc; reflexivity).
    apply contains_join. apply contains_prefix, prefix_app. }
  assert (Hc3 : Py.contains "ROLE:" (Py.join Py.LF ((pre ++ [RL; HL]) ++ [Z])) = true).
  { apply contains_join. apply contains_prefix, prefix_app. }
  cbn [fold_left]. rewrite Hc1, Hc2, Hc3. cbn [negb].
  unfold Py.next_such.
  replace ((pre ++ [RL; HL]) ++ Py.split Z Py.LF)%list
    with (pre ++ RL :: HL :: Py.split Z Py.LF)%list
    by (rewrite <- app_assoc; reflexivity).
  rewrite (find_first (fun l => Py.startswith l "ROOT:") pre RL); cycle 1.
  { eapply Forall_impl; [|exact Hpre]. intros l Hl. apply plain_parts in Hl. tauto. }
  { apply prefix_app. }
  replace (pre ++ RL :: HL :: Py.split Z Py.LF)%list
    with ((pre ++ [RL]) ++ HL :: Py.split Z Py.LF)%list
    by (rewrite <- !app_assoc; reflexivity).
  rewrite (find_first (fun l => Py.startswith l "HERE:") (pre ++ [RL]) HL); cycle 1.
  { apply Forall_app. split.
    - eapply Forall_impl; [|exact Hpre]. intros l Hl. apply plain_parts in Hl. tauto.
    - repeat constructor. }
  { apply prefix_app. }
  unfold field_value, RL, HL.
  rewrite !split_label by (assumption || discriminate).
  unfold value_issues, normalise, incorrect_issue, Py.append.
  destruct (String.eqb _ (path_str root)),
    (String.eqb _ (path_str (root ++ rel)%list));
    reflexivity.
Qed.

(** ** The walk *)

Lemma walk_eq {S : Type} (keep : string -> bool)
  (body : path -> list string -> list (string * string) -> S ->
          exn + (list (string * string) * S))
  (rel : path) (fs : list (string * string)) (sds : list (string * dir)) (s : S) :
  walk keep body rel (MkDir fs sds) s
  = match body rel (map fst sds) fs s with
    | inl e => inl e
    | inr (fs', s1) =>
        match walk_subdirs keep (walk keep body) rel sds s1 with
        | inl e => inl e
        | inr (sds', s2) => inr (MkDir fs' sds', s2)
        end
    end.
Proof. reflexivity. Qed.

(** A body that only reads the directory and appends to a list sees exactly
    what [os_walk] yields, in that order. *)
Section Reader.
Context {A : Type}.
Variable keep : string -> bool.
Variable body :
  path -> list string -> list (string * string) -> list A ->
  exn + (list (string * string) * list A).
Variable out : path * list string * list (string * string) -> list A.
Hypothesis body_appends :
  forall rel dirnames fs s,
    body rel dirnames fs s = inr (fs, (s ++ out (rel, dirnames, fs))%list).

Lemma walk_subdirs_reader (rel : path) (sds : list (string * dir)) :
  Forall (fun x => forall rel s,
              walk keep body rel (snd x) s
              = inr (snd x, (s ++ flat_map out (os_walk keep rel (snd x)))%list)) sds ->
  forall s,
    walk_subdirs keep (walk keep body) rel sds s
    = inr (sds,
           (s ++ flat_map out
                   (flat_map (fun x => if keep (fst x)
                                       then os_walk keep (rel ++ [fst x]) (snd x)
                                       else []) sds))%list).
Proof.
  induction 1 as [|[n sd] l Hx _ IH]; intros s; cbn [walk_subdirs flat_map].
  - rewrite app_nil_r. reflexivity.
  - cbn [fst snd] in *. destruct (keep n).
    + rewrite Hx, IH, flat_map_app, app_assoc. reflexivity.
    + rewrite IH. reflexivity.
Qed.

Lemma walk_reader (d : dir) :
  forall rel s,
    walk keep body rel d s
    = inr (d, (s ++ flat_map out (os_walk keep rel d))%list).
Proof.
  induction d as [fs sds IH] using dir_tree_ind. intros rel s.
  rewrite walk_eq, body_appends.
  rewrite (walk_subdirs_reader rel sds IH).
  cbn [os_walk flat_map]. rewrite <- app_assoc. reflexivity.
Qed.
End Reader.

(** ** The validator as a function of the walk *)

Lemma content_valid_iff {PF : Platform} (root rel : path) (dirnames : list string)
  (fs : list (string * string)) (name : string) :
  fst (_validate_signpost_content root rel dirnames fs name)
  = match snd (_validate_signpost_content root rel dirnames fs name) with
    | [] => true
    | _ => false
    end.
Proof.
  unfold _validate_signpost_content.
  destruct (read_text _ dirnames fs name); reflexivity.
Qed.

Lemma validate_body_spec {PF : Platform} (root rel : path) (dirnames : list string)
  (fs : list (string * string)) (issues : list string) :
  validate_body root rel dirnames fs issues
  = inr (fs, (issues ++ body_issues root (rel, dirnames, fs))%list).
Proof.
  unfold validate_body, body_issues, dir_issues. cbn [fst].
  destruct rel as [|r rel]; [rewrite app_nil_r; reflexivity|].
  destruct (filter is_signpost (map fst fs)) as [|first others]; [reflexivity|].
  pose proof (content_valid_iff root (r :: rel) dirnames fs first) as Hv.
  destruct (_validate_signpost_content root (r :: rel) dirnames fs first)
    as [valid ci].
  cbn [fst snd] in *. unfold Py.extend, Py.append.
  destruct others; destruct ci; subst valid; cbn [negb];
    rewrite ?app_nil_r, <- ?app_assoc; reflexivity.
Qed.

(** Every directory the walk yields lies below its top, along kept names. *)
Lemma os_walk_paths (keep : string -> bool) (d : dir) :
  forall rel x,
    In x (os_walk keep rel d) ->
    exists q, fst (fst x) = (rel ++ q)%list /\ forallb keep q = true.
Proof.
  induction d as [fs sds IH] using dir_tree_ind. intros rel x Hx.
  cbn [os_walk] in Hx. destruct Hx as [<-|Hx].
  - exists []. rewrite app_nil_r. split; reflexivity.
  - apply in_flat_map in Hx. destruct Hx as ([n sd] & Hin & Hx).
    cbn [fst snd] in Hx. destruct (keep n) eqn:Hn; [|contradiction].
    rewrite Forall_forall in IH. specialize (IH _ Hin (rel ++ [n])%list x Hx).
    destruct IH as (q & E & Hq). exists (n :: q). split.
    + rewrite E, <- app_assoc. reflexivity.
    + cbn [forallb]. rewrite Hn. exact Hq.
Qed.

Lemma flat_map_none {A B : Type} (l : list A) :
  flat_map (fun _ => @nil B) l = [].
Proof. induction l as [|a l IH]; [reflexivity | exact IH]. Qed.

Lemma flat_map_ext_in {A B : Type} (f g : A -> list B) (l : list A) :
  (forall x, In x l -> f x = g x) -> flat_map f l = flat_map g l.
Proof.
  induction l as [|a l IH]; intros H; [reflexivity|].
  cbn [flat_map]. rewrite (H a (or_introl eq_refl)), IH; [reflexivity|].
  intros x Hx. apply H. right. exact Hx.
Qed.

Lemma tracked_nonroot (t : dir) (x : path * list string * list (string * string)) :
  In x (tracked t) -> fst (fst x) <> [].
Proof.
  unfold tracked. destruct t as [fs sds]. cbn [os_walk tl]. intros Hx.
  apply in_flat_map in Hx. destruct Hx as ([n sd] & _ & Hx).
  cbn [fst snd] in Hx. destruct (kept n); [|contradiction].
  apply os_walk_paths in Hx. destruct Hx as (q & E & _).
  rewrite E. intros H. apply app_eq_nil in H. destruct H; discriminate.
Qed.

Lemma body_issues_walk {PF : Platform} (root : path) (t : dir) :
  flat_map (body_issues root) (os_walk kept [] t)
  = flat_map (dir_issues root) (tracked t).
Proof.
  assert (H : os_walk kept [] t
              = ([], map fst (subdirs t), files t) :: tracked t)
    by (destruct t; reflexivity).
  rewrite H. cbn [flat_map]. unfold body_issues at 1. cbn [fst app].
  apply flat_map_ext_in. intros x Hx. apply tracked_nonroot in Hx.
  unfold body_issues. destruct (fst (fst x)); [congruence | reflexivity].
Qed.

Lemma validate_run_spec {PF : Platform} (root : path) (t : dir) :
  validate_signposts_run root t
  = if negb (Py.mem "_CARDINAL_ROOT.txt" (map fst (files t))
             || Py.mem "_CARDINAL_ROOT.txt" (map fst (subdirs t)))
    then (false,
          ["Missing root signpost: "
           ++ path_str (root ++ ["_CARDINAL_ROOT.txt"])%list])
    else
      let issues :=
        (snd (_validate_signpost_content root [] (map fst (subdirs t)) (files t)
                "_CARDINAL_ROOT.txt")
         ++ flat_map (dir_issues root) (tracked t))%list in
      (match issues with [] => true | _ => false end, issues).
Proof.
  unfold validate_signposts_run.
  destruct (negb _); [reflexivity|].
  pose proof (content_valid_iff root [] (map fst (subdirs t)) (files t)
                "_CARDINAL_ROOT.txt") as Hv.
  destruct (_validate_signpost_content root [] (map fst (subdirs t)) (files t)
              "_CARDINAL_ROOT.txt") as [valid ci].
  cbn [fst snd] in *.
  rewrite (walk_reader kept (validate_body root) (body_issues root)
             (validate_body_spec root)).
  rewrite body_issues_walk. unfold Py.extend.
  generalize (flat_map (dir_issues root) (tracked t)) as rest. intros rest.
  destruct ci; subst valid; cbn [negb app]; [destruct rest|]; reflexivity.
Qed.

(** ** The walk of [create_signposts] *)

Lemma markers_app {PF : Platform} (root : path) (md : Z)
  (a b : list (path * list string * list (string * string))) :
  markers root md (a ++ b) = (markers root md a ++ markers root md b)%list.
Proof. unfold markers. rewrite filter_app, map_app. reflexivity. Qed.

Lemma markers_cons {PF : Platform} (root : path) (md : Z)
  (x : path * list string * list (string * string))
  (l : list (path * list string * list (string * string))) :
  markers root md (x :: l)
  = ((if within_depth md (fst (fst x)) then [marker_path root (fst (fst x))] else [])
     ++ markers root md l)%list.
Proof.
  unfold markers. cbn [filter].
  destruct (within_depth md (fst (fst x))); reflexivity.
Qed.

Lemma create_body_spec {PF : Platform} (g : SignpostGenerator) (md : Z) (rel : path)
  (dirnames : list string) (fs : list (string * string)) (created : list path) :
  create_body g md rel dirnames fs created
  = if within_depth md rel
    then if Py.mem (signpost_filename rel) dirnames
         then inl (IsADirectoryError
                     (path_str ((root_path g ++ rel) ++ [signpost_filename rel])%list))
         else
           match write_error ((root_path g ++ rel) ++ [signpost_filename rel])%list
                   (directory_text g rel) with
           | Some e => inl e
           | None =>
               inr (store_file (signpost_filename rel) (directory_text g rel) fs,
                    (created ++ [marker_path (root_path g) rel])%list)
           end
    else inr (fs, created).
Proof.
  unfold create_body, within_depth.
  destruct ((List.length rel =? 0)%nat || (Z.of_nat (List.length rel) >? md)%Z);
    [reflexivity|].
  cbn [negb]. unfold _create_directory_signpost, write_text.
  destruct (Py.mem (signpost_filename rel) dirnames); [reflexivity|].
  fold (directory_text g rel).
  destruct (write_error _ (directory_text g rel)); [reflexivity|].
  unfold Py.append, marker_path. rewrite <- app_assoc. reflexivity.
Qed.

Section CreateWalk.
Context {PF : Platform}.
Variable g : SignpostGenerator.
Variable md : Z.

Lemma create_walk_subdirs (rel : path) (sds : list (string * dir)) :
  Forall (fun x => forall rel created,
              create_walk_outcome g md rel (snd x) created
                (walk kept (create_body g md) rel (snd x) created)) sds ->
  forall created,
    match walk_subdirs kept (walk kept (create_body g md)) rel sds created with
    | inr (sds', created') =>
        forallb (fun x => if kept (fst x)
                          then writable g md (rel ++ [fst x]) (snd x) else true) sds
        = true
        /\ sds' = map (fun x => if kept (fst x)
                                then (fst x, signposted g md (rel ++ [fst x]) (snd x))
                                else x) sds
        /\ created'
           = (created
              ++ markers (root_path g) md
                   (flat_map (fun x => if kept (fst x)
                                       then os_walk kept (rel ++ [fst x]) (snd x)
                                       else []) sds))%list
    | inl _ =>
        forallb (fun x => if kept (fst x)
                          then writable g md (rel ++ [fst x]) (snd x) else true) sds
        = false
    end.
Proof.
  induction 1 as [|[n sd] l Hx _ IH]; intros created;
    cbn [walk_subdirs forallb map flat_map fst snd].
  - rewrite app_nil_r. auto.
  - cbn [snd] in Hx. destruct (kept n).
    + specialize (Hx (rel ++ [n])%list created).
      destruct (walk kept (create_body g md) (rel ++ [n]) sd created)
        as [e|[sd' c1]]; cbn [create_walk_outcome] in Hx.
      * rewrite Hx. reflexivity.
      * destruct Hx as (Hw & -> & ->). rewrite Hw. cbn [andb].
        specialize (IH (created ++ markers (root_path g) md
                                     (os_walk kept (rel ++ [n]) sd))%list).
        destruct (walk_subdirs kept (walk kept (create_body g md)) rel l _)
          as [e|[l' c2]]; [exact IH|].
        destruct IH as (Hl & -> & ->). repeat split; [exact Hl|].
        rewrite markers_app, app_assoc. reflexivity.
    + specialize (IH created).
      destruct (walk_subdirs kept (walk kept (create_body g md)) rel l created)
        as [e|[l' c2]]; [exact IH|].
      destruct IH as (Hl & -> & ->). cbn [andb]. repeat split; exact Hl.
Qed.

Lemma create_walk_spec (d : dir) :
  forall rel created,
    create_walk_outcome g md rel d created
      (walk kept (create_body g md) rel d created).
Proof.
  induction d as [fs sds IH] using dir_tree_ind. intros rel created.
  rewrite walk_eq, create_body_spec.
  unfold create_walk_outcome.
  cbn [writable signposted os_walk]. rewrite markers_cons. cbn [fst].
  destruct (within_depth md rel) eqn:Hd; cbn [negb orb].
  - unfold signpost_writable, accepted.
    destruct (Py.mem (signpost_filename rel) (map fst sds)) eqn:Hm;
      cbn [negb andb]; [reflexivity|].
    destruct (write_error _ (directory_text g rel)) eqn:Hwe;
      cbn [negb andb]; [reflexivity|].
    pose proof (create_walk_subdirs rel sds IH
                  (created ++ [marker_path (root_path g) rel])%list) as Hs.
    destruct (walk_subdirs kept (walk kept (create_body g md)) rel sds _)
      as [e|[sds' c2]]; [exact Hs|].
    destruct Hs as (Hw & -> & ->). repeat split; [exact Hw|].
    rewrite <- app_assoc. reflexivity.
  - pose proof (create_walk_subdirs rel sds IH created) as Hs.
    destruct (walk_subdirs kept (walk kept (create_body g md)) rel sds created)
      as [e|[sds' c2]]; [exact Hs|].
    destruct Hs as (Hw & -> & ->). repeat split; exact Hw.
Qed.
End CreateWalk.

(** ** Files and look-up *)

Lemma find_store_same (n c : string) (fs : list (string * string)) :
  find_file n (store_file n c fs) = Some c.
Proof.
  induction fs as [|[m x] fs IH]; cbn [store_file find_file].
  - rewrite String.eqb_refl. reflexivity.
  - destruct (String.eqb n m) eqn:E; cbn [find_file]; rewrite E; [reflexivity | exact IH].
Qed.

Lemma find_store_other (n m c : string) (fs : list (string * string)) :
  m <> n -> find_file m (store_file n c fs) = find_file m fs.
Proof.
  intros Hmn. induction fs as [|[k x] fs IH]; cbn [store_file find_file].
  - apply String.eqb_neq in Hmn. rewrite Hmn. reflexivity.
  - destruct (String.eqb n k) eqn:E; cbn [find_file].
    + apply String.eqb_eq in E. subst k.
      apply String.eqb_neq in Hmn. rewrite Hmn. reflexivity.
    + rewrite IH. reflexivity.
Qed.


(** Storing a file under a name the listing does not hold adds it at the
    end. *)
Lemma store_new (n c : string) (fs : list (string * string)) :
  Py.mem n (map fst fs) = false -> store_file n c fs = (fs ++ [(n, c)])%list.
Proof.
  unfold Py.mem. induction fs as [|[m x] fs IH]; cbn [map existsb fst store_file];
    intros H; [reflexivity|].
  apply orb_false_elim in H. destruct H as [E H]. rewrite E, (IH H). reflexivity.
Qed.

Lemma find_sub_map (G : string -> dir -> dir) (n : string) (sds : list (string * dir)) :
  find_sub n (map (fun x => if kept (fst x) then (fst x, G (fst x) (snd x)) else x) sds)
  = match find_sub n sds with
    | Some sd => Some (if kept n then G n sd else sd)
    | None => None
    end.
Proof.
  induction sds as [|[m sd] l IH]; [reflexivity|].
  cbn [map fst snd]. destruct (kept m) eqn:Hk; cbn [find_sub];
    destruct (String.eqb n m) eqn:E; try exact IH;
    apply String.eqb_eq in E; subst m; rewrite Hk; reflexivity.
Qed.

Lemma find_sub_In (n : string) (sds : list (string * dir)) (sd : dir) :
  find_sub n sds = Some sd -> In (n, sd) sds.
Proof.
  induction sds as [|[m x] l IH]; cbn [find_sub]; [discriminate|].
  destruct (String.eqb n m) eqn:E.
  - apply String.eqb_eq in E. intros [= ->]. left. congruence.
  - intros H. right. exact (IH H).
Qed.

Lemma map_fst_kept (G : string -> dir -> dir) (sds : list (string * dir)) :
  map fst (map (fun x => if kept (fst x) then (fst x, G (fst x) (snd x)) else x) sds)
  = map fst sds.
Proof.
  rewrite map_map. apply map_ext. intros [n sd]. cbn [fst snd].
  destruct (kept n); reflexivity.
Qed.


Lemma flat_map_map_ext {A B C : Type} (f : B -> list C) (h : A -> B)
  (k : A -> list C) (l : list A) :
  Forall (fun x => f (h x) = k x) l -> flat_map f (map h l) = flat_map k l.
Proof.
  induction 1 as [|x l Hx _ IH]; [reflexivity|].
  cbn [map flat_map]. rewrite Hx, IH. reflexivity.
Qed.

(** ** The signposted tree *)

Section Signposted.
Context {PF : Platform}.
Variable g : SignpostGenerator.
Variable md : Z.

Lemma signposted_subdirs (rel : path) (d : dir) :
  map fst (subdirs (signposted g md rel d)) = map fst (subdirs d).
Proof.
  destruct d as [fs sds]. cbn [signposted subdirs].
  apply (map_fst_kept (fun n sd => signposted g md (rel ++ [n]) sd)).
Qed.

Lemma signposted_lookup (q : path) :
  forall rel d sd,
    lookup_dir d q = Some sd -> forallb kept q = true ->
    lookup_dir (signposted g md rel d) q = Some (signposted g md (rel ++ q) sd).
Proof.
  induction q as [|n q IH]; intros rel d sd Hl Hk.
  - cbn in Hl |- *. injection Hl as <-. rewrite app_nil_r. reflexivity.
  - cbn [forallb] in Hk. apply andb_true_iff in Hk. destruct Hk as [Hn Hq].
    destruct d as [fs sds]. cbn [lookup_dir subdirs signposted] in Hl |- *.
    rewrite (find_sub_map (fun n sd => signposted g md (rel ++ [n]) sd)).
    destruct (find_sub n sds) as [sd1|]; [|discriminate].
    rewrite Hn. rewrite (IH (rel ++ [n])%list sd1 sd Hl Hq).
    rewrite <- app_assoc. reflexivity.
Qed.

(** An excluded directory, and everything below it, is as it was. *)
Lemma signposted_lookup_excluded (q : path) :
  forall rel d,
    existsb excluded q = true ->
    lookup_dir (signposted g md rel d) q = lookup_dir d q.
Proof.
  induction q as [|n q IH]; intros rel d Hx; [discriminate|].
  destruct d as [fs sds]. cbn [lookup_dir subdirs signposted].
  rewrite (find_sub_map (fun n sd => signposted g md (rel ++ [n]) sd)).
  destruct (find_sub n sds) as [sd1|]; [|reflexivity].
  unfold kept in *. cbn [existsb] in Hx.
  destruct (excluded n); cbn [negb orb] in *; [reflexivity|].
  apply IH. exact Hx.
Qed.

Lemma signposted_file (q : path) (rel : path) (d sd : dir) :
  lookup_dir d q = Some sd -> forallb kept q = true ->
  within_depth md (rel ++ q) = true ->
  file_at (signposted g md rel d) q (signpost_filename (rel ++ q))
  = Some (directory_text g (rel ++ q)).
Proof.
  intros Hl Hk Hd. unfold file_at.
  rewrite (signposted_lookup q rel d sd Hl Hk).
  destruct sd as [fs sds]. cbn [signposted files]. rewrite Hd.
  apply find_store_same.
Qed.



Lemma os_walk_signposted_paths (d : dir) :
  forall rel,
    map (fun x => fst (fst x)) (os_walk kept rel (signposted g md rel d))
    = map (fun x => fst (fst x)) (os_walk kept rel d).
Proof.
  induction d as [fs sds IH] using dir_tree_ind. intros rel.
  cbn [signposted os_walk map fst]. f_equal.
  rewrite !flat_map_concat_map, !concat_map, !map_map. f_equal.
  apply map_ext_Forall.
  eapply Forall_impl; [|exact IH]. intros [n sd] H. cbn [fst snd] in *.
  destruct (kept n) eqn:Hn; cbn [fst snd]; rewrite Hn; [apply H | reflexivity].
Qed.
End Signposted.

(** ** [create_signposts] as a whole *)

Lemma create_signposts_spec {PF : Platform} (g : SignpostGenerator) (md : Z) (t : dir) :
  match create_signposts g md t with
  | inr (t', created) =>
      creatable g md t = true
      /\ t' = signposted g md [] (root_written g t)
      /\ created = (root_path g ++ ["_CARDINAL_ROOT.txt"])%list
                   :: markers (root_path g) md (tracked t)
  | inl _ => creatable g md t = false
  end.
Proof.
  unfold create_signposts, _create_root_signpost, write_text, creatable, accepted.
  destruct (Py.mem "_CARDINAL_ROOT.txt" (map fst (subdirs t))); [reflexivity|].
  destruct (write_error _ (_generate_root_content g t)); [reflexivity|].
  cbn [negb andb].
  fold (root_written g t).
  pose proof (create_walk_spec g md (root_written g t) []
                [(root_path g ++ ["_CARDINAL_ROOT.txt"])%list]) as H.
  destruct (walk kept (create_body g md) [] (root_written g t) _) as [e|[t' c]];
    unfold create_walk_outcome in H; destruct t as [fs sds];
    cbn [root_written files subdirs] in *.
  - rewrite <- H. reflexivity.
  - destruct H as (Hw & -> & ->).
    split; [rewrite <- Hw; reflexivity|]. split; [reflexivity|].
    unfold root_written, tracked. cbn [os_walk subdirs tl].
    rewrite markers_cons. reflexivity.
Qed.

Lemma os_walk_lookup (keep : string -> bool) (q : path) :
  forall rel d sd,
    lookup_dir d q = Some sd -> forallb keep q = true ->
    In ((rel ++ q)%list, map fst (subdirs sd), files sd) (os_walk keep rel d).
Proof.
  induction q as [|n q IH]; intros rel d sd Hl Hk.
  - cbn in Hl. injection Hl as <-. rewrite app_nil_r.
    destruct d; left; reflexivity.
  - cbn [forallb] in Hk. apply andb_true_iff in Hk. destruct Hk as [Hn Hq].
    destruct d as [fs sds]. cbn [lookup_dir subdirs] in Hl.
    destruct (find_sub n sds) as [sd1|] eqn:Hf; [|discriminate].
    cbn [os_walk]. right. apply in_flat_map. exists (n, sd1). split.
    + apply find_sub_In. exact Hf.
    + cbn [fst snd]. rewrite Hn.
      replace (rel ++ n :: q)%list with ((rel ++ [n]) ++ q)%list
        by (rewrite <- app_assoc; reflexivity).
      apply IH; assumption.
Qed.

Lemma tracked_lookup (t : dir) (q : path) (sd : dir) :
  q <> [] -> lookup_dir t q = Some sd -> forallb kept q = true ->
  In (q, map fst (subdirs sd), files sd) (tracked t).
Proof.
  intros Hq Hl Hk. pose proof (os_walk_lookup kept q [] t sd Hl Hk) as H.
  unfold tracked. destruct t as [fs sds]. cbn [os_walk tl] in *.
  destruct H as [H|H]; [|exact H].
  injection H as H _ _. congruence.
Qed.

Lemma markers_In {PF : Platform} (root : path) (md : Z)
  (l : list (path * list string * list (string * string))) (c : path) :
  In c (markers root md l)
  <-> exists x, In x l /\ within_depth md (fst (fst x)) = true
                /\ c = marker_path root (fst (fst x)).
Proof.
  unfold markers. rewrite in_map_iff. split.
  - intros (x & <- & Hx). apply filter_In in Hx. destruct Hx as [Hx Hd].
    exists x. auto.
  - intros (x & Hx & Hd & ->). exists x. split; [reflexivity|].
    apply filter_In. auto.
Qed.

Lemma within_depth_iff (md : Z) (rel : path) :
  within_depth md rel = true <-> rel <> [] /\ (Z.of_nat (List.length rel) <= md)%Z.
Proof.
  unfold within_depth. rewrite negb_true_iff, orb_false_iff.
  rewrite Nat.eqb_neq, Z.gtb_ltb, Z.ltb_ge. split.
  - intros [H1 H2]. split; [|exact H2]. intros ->. apply H1. reflexivity.
  - intros [H1 H2]. split; [|exact H2]. destruct rel; [congruence | discriminate].
Qed.

(** ** Construction of the generator *)

(** C9.  Constructing the generator on a root path that does not exist
    fails at once with the configuration error (in the code, [ValueError]
    with the message [Path does not exist: ...]) and leaves the file system
    as it was: nothing is created or deleted.  On an existing root path the
    construction succeeds, again without touching the file system. *)
Theorem init_requires_root (fs : dir) (root : path) (fmt : string)
  (rules tree : bool) (custom : option (list (string * string))) :
  (path_exists fs root = false ->
   exists e,
     SignpostGenerator_init fs root fmt rules tree custom = (inl e, fs)
     /\ kind_of e = ConfigurationError
     /\ e = ValueError ("Path does not exist: " ++ path_str root))
  /\ (path_exists fs root = true ->
      exists self,
        SignpostGenerator_init fs root fmt rules tree custom = (inr self, fs)
        /\ root_path self = root).
Proof.
  unfold SignpostGenerator_init. split; intros H; rewrite H; cbn [negb].
  - eexists. repeat split.
  - eexists. split; reflexivity.
Qed.

Lemma init_requires_root_witness :
  let fs := MkDir [] [("proj", empty_dir)] in
  (exists e,
      SignpostGenerator_init fs ["missing"] "txt" true false None = (inl e, fs)
      /\ kind_of e = ConfigurationError
      /\ e = ValueError "Path does not exist: /missing")
  /\ exists self,
       SignpostGenerator_init fs ["proj"] "txt" true false None = (inr self, fs)
       /\ root_path self = ["proj"].
Proof.
  intros fs. split.
  - apply (proj1 (init_requires_root fs ["missing"] "txt" true false None)).
    reflexivity.
  - apply (proj2 (init_requires_root fs ["proj"] "txt" true false None)).
    reflexivity.
Defined.

(** ** Role inference and file names *)

Lemma root_written_lookup (g : SignpostGenerator) (t : dir) (q : path) :
  q <> [] -> lookup_dir (root_written g t) q = lookup_dir t q.
Proof. destruct q; [congruence | reflexivity]. Qed.

(** The signpost of a tracked directory within the depth limit, after
    [create_signposts]. *)
Lemma created_signpost {PF : Platform} (g : SignpostGenerator) (md : Z) (t t' : dir)
  (created : list path) (rel : path) (d : dir) :
  create_signposts g md t = inr (t', created) ->
  lookup_dir t rel = Some d -> forallb kept rel = true ->
  within_depth md rel = true ->
  file_at t' rel (signpost_filename rel) = Some (directory_text g rel)
  /\ In (marker_path (root_path g) rel) created.
Proof.
  intros Hc Hl Hk Hd. pose proof (create_signposts_spec g md t) as H.
  rewrite Hc in H. destruct H as (_ & -> & ->).
  assert (Hne : rel <> []) by (apply within_depth_iff in Hd; tauto).
  split.
  - apply (signposted_file g md rel [] (root_written g t) d); try assumption.
    rewrite root_written_lookup; assumption.
  - right. apply markers_In.
    exists (rel, map fst (subdirs d), files d). repeat split; [|exact Hd].
    apply tracked_lookup; assumption.
Qed.

Lemma role_of_models (root : path) :
  _infer_directory_role (root ++ ["src"; "models"]) = "Data models".
Proof.
  unfold _infer_directory_role, path_name.
  replace (root ++ ["src"; "models"])%list with ((root ++ ["src"]) ++ ["models"])%list
    by (rewrite <- app_assoc; reflexivity).
  rewrite last_last. reflexivity.
Qed.

(** C2, as the code has it.  For a tree that contains [src/models],
    [create_signposts] with a depth limit of at least 2 writes
    [src/models/_CARDINAL_SRC_MODELS.txt], and its ROLE line is
    [ROLE: Data models]: the role table has an entry for [models], so the
    capitalised-name fallback is not taken. *)
Theorem models_signpost (g : SignpostGenerator) (md : Z) (t t' : dir)
  (created : list path) (d : dir) :
  lookup_dir t ["src"; "models"] = Some d -> (2 <= md)%Z ->
  create_signposts g md t = inr (t', created) ->
  file_at t' ["src"; "models"] "_CARDINAL_SRC_MODELS.txt"
  = Some (Py.join Py.LF
            [ "ROOT: " ++ path_str (root_path g) ++ "/";
              "HERE: " ++ path_str (root_path g ++ ["src"; "models"]) ++ "/";
              "ROLE: Data models" ])
  /\ Py.dict_get role_map "models" "Models directory" = "Data models"
  /\ In (root_path g ++ ["src"; "models"; "_CARDINAL_SRC_MODELS.txt"])%list created.
Proof.
  intros Hl Hmd Hc.
  destruct (created_signpost g md t t' created ["src"; "models"] d Hc Hl)
    as [Hf Hin]; [reflexivity | apply within_depth_iff; split; [discriminate|exact Hmd] |].
  split; [|split; [reflexivity | exact Hin]].
  rewrite <- (role_of_models (root_path g)). exact Hf.
Qed.

Lemma models_signpost_witness :
  exists t' created,
    create_signposts (default_generator ["tmp"; "test_project"]) 10 temp_project
    = inr (t', created)
    /\ file_at t' ["src"; "models"] "_CARDINAL_SRC_MODELS.txt"
       = Some (Py.join Py.LF
                 [ "ROOT: /tmp/test_project/";
                   "HERE: /tmp/test_project/src/models/";
                   "ROLE: Data models" ]).
Proof.
  eexists. eexists. split; [vm_compute; reflexivity|].
  refine (proj1 (models_signpost (default_generator ["tmp"; "test_project"]) 10
                   temp_project _ _ empty_dir _ _ _));
    [reflexivity | lia | vm_compute; reflexivity].
Defined.

(** C2, as the specification words it, fails on the scenario tree: the ROLE
    line of [src/models/_CARDINAL_SRC_MODELS.txt] is not
    [ROLE: Models directory]. *)
Lemma models_role_is_not_fallback :
  exists t' created content,
    create_signposts (default_generator ["tmp"; "test_project"]) 10 temp_project
    = inr (t', created)
    /\ file_at t' ["src"; "models"] "_CARDINAL_SRC_MODELS.txt" = Some content
    /\ Py.next_such (fun l => Py.startswith l "ROLE:") (Py.split content Py.LF)
       = Some "ROLE: Data models"
    /\ ~ In "ROLE: Models directory" (Py.split content Py.LF).
Proof.
  eexists. eexists. eexists.
  split; [vm_compute; reflexivity|].
  split; [vm_compute; reflexivity|].
  split; [vm_compute; reflexivity|].
  vm_compute. intros [H|[H|[H|[]]]]; discriminate.
Qed.

Lemma root_signpost_text {PF : Platform} (g : SignpostGenerator) (md : Z) (t : dir) :
  file_at (signposted g md [] (root_written g t)) [] "_CARDINAL_ROOT.txt"
  = Some (_generate_root_content g t).
Proof.
  unfold file_at, root_written. cbn [lookup_dir signposted files].
  apply find_store_same.
Qed.

(** C4.  Every path [create_signposts] returns after the first is, for some
    non-empty relative path [p1/.../pn], the directory followed by
    [_CARDINAL_], the upper-cased segments joined with [_], and [.txt]; the
    first is the root signpost, with the fixed name [_CARDINAL_ROOT.txt];
    and every directory the walk tracks within the depth limit has its
    signpost, under that derived name, in the returned list and on disk.
    The upper-casing is the platform's [str_upper], whatever it does
    outside ASCII. *)
Theorem signpost_filenames {PF : Platform} (g : SignpostGenerator) (md : Z) (t t' : dir)
  (created : list path) :
  create_signposts g md t = inr (t', created) ->
  (exists below,
      created = (root_path g ++ ["_CARDINAL_ROOT.txt"])%list :: below
      /\ Forall (fun c =>
                   exists rel,
                     rel <> []
                     /\ c = (root_path g ++ rel
                             ++ [("_CARDINAL_" ++ Py.join "_" (map str_upper rel)
                                  ++ ".txt")%string])%list) below)
  /\ file_at t' [] "_CARDINAL_ROOT.txt" = Some (_generate_root_content g t)
  /\ (forall rel d,
         lookup_dir t rel = Some d -> rel <> [] -> forallb kept rel = true ->
         (Z.of_nat (List.length rel) <= md)%Z ->
         In (root_path g ++ rel
             ++ [("_CARDINAL_" ++ Py.join "_" (map str_upper rel) ++ ".txt")%string])%list
            created
         /\ file_at t' rel ("_CARDINAL_" ++ Py.join "_" (map str_upper rel) ++ ".txt")
            = Some (directory_text g rel)).
Proof.
  intros Hc. pose proof (create_signposts_spec g md t) as H.
  rewrite Hc in H. destruct H as (_ & Ht & Hcr). split; [|split].
  - eexists. split; [exact Hcr|]. apply Forall_forall. intros c Hin.
    apply markers_In in Hin. destruct Hin as (x & Hx & Hd & ->).
    exists (fst (fst x)). split; [|reflexivity].
    apply within_depth_iff in Hd. tauto.
  - rewrite Ht. apply root_signpost_text.
  - intros rel d Hl Hne Hk Hmd.
    destruct (created_signpost g md t t' created rel d Hc Hl Hk) as [Hf Hin].
    + apply within_depth_iff. tauto.
    + split; [exact Hin | exact Hf].
Qed.

Lemma signpost_filenames_witness :
  exists t' created,
    create_signposts (default_generator ["tmp"; "test_project"]) 10 temp_project
    = inr (t', created)
    /\ In ["tmp"; "test_project"; "src"; "models"; "_CARDINAL_SRC_MODELS.txt"] created
    /\ hd_error created = Some ["tmp"; "test_project"; "_CARDINAL_ROOT.txt"].
Proof.
  eexists. eexists. split; [vm_compute; reflexivity|].
  match goal with
  | |- In _ ?c /\ _ =>
      pose proof (signpost_filenames (PF := ascii_platform)
                    (default_generator ["tmp"; "test_project"]) 10
                    temp_project _ c ltac:(vm_compute; reflexivity)) as H
  end.
  destruct H as (_ & _ & H).
  split; [|reflexivity].
  exact (proj1 (H ["src"; "models"] empty_dir eq_refl ltac:(discriminate) eq_refl
                  ltac:(cbn; lia))).
Defined.

(** ** Running [create_signposts] twice *)


Lemma tracked_paths_created {PF : Platform} (g : SignpostGenerator) (md : Z) (t : dir) :
  map (fun x => fst (fst x)) (tracked (signposted g md [] (root_written g t)))
  = map (fun x => fst (fst x)) (tracked t).
Proof.
  assert (E : forall l : list (path * list string * list (string * string)),
             map (fun x => fst (fst x)) (tl l) = tl (map (fun x => fst (fst x)) l))
    by (intros [|? ?]; reflexivity).
  unfold tracked. rewrite !E, os_walk_signposted_paths.
  destruct t as [fs sds]. reflexivity.
Qed.







(** ** [remove] *)

Lemma unlink_skip (n c : string) (pre fs : list (string * string)) :
  Forall (fun f => is_signpost (fst f) = false) pre -> is_signpost n = true ->
  unlink n (pre ++ (n, c) :: fs) = (pre ++ fs)%list.
Proof.
  intros Hpre Hn. induction Hpre as [|[m x] l Hm _ IH]; cbn [app unlink].
  - rewrite String.eqb_refl. reflexivity.
  - cbn [fst] in Hm. destruct (String.eqb n m) eqn:E.
    + apply String.eqb_eq in E. congruence.
    + rewrite IH. reflexivity.
Qed.

Lemma remove_inner_loop (fs : list (string * string)) :
  forall pre removed,
    Forall (fun f => is_signpost (fst f) = false) pre ->
    fold_left
      (fun (st : list (string * string) * nat) (filename : string) =>
         if is_signpost filename
         then (unlink filename (fst st), S (snd st))
         else st)
      (map fst fs) ((pre ++ fs)%list, removed)
    = ((pre ++ filter (fun f => negb (is_signpost (fst f))) fs)%list,
       (removed + List.length (filter is_signpost (map fst fs)))%nat).
Proof.
  induction fs as [|[n c] fs IH]; intros pre removed Hpre; cbn [map fold_left filter fst].
  - rewrite Nat.add_0_r. reflexivity.
  - destruct (is_signpost n) eqn:Hn; cbn [negb fst snd].
    + rewrite unlink_skip by assumption. rewrite IH by exact Hpre.
      cbn [List.length]. rewrite Nat.add_succ_r. reflexivity.
    + replace (pre ++ (n, c) :: fs)%list with ((pre ++ [(n, c)]) ++ fs)%list
        by (rewrite <- app_assoc; reflexivity).
      rewrite IH.
      * rewrite <- app_assoc. reflexivity.
      * apply Forall_app. split; [exact Hpre|]. constructor; [exact Hn | constructor].
Qed.

Lemma remove_body_spec (rel : path) (dirnames : list string)
  (fs : list (string * string)) (removed : nat) :
  remove_body rel dirnames fs removed
  = inr (filter (fun f => negb (is_signpost (fst f))) fs,
         (removed + List.length (filter is_signpost (map fst fs)))%nat).
Proof.
  unfold remove_body. f_equal.
  exact (remove_inner_loop fs [] removed (Forall_nil _)).
Qed.

Lemma list_sum_cons (x : nat) (l : list nat) :
  list_sum (x :: l) = (x + list_sum l)%nat.
Proof. reflexivity. Qed.

Lemma remove_walk_subdirs (rel : path) (sds : list (string * dir)) :
  Forall (fun x => forall rel removed,
              walk (fun _ => true) remove_body rel (snd x) removed
              = inr (without_signposts (snd x),
                     (removed + count_signposts (snd x))%nat)) sds ->
  forall removed,
    walk_subdirs (fun _ => true) (walk (fun _ => true) remove_body) rel sds removed
    = inr (map (fun x => (fst x, without_signposts (snd x))) sds,
           (removed + list_sum (map (fun x => count_signposts (snd x)) sds))%nat).
Proof.
  induction 1 as [|[n sd] l Hx _ IH]; intros removed;
    cbn [walk_subdirs map fst snd].
  - cbn. rewrite Nat.add_0_r. reflexivity.
  - cbn [snd] in Hx. rewrite Hx, IH, list_sum_cons, Nat.add_assoc. reflexivity.
Qed.

Lemma remove_walk_spec (d : dir) :
  forall rel removed,
    walk (fun _ => true) remove_body rel d removed
    = inr (without_signposts d, (removed + count_signposts d)%nat).
Proof.
  induction d as [fs sds IH] using dir_tree_ind. intros rel removed.
  rewrite walk_eq, remove_body_spec, (remove_walk_subdirs rel sds IH).
  cbn [without_signposts count_signposts]. rewrite Nat.add_assoc. reflexivity.
Qed.

Lemma filter_signpost_gone (fs : list (string * string)) :
  filter is_signpost (map fst (filter (fun f => negb (is_signpost (fst f))) fs)) = [].
Proof.
  induction fs as [|[n c] fs IH]; [reflexivity|].
  cbn [filter fst]. destruct (is_signpost n) eqn:Hn; cbn [negb]; [exact IH|].
  cbn [map filter fst]. rewrite Hn. exact IH.
Qed.

Lemma count_without (d : dir) : count_signposts (without_signposts d) = 0%nat.
Proof.
  induction d as [fs sds IH] using dir_tree_ind.
  cbn [without_signposts count_signposts]. rewrite filter_signpost_gone.
  cbn [List.length Nat.add]. rewrite map_map. cbn [snd].
  induction IH as [|x l Hx _ IHl]; [reflexivity|].
  cbn [map]. rewrite list_sum_cons, Hx, IHl. reflexivity.
Qed.

Lemma find_sub_without (n : string) (sds : list (string * dir)) :
  find_sub n (map (fun x => (fst x, without_signposts (snd x))) sds)
  = option_map without_signposts (find_sub n sds).
Proof.
  induction sds as [|[m sd] l IH]; [reflexivity|].
  cbn [map find_sub fst snd]. destruct (String.eqb n m); [reflexivity | exact IH].
Qed.

Lemma lookup_without (p : path) :
  forall d, lookup_dir (without_signposts d) p
            = option_map without_signposts (lookup_dir d p).
Proof.
  induction p as [|n p IH]; intros [fs sds]; [reflexivity|].
  cbn [lookup_dir without_signposts subdirs]. rewrite find_sub_without.
  destruct (find_sub n sds) as [sd|]; cbn [option_map]; [apply IH | reflexivity].
Qed.

(** C7.  [remove()] returns: it deletes every signpost-named file in every
    directory under the root, excluded directories included, leaves the
    other files and all directories, and returns the number of files it
    deleted; run again at once, it returns 0 and changes nothing. *)
Theorem remove_all_signposts (t : dir) :
  exists t',
    remove t = inr (t', count_signposts t)
    /\ (forall p d,
           lookup_dir t p = Some d ->
           exists d',
             lookup_dir t' p = Some d'
             /\ files d' = filter (fun f => negb (is_signpost (fst f))) (files d)
             /\ map fst (subdirs d') = map fst (subdirs d))
    /\ remove t' = inr (t', 0%nat).
Proof.
  exists (without_signposts t). unfold remove. split; [|split].
  - apply (remove_walk_spec t [] 0%nat).
  - intros p d Hl. exists (without_signposts d). split.
    + rewrite lookup_without, Hl. reflexivity.
    + destruct d as [fs sds]. cbn [without_signposts files subdirs].
      split; [reflexivity|]. rewrite map_map. reflexivity.
  - rewrite (remove_walk_spec (without_signposts t) [] 0%nat).
    rewrite count_without.
    assert (E : forall d, without_signposts (without_signposts d) = without_signposts d).
    { induction d as [fs sds IH] using dir_tree_ind.
      cbn [without_signposts]. f_equal.
      - induction fs as [|[n c] fs IHf]; [reflexivity|].
        cbn [filter fst]. destruct (is_signpost n) eqn:Hn; cbn [negb filter fst];
          [exact IHf | rewrite Hn; cbn [negb]; rewrite IHf; reflexivity].
      - rewrite map_map. apply map_ext_Forall.
        eapply Forall_impl; [|exact IH]. intros [n sd] H. cbn [fst snd] in *.
        rewrite H. reflexivity. }
    rewrite E. reflexivity.
Qed.

Lemma remove_all_signposts_witness :
  let t := MkDir [("_CARDINAL_ROOT.txt", "r"); ("README.md", "x")]
             [(".git", MkDir [("_CARDINAL_GIT.txt", "g"); ("config", "c")] [])] in
  exists t',
    remove t = inr (t', 2%nat)
    /\ (exists d', lookup_dir t' [".git"] = Some d' /\ files d' = [("config", "c")])
    /\ remove t' = inr (t', 0%nat).
Proof.
  intros t. destruct (remove_all_signposts t) as (t' & H1 & H2 & H3).
  exists t'. split; [exact H1|]. split; [|exact H3].
  destruct (H2 [".git"] (MkDir [("_CARDINAL_GIT.txt", "g"); ("config", "c")] [])
              eq_refl) as (d' & Hl & Hf & _).
  exists d'. split; [exact Hl | exact Hf].
Defined.

(** ** Exclusion *)

Lemma kept_path_not_excluded (q : path) :
  forallb kept q = true -> existsb excluded q = false.
Proof.
  induction q as [|n q IH]; [reflexivity|]. cbn [forallb existsb]. intros H.
  apply andb_true_iff in H. destruct H as [Hn Hq].
  unfold kept in Hn. apply negb_true_iff in Hn. rewrite Hn, (IH Hq). reflexivity.
Qed.

Lemma tracked_in_walk (t : dir) (x : path * list string * list (string * string)) :
  In x (tracked t) -> In x (os_walk kept [] t).
Proof. unfold tracked. destruct t. intros H. right. exact H. Qed.

Lemma os_walk_hollow (d : dir) :
  forall rel, os_walk kept rel (hollow d) = os_walk kept rel d.
Proof.
  induction d as [fs sds IH] using dir_tree_ind. intros rel.
  cbn [hollow os_walk]. f_equal.
  - f_equal. f_equal. rewrite map_map. apply map_ext. intros [n sd]. cbn [fst snd].
    destruct (kept n); reflexivity.
  - apply flat_map_map_ext.
    eapply Forall_impl; [|exact IH]. intros [n sd] H. cbn [fst snd] in *.
    destruct (kept n) eqn:Hn; cbn [fst snd]; rewrite Hn; [apply H | reflexivity].
Qed.

Lemma hollow_root (t : dir) :
  files (hollow t) = files t
  /\ map fst (subdirs (hollow t)) = map fst (subdirs t)
  /\ tracked (hollow t) = tracked t.
Proof.
  split; [|split].
  - destruct t; reflexivity.
  - destruct t as [fs sds]. cbn [hollow subdirs]. rewrite map_map.
    apply map_ext. intros [n sd]. cbn [fst snd]. destruct (kept n); reflexivity.
  - unfold tracked. rewrite os_walk_hollow. reflexivity.
Qed.

(** C8, as the code has it.  [create_signposts] leaves every excluded
    directory, and everything below it, exactly as it was, and returns no
    path inside one; [validate_signposts] gives the same verdict and the
    same issues whatever the excluded directories hold.  ([remove] is not
    part of this: it walks the excluded directories too.) *)
Theorem excluded_directories_untouched {PF : Platform} (g : SignpostGenerator) (md : Z)
  (root : path) (t : dir) :
  (forall t' created p,
      create_signposts g md t = inr (t', created) ->
      existsb excluded p = true ->
      lookup_dir t' p = lookup_dir t p
      /\ forall name, ~ In (root_path g ++ p ++ [name])%list created)
  /\ validate_signposts_run root (hollow t) = validate_signposts_run root t.
Proof.
  split.
  - intros t' created p Hc Hx. pose proof (create_signposts_spec g md t) as H.
    rewrite Hc in H. destruct H as (_ & -> & ->). split.
    + rewrite signposted_lookup_excluded by exact Hx.
      apply root_written_lookup. intros ->. discriminate.
    + intros name [Hin|Hin].
      * apply app_inv_head in Hin.
        destruct p; [discriminate|]. destruct p; discriminate.
      * apply markers_In in Hin. destruct Hin as (x & Hin & _ & E).
        unfold marker_path in E. apply app_inv_head in E.
        assert (Ep : p = fst (fst x)).
        { pose proof (f_equal (@removelast string) E) as E'.
          rewrite !removelast_last in E'. exact E'. }
        apply tracked_in_walk, os_walk_paths in Hin.
        destruct Hin as (q & Eq & Hq). cbn [app] in Eq.
        rewrite Ep, Eq, (kept_path_not_excluded q Hq) in Hx. discriminate.
  - destruct (hollow_root t) as (Hf & Hd & Ht).
    rewrite !validate_run_spec, Hf, Hd, Ht. reflexivity.
Qed.

Lemma excluded_directories_untouched_witness :
  let g := default_generator ["proj"] in
  let t := MkDir [] [("src", empty_dir);
                     (".git", MkDir [("HEAD", "ref")] [("hooks", empty_dir)]);
                     ("node_modules", MkDir [] [("pkg", empty_dir)])] in
  exists t' created,
    create_signposts g 10 t = inr (t', created)
    /\ lookup_dir t' [".git"; "hooks"] = Some empty_dir
    /\ lookup_dir t' ["node_modules"] = Some (MkDir [] [("pkg", empty_dir)]).
Proof.
  intros g t. eexists. eexists. split; [vm_compute; reflexivity|].
  match goal with
  | |- lookup_dir ?t' _ = _ /\ _ =>
      pose proof (proj1 (excluded_directories_untouched (PF := ascii_platform)
          g 10 ["proj"] t) t') as H
  end.
  split.
  - exact (proj1 (H _ [".git"; "hooks"] eq_refl eq_refl)).
  - exact (proj1 (H _ ["node_modules"] eq_refl eq_refl)).
Defined.

(** C8, as the specification words it, fails for [remove]: it walks into
    the excluded directory [.git] and deletes the signpost-named file
    there. *)
Lemma remove_visits_excluded :
  let t := MkDir [] [(".git", MkDir [("_CARDINAL_X.txt", "x")] [])] in
  excluded ".git" = true
  /\ remove t = inr (MkDir [] [(".git", empty_dir)], 1%nat)
  /\ lookup_dir (MkDir [] [(".git", empty_dir)]) [".git"] <> lookup_dir t [".git"].
Proof.
  intros t. split; [reflexivity|]. split; [reflexivity|].
  cbn. intros H. discriminate.
Qed.

(** ** The validation walk *)

(** C5.  The project is valid exactly when no issue was collected.  When
    the root signpost exists, the issues are those of its content check
    followed, for every directory below the root that the exclusion-filtered
    walk reaches and in walk order, by the issues of that directory: with no
    signpost-named file, the missing issue and nothing else (no content
    check); with several, the multiple issue and then the content issues of
    the first one in listing order; with one, its content issues. *)
Theorem validation_issues {PF : Platform} (root : path) (t : dir) :
  (validate_signposts root t = true <-> snd (validate_signposts_run root t) = [])
  /\ (Py.mem "_CARDINAL_ROOT.txt" (map fst (files t))
      || Py.mem "_CARDINAL_ROOT.txt" (map fst (subdirs t)) = true ->
      snd (validate_signposts_run root t)
      = (snd (_validate_signpost_content root [] (map fst (subdirs t)) (files t)
                "_CARDINAL_ROOT.txt")
         ++ flat_map (dir_issues root) (tracked t))%list)
  /\ (forall rel dirnames fs,
         In (rel, dirnames, fs) (tracked t) ->
         rel <> []
         /\ match filter is_signpost (map fst fs) with
            | [] =>
                dir_issues root (rel, dirnames, fs)
                = ["Missing signpost in: " ++ rel_str rel]
            | [only] =>
                dir_issues root (rel, dirnames, fs)
                = snd (_validate_signpost_content root rel dirnames fs only)
            | first :: _ =>
                dir_issues root (rel, dirnames, fs)
                = ("Multiple signposts in: " ++ rel_str rel)
                  :: snd (_validate_signpost_content root rel dirnames fs first)
            end).
Proof.
  split; [|split].
  - unfold validate_signposts. rewrite validate_run_spec.
    destruct (negb _); cbn [fst snd]; [split; discriminate|].
    destruct (_ ++ _)%list; split; (reflexivity || discriminate).
  - intros H. rewrite validate_run_spec, H. reflexivity.
  - intros rel dirnames fs Hin. split.
    + exact (tracked_nonroot t _ Hin).
    + unfold dir_issues. destruct (filter is_signpost (map fst fs)) as [|f [|f2 l]];
        reflexivity.
Qed.

Lemma validation_issues_witness :
  let t := MkDir [("_CARDINAL_ROOT.txt", "ROOT: /p/" ++ Py.LF ++ "HERE: /p/"
                                         ++ Py.LF ++ "ROLE: root")]
             [("a", empty_dir);
              ("b", MkDir [("_CARDINAL_B.txt", "ROOT: /p/" ++ Py.LF ++ "HERE: /p/b/"
                                               ++ Py.LF ++ "ROLE: B");
                           ("_CARDINAL_OLD.txt", "stale")] [])] in
  snd (validate_signposts_run ["p"] t)
  = ["Missing signpost in: a"; "Multiple signposts in: b"].
Proof.
  intros t.
  rewrite (proj1 (proj2 (validation_issues (PF := ascii_platform) ["p"] t)) eq_refl).
  reflexivity.
Defined.

(** ** The content check on field values *)








(** ** Generated signposts pass the content check *)

Lemma segments_clean (segs : path) :
  Forall (fun s => segment_ok s = true) segs -> Forall (fun s => clean s = true) segs.
Proof.
  apply Forall_impl. intros s H. apply segment_ok_clean in H. tauto.
Qed.

Lemma generated_values_ok {PF : Platform} (root rel : path) (name : string) :
  strip_keeps_paths ->
  root <> [] -> Forall (fun s => segment_ok s = true) (root ++ rel) ->
  value_issues root rel name (slashed root) (slashed (root ++ rel)) = [].
Proof.
  intros Hstrip Hne Hs. unfold value_issues.
  pose proof (proj1 (proj1 (Forall_app _ _ _) Hs)) as Hr.
  rewrite !normalise_slashed, !String.eqb_refl; try assumption; [reflexivity|].
  intros H. apply app_eq_nil in H. tauto.
Qed.

Lemma generated_shape_check {PF : Platform} (root rel : path) (dirnames : list string)
  (fs : list (string * string)) (name : string) (pre : list string) (z : string) :
  strip_keeps_paths ->
  root <> [] -> Forall (fun s => segment_ok s = true) (root ++ rel) ->
  Forall (fun l => plain l = true) pre ->
  find_file name fs
  = Some (Py.join Py.LF (pre ++ ["ROOT:" ++ slashed root;
                                 "HERE:" ++ slashed (root ++ rel);
                                 "ROLE:" ++ z])) ->
  decode_error (Py.join Py.LF (pre ++ ["ROOT:" ++ slashed root;
                                       "HERE:" ++ slashed (root ++ rel);
                                       "ROLE:" ++ z])) = None ->
  _validate_signpost_content root rel dirnames fs name = (true, []).
Proof.
  intros Hstrip Hne Hs Hpre Hf Hdec.
  pose proof (segments_clean _ Hs) as Hc.
  pose proof (proj1 (proj1 (Forall_app _ _ _) Hc)) as Hcr.
  rewrite (content_check root rel dirnames fs name pre (slashed root)
             (slashed (root ++ rel)) z Hf Hpre);
    try (apply contains_slashed; [unfold sensitive; tauto | assumption]);
    [|exact Hdec].
  rewrite generated_values_ok by assumption. reflexivity.
Qed.

Lemma generated_directory_check {PF : Platform} (g : SignpostGenerator) (rel : path)
  (dirnames : list string) (fs : list (string * string)) (name role : string) :
  strip_keeps_paths ->
  root_path g <> [] ->
  Forall (fun s => segment_ok s = true) (root_path g ++ rel) ->
  find_file name fs = Some (_generate_directory_content g (root_path g ++ rel) role) ->
  decode_error (_generate_directory_content g (root_path g ++ rel) role) = None ->
  _validate_signpost_content (root_path g) rel dirnames fs name = (true, []).
Proof.
  intros Hstrip Hne Hs Hf Hdec.
  apply (generated_shape_check (root_path g) rel dirnames fs name [] (" " ++ role)
           Hstrip Hne Hs (Forall_nil _)); [exact Hf | exact Hdec].
Qed.

Lemma root_content_shape (g : SignpostGenerator) (t : dir) :
  exists z,
    _generate_root_content g t
    = Py.join Py.LF
        (banner_lines
         ++ ["ROOT:" ++ slashed (root_path g);
             "HERE:" ++ slashed (root_path g);
             "ROLE:" ++ z]).
Proof.
  assert (H : exists tail,
             _generate_root_content g t
             = Py.join Py.LF
                 ([ Py.repeat_str "═" 60;
                    "CARDINAL RULES - READ BEFORE ANY OPERATION";
                    Py.repeat_str "═" 60;
                    EmptyString;
                    "ROOT:" ++ slashed (root_path g);
                    "HERE:" ++ slashed (root_path g) ]
                  ++ "ROLE: Project root directory" :: EmptyString :: tail)).
  { unfold _generate_root_content.
    destruct (include_rules g), (custom_rules g), (include_tree g);
      eexists; cbn [app]; reflexivity. }
  destruct H as [tail ->].
  rewrite join_app_tail by discriminate.
  rewrite (join_cons Py.LF "ROLE: Project root directory") by discriminate.
  eexists. reflexivity.
Qed.

Lemma generated_root_check {PF : Platform} (g : SignpostGenerator) (t : dir)
  (dirnames : list string) (fs : list (string * string)) :
  strip_keeps_paths ->
  root_path g <> [] ->
  Forall (fun s => segment_ok s = true) (root_path g) ->
  find_file "_CARDINAL_ROOT.txt" fs = Some (_generate_root_content g t) ->
  decode_error (_generate_root_content g t) = None ->
  _validate_signpost_content (root_path g) [] dirnames fs "_CARDINAL_ROOT.txt"
  = (true, []).
Proof.
  intros Hstrip Hne Hs Hf Hdec. destruct (root_content_shape g t) as [z Hz].
  rewrite Hz in Hf, Hdec.
  apply (generated_shape_check (root_path g) [] dirnames fs "_CARDINAL_ROOT.txt"
           banner_lines z Hstrip Hne);
    rewrite ?app_nil_r; [exact Hs | repeat constructor | exact Hf | exact Hdec].
Qed.

(** A tree in which the root signpost and the single signpost of every
    tracked directory carry generated text is valid, whatever the names of
    the signposts of the tracked directories. *)
Lemma validate_generated {PF : Platform} (g : SignpostGenerator) (t t0 : dir) :
  strip_keeps_paths ->
  root_path g <> [] ->
  Forall (fun s => segment_ok s = true) (root_path g) ->
  find_file "_CARDINAL_ROOT.txt" (files t) = Some (_generate_root_content g t0) ->
  decode_error (_generate_root_content g t0) = None ->
  (forall rel dirnames fs,
      In (rel, dirnames, fs) (tracked t) ->
      Forall (fun s => segment_ok s = true) rel
      /\ exists name role,
           filter is_signpost (map fst fs) = [name]
           /\ find_file name fs
              = Some (_generate_directory_content g (root_path g ++ rel) role)
           /\ decode_error (_generate_directory_content g (root_path g ++ rel) role)
              = None) ->
  validate_signposts_run (root_path g) t = (true, []).
Proof.
  intros Hstrip Hne Hs Hroot Hdec Hdirs. rewrite validate_run_spec.
  assert (Hm : Py.mem "_CARDINAL_ROOT.txt" (map fst (files t)) = true).
  { revert Hroot. generalize (files t). unfold Py.mem.
    induction l as [|[n c] l IH]; cbn [find_file map existsb fst]; [discriminate|].
    destruct (String.eqb "_CARDINAL_ROOT.txt" n); [reflexivity | exact IH]. }
  rewrite Hm. cbn [orb negb].
  rewrite (generated_root_check g t0) by assumption. cbn [snd app].
  assert (E : flat_map (dir_issues (root_path g)) (tracked t) = []).
  { rewrite (flat_map_ext_in _ (fun _ => []));
      [apply flat_map_none|].
    intros [[rel dirnames] fs] Hin.
    destruct (Hdirs rel dirnames fs Hin) as (Hrel & name & role & Hfil & Hfile & Hd).
    unfold dir_issues. rewrite Hfil.
    rewrite (generated_directory_check g rel dirnames fs name role Hstrip Hne);
      [reflexivity | | exact Hfile | exact Hd].
    apply Forall_app. split; assumption. }
  rewrite E. reflexivity.
Qed.




(** ** [create_signposts] and then [validate_signposts] *)

Lemma is_signpost_filename {PF : Platform}
  (rel : path) : is_signpost (signpost_filename rel) = true.
Proof.
  unfold is_signpost, signpost_filename, Py.startswith.
  rewrite prefix_app. rewrite <- append_assoc, endswith_app. reflexivity.
Qed.

Lemma no_signpost_mem {A : Type} (n : string) (l : list (string * A)) :
  forallb (fun x => negb (is_signpost (fst x))) l = true ->
  is_signpost n = true -> Py.mem n (map fst l) = false.
Proof.
  intros Hl Hn. unfold Py.mem.
  induction l as [|[m x] l IH]; [reflexivity|].
  cbn [forallb map existsb fst] in *. apply andb_true_iff in Hl. destruct Hl as [Hm Hl].
  rewrite (IH Hl), orb_false_r. apply String.eqb_neq. intros ->.
  rewrite Hn in Hm. discriminate.
Qed.

Lemma fresh_parts (fs : list (string * string)) (sds : list (string * dir)) :
  fresh (MkDir fs sds) = true ->
  forallb (fun f => negb (is_signpost (fst f))) fs = true
  /\ forallb (fun x => negb (is_signpost (fst x))) sds = true
  /\ forall x, In x sds -> kept (fst x) = true ->
               segment_ok (fst x) = true /\ fresh (snd x) = true.
Proof.
  cbn [fresh]. intros H. apply andb_true_iff in H. destruct H as [H H3].
  apply andb_true_iff in H. destruct H as [H1 H2]. repeat split; try assumption;
    rewrite forallb_forall in H3; specialize (H3 x H); rewrite H0 in H3;
    apply andb_true_iff in H3; tauto.
Qed.

Lemma fresh_writable {PF : Platform} (g : SignpostGenerator) (md : Z) (d : dir) :
  forall rel,
    (forall r, In r (map (fun x => fst (fst x)) (os_walk kept rel d)) -> r <> [] ->
               accepted ((root_path g ++ r) ++ [signpost_filename r])%list
                 (directory_text g r) = true) ->
    fresh d = true -> writable g md rel d = true.
Proof.
  induction d as [fs sds IH] using dir_tree_ind. intros rel Ha Hf.
  destruct (fresh_parts fs sds Hf) as (_ & Hd & Hsub).
  cbn [writable]. apply andb_true_iff. split.
  - destruct (within_depth md rel) eqn:Hw; [|reflexivity]. cbn [negb orb].
    unfold signpost_writable.
    rewrite (no_signpost_mem _ sds Hd (is_signpost_filename rel)). cbn [negb andb].
    apply Ha; [left; reflexivity|]. apply within_depth_iff in Hw. tauto.
  - apply forallb_forall. intros x Hx. destruct (kept (fst x)) eqn:Hk; [|reflexivity].
    rewrite Forall_forall in IH. apply (IH x Hx); [|apply (Hsub x Hx Hk)].
    intros r Hr. apply Ha. cbn [os_walk map]. right.
    apply in_map_iff in Hr. destruct Hr as (y & <- & Hy).
    apply (in_map (fun z => fst (fst z))). apply in_flat_map.
    exists x. rewrite Hk. split; assumption.
Qed.

Lemma depth_child (fs : list (string * string)) (sds : list (string * dir))
  (x : string * dir) :
  In x sds -> (S (depth (snd x)) <= depth (MkDir fs sds))%nat.
Proof.
  cbn [depth]. induction sds as [|y l IH]; [contradiction|].
  cbn [fold_right]. intros [->|H]; [apply Nat.le_max_l|].
  eapply Nat.le_trans; [exact (IH H) | apply Nat.le_max_r].
Qed.

Lemma store_fresh (n c : string) (fs : list (string * string)) :
  forallb (fun f => negb (is_signpost (fst f))) fs = true -> is_signpost n = true ->
  filter is_signpost (map fst (store_file n c fs)) = [n].
Proof.
  intros Hfs Hn. rewrite store_new by (apply no_signpost_mem; assumption).
  rewrite map_app, filter_app. cbn [map filter fst]. rewrite Hn.
  replace (filter is_signpost (map fst fs)) with (@nil string); [reflexivity|].
  symmetry. induction fs as [|[m x] l IH]; [reflexivity|].
  cbn [forallb map filter fst] in *. apply andb_true_iff in Hfs.
  destruct Hfs as [Hm Hl]. apply negb_true_iff in Hm. rewrite Hm. exact (IH Hl).
Qed.

(** What the validation walk finds in the tree [create_signposts] leaves,
    when the tree was fresh and lies within the depth limit. *)
Lemma os_walk_created {PF : Platform} (g : SignpostGenerator) (md : Z) (d : dir) :
  forall rel r dirnames fs',
    fresh d = true -> (Z.of_nat (List.length rel + depth d) <= md)%Z ->
    In (r, dirnames, fs') (os_walk kept rel (signposted g md rel d)) ->
    exists q,
      r = (rel ++ q)%list /\ Forall (fun s => segment_ok s = true) q
      /\ (r <> [] ->
          filter is_signpost (map fst fs') = [signpost_filename r]
          /\ find_file (signpost_filename r) fs' = Some (directory_text g r)).
Proof.
  induction d as [fs sds IH] using dir_tree_ind.
  intros rel r dirnames fs' Hf Hd Hin.
  destruct (fresh_parts fs sds Hf) as (Hfs & _ & Hsub).
  cbn [signposted os_walk] in Hin. destruct Hin as [Hin|Hin].
  - injection Hin as <- _ <-. exists []. rewrite app_nil_r.
    split; [reflexivity|]. split; [constructor|]. intros Hne.
    assert (Hw : within_depth md rel = true) by (apply within_depth_iff; split; [exact Hne | lia]).
    rewrite Hw. split; [|apply find_store_same].
    apply store_fresh; [exact Hfs | apply is_signpost_filename].
  - apply in_flat_map in Hin. destruct Hin as (y & Hy & Hin).
    apply in_map_iff in Hy. destruct Hy as ([n sd] & <- & Hx).
    cbn [fst snd] in Hin. destruct (kept n) eqn:Hk; cbn [fst snd] in Hin;
      rewrite Hk in Hin; [|contradiction].
    destruct (Hsub (n, sd) Hx Hk) as [Hn Hfsd]. cbn [fst snd] in Hn, Hfsd.
    rewrite Forall_forall in IH.
    pose proof (depth_child fs sds (n, sd) Hx) as Hdc. cbn [snd] in Hdc.
    destruct (IH (n, sd) Hx (rel ++ [n])%list r dirnames fs' Hfsd) as (q & -> & Hq & Hr).
    + rewrite length_app. cbn [List.length snd]. lia.
    + exact Hin.
    + exists (n :: q). rewrite <- app_assoc. split; [reflexivity|].
      split; [constructor; assumption|].
      rewrite <- app_assoc in Hr. exact Hr.
Qed.

(** The tree [create_signposts] leaves from a fresh tree is valid. *)
Lemma signposted_valid {PF : Platform} (g : SignpostGenerator) (md : Z) (t : dir) :
  strip_keeps_paths -> platform_serves g t ->
  root_path g <> [] ->
  Forall (fun s => segment_ok s = true) (root_path g) ->
  fresh t = true -> (Z.of_nat (depth t) <= md)%Z ->
  creatable g md t = true
  /\ validate_signposts_run (root_path g) (signposted g md [] (root_written g t))
     = (true, []).
Proof.
  intros Hstrip (Hwr & Hdr & Hserve) Hne Hs Hf Hd. split.
  - unfold creatable. rewrite Hwr, andb_true_r. apply andb_true_iff. split.
    + destruct t as [fs sds]. destruct (fresh_parts fs sds Hf) as (_ & Hsd & _).
      cbn [subdirs]. rewrite (no_signpost_mem _ sds Hsd); reflexivity.
    + apply fresh_writable; [|exact Hf].
      intros r Hr Hrne. apply Hserve. unfold tracked_paths, tracked.
      destruct t as [fs sds]. cbn [os_walk map tl] in Hr |- *.
      destruct Hr as [Hr|Hr]; [symmetry in Hr; contradiction | exact Hr].
  - apply (validate_generated g _ t Hstrip Hne Hs).
    + exact (root_signpost_text g md t).
    + exact Hdr.
    + intros rel dirnames fs Hin.
      pose proof (tracked_nonroot _ _ Hin) as Hrel. cbn [fst] in Hrel.
      assert (Hp : In rel (tracked_paths t)).
      { unfold tracked_paths. rewrite <- (tracked_paths_created g md t).
        apply (in_map (fun x => fst (fst x)) _ _ Hin). }
      assert (Hin' : In (rel, dirnames, fs) (os_walk kept [] (signposted g md [] t))).
      { apply tracked_in_walk.
        replace (tracked (signposted g md [] t))
          with (tracked (signposted g md [] (root_written g t)))
          by (destruct t; reflexivity).
        exact Hin. }
      destruct (os_walk_created g md t [] rel dirnames fs Hf Hd Hin')
        as (q & -> & Hq & Hr).
      split; [exact Hq|]. destruct (Hr Hrel) as [Hfil Hfile].
      exists (signpost_filename q), (_infer_directory_role (root_path g ++ q)).
      split; [exact Hfil|]. split; [exact Hfile|].
      exact (proj2 (Hserve q Hp)).
Qed.

(** X25.  Let the tree be fresh: no file or directory with a signpost name,
    tracked directory names without the characters the validator's parsing
    is sensitive to; let the root be well-named and not [/], and the depth
    limit cover the tree.  On a platform that takes the signposts of the
    tree and decodes their texts, and whose [strip] leaves a path between
    slashes alone, [create_signposts] returns and the tree it leaves is
    valid. *)
Theorem create_then_validate {PF : Platform} (g : SignpostGenerator) (md : Z)
  (t : dir) :
  strip_keeps_paths -> platform_serves g t ->
  root_path g <> [] ->
  Forall (fun s => segment_ok s = true) (root_path g) ->
  fresh t = true -> (Z.of_nat (depth t) <= md)%Z ->
  exists t' created,
    create_signposts g md t = inr (t', created) /\ validate g t' = true.
Proof.
  intros Hstrip Hserve Hne Hs Hf Hd.
  destruct (signposted_valid g md t Hstrip Hserve Hne Hs Hf Hd) as [Hc Hv].
  pose proof (create_signposts_spec g md t) as H.
  destruct (create_signposts g md t) as [e|[t' created]]; [congruence|].
  destruct H as (_ & -> & _). eexists. eexists. split; [reflexivity|].
  unfold validate, validate_signposts. rewrite Hv. reflexivity.
Qed.

Lemma create_then_validate_witness :
  exists t' created,
    create_signposts (default_generator ["tmp"; "test_project"]) 10 temp_project
    = inr (t', created)
    /\ validate (default_generator ["tmp"; "test_project"]) t' = true.
Proof.
  apply (create_then_validate (PF := ascii_platform)
           (default_generator ["tmp"; "test_project"]) 10 temp_project).
  - exact ascii_strip_keeps_paths.
  - apply ascii_platform_serves.
  - discriminate.
  - repeat constructor.
  - reflexivity.
  - cbn. lia.
Defined.

(** C1 fails on the code.  The tree under [/proj] has one directory, named
    [HERE:x], and no signpost; the depth limit covers it.  [create_signposts]
    returns, and [validate_signposts] then rejects the signpost it wrote:
    the validator takes the text between the first two [HERE:] of the line
    [HERE: /proj/HERE:x/] for the value. *)
Theorem validate_rejects_created_signpost :
  let g := default_generator ["proj"] in
  let t := MkDir [] [("HERE:x", empty_dir)] in
  count_signposts t = 0%nat /\ (Z.of_nat (depth t) <= 10)%Z
  /\ exists t' created,
       create_signposts g 10 t = inr (t', created)
       /\ validate_signposts_run ["proj"] t'
          = (false,
             ["Incorrect HERE in HERE:x/_CARDINAL_HERE:X.txt: "
              ++ "expected /proj/HERE:x, got /proj"]).
Proof.
  intros g t. split; [reflexivity|]. split; [cbn; lia|].
  eexists. eexists. split; vm_compute; reflexivity.
Qed.

(** * Further properties of the generator and the validator *)

(** ** What [create_signposts] leaves alone *)

Lemma signposted_lookup_any {PF : Platform}
  (g : SignpostGenerator) (md : Z) (q : path) :
  forall rel d,
    lookup_dir (signposted g md rel d) q
    = option_map (fun sd => if forallb kept q
                            then signposted g md (rel ++ q) sd else sd)
        (lookup_dir d q).
Proof.
  induction q as [|n q IH]; intros rel d.
  - cbn. rewrite app_nil_r. reflexivity.
  - destruct d as [fs sds]. cbn [lookup_dir subdirs signposted forallb].
    rewrite (find_sub_map (fun n sd => signposted g md (rel ++ [n]) sd)).
    destruct (find_sub n sds) as [sd1|]; [|reflexivity].
    destruct (kept n); cbn [andb].
    + rewrite IH, <- app_assoc. reflexivity.
    + destruct (lookup_dir sd1 q); reflexivity.
Qed.

Lemma signposted_files_other {PF : Platform}
  (g : SignpostGenerator) (md : Z) (rel : path)
  (d : dir) (name : string) :
  is_signpost name = false ->
  find_file name (files (signposted g md rel d)) = find_file name (files d).
Proof.
  intros Hn. destruct d as [fs sds]. cbn [signposted files].
  destruct (within_depth md rel); [|reflexivity].
  apply find_store_other. intros ->.
  rewrite is_signpost_filename in Hn. discriminate.
Qed.

(** X1.  [create_signposts] writes signposts and nothing else: every file
    whose name is not a signpost name has the text it had, in every
    directory, and no directory appears, disappears or is renamed. *)
Theorem create_keeps_other_files {PF : Platform}
  (g : SignpostGenerator) (md : Z) (t t' : dir)
  (created : list path) :
  create_signposts g md t = inr (t', created) ->
  forall rel,
    option_map (fun d => map fst (subdirs d)) (lookup_dir t' rel)
    = option_map (fun d => map fst (subdirs d)) (lookup_dir t rel)
    /\ forall name, is_signpost name = false ->
                    file_at t' rel name = file_at t rel name.
Proof.
  intros Hc rel. pose proof (create_signposts_spec g md t) as H.
  rewrite Hc in H. destruct H as (_ & -> & _).
  unfold file_at. rewrite signposted_lookup_any.
  destruct rel as [|s rel].
  - cbn [lookup_dir option_map forallb]. split.
    + rewrite signposted_subdirs. destruct t; reflexivity.
    + intros name Hn. rewrite signposted_files_other by exact Hn.
      unfold root_written. cbn [files]. apply find_store_other.
      intros ->. discriminate.
  - rewrite root_written_lookup by discriminate.
    destruct (lookup_dir t (s :: rel)) as [d|]; cbn [option_map]; [|auto].
    split.
    + destruct (forallb kept (s :: rel)); [rewrite signposted_subdirs|]; reflexivity.
    + intros name Hn.
      destruct (forallb kept (s :: rel));
        [rewrite signposted_files_other by exact Hn|]; reflexivity.
Qed.

Lemma create_keeps_other_files_witness :
  let t := MkDir [("README.md", "hello")] [("src", MkDir [("main.py", "pass")] [])] in
  exists t' created,
    create_signposts (default_generator ["proj"]) 10 t = inr (t', created)
    /\ file_at t' ["src"] "main.py" = Some "pass".
Proof.
  intros t. eexists. eexists. split; [vm_compute; reflexivity|].
  match goal with
  | |- file_at ?t' _ _ = _ =>
      rewrite (proj2 (create_keeps_other_files (PF := ascii_platform)
          (default_generator ["proj"]) 10 t t' _
                        ltac:(vm_compute; reflexivity) ["src"]) "main.py" eq_refl)
  end.
  reflexivity.
Defined.

(** ** The depth limit *)

Lemma store_names_mem (n c : string) (fs : list (string * string)) :
  Py.mem n (map fst (store_file n c fs)) = true.
Proof.
  unfold Py.mem. induction fs as [|[m x] fs IH]; cbn [store_file map existsb fst].
  - rewrite String.eqb_refl. reflexivity.
  - destruct (String.eqb n m) eqn:E; cbn [map existsb fst]; rewrite E;
      [reflexivity | exact IH].
Qed.


(** X2.  [create_signposts] writes nothing in a directory below the root
    that lies deeper than [max_depth]: its files are exactly those it had,
    and no returned path lies in it. *)
Theorem create_stops_at_max_depth {PF : Platform}
  (g : SignpostGenerator) (md : Z) (t t' : dir)
  (created : list path) (rel : path) (d : dir) :
  create_signposts g md t = inr (t', created) ->
  lookup_dir t rel = Some d -> rel <> [] ->
  (md < Z.of_nat (List.length rel))%Z ->
  (exists d',
      lookup_dir t' rel = Some d' /\ files d' = files d
      /\ map fst (subdirs d') = map fst (subdirs d))
  /\ forall name, ~ In (root_path g ++ rel ++ [name])%list created.
Proof.
  intros Hc Hl Hne Hd. pose proof (create_signposts_spec g md t) as H.
  rewrite Hc in H. destruct H as (_ & -> & ->).
  assert (Hw : within_depth md rel = false).
  { destruct (within_depth md rel) eqn:E; [|reflexivity].
    apply within_depth_iff in E. lia. }
  split.
  - rewrite signposted_lookup_any, root_written_lookup, Hl by exact Hne.
    cbn [option_map]. destruct (forallb kept rel).
    + eexists. split; [reflexivity|]. rewrite signposted_subdirs.
      destruct d as [fs sds]. cbn [signposted files app]. rewrite Hw. auto.
    + eexists. auto.
  - intros name [Hin|Hin].
    + apply app_inv_head in Hin. destruct rel; [congruence|].
      destruct rel; discriminate.
    + apply markers_In in Hin. destruct Hin as (x & _ & Hx & E).
      unfold marker_path in E. apply app_inv_head in E.
      pose proof (f_equal (@removelast string) E) as E'.
      rewrite !removelast_last in E'. congruence.
Qed.

Lemma create_stops_at_max_depth_witness :
  exists t' created d',
    create_signposts (default_generator ["tmp"; "test_project"]) 1 temp_project
    = inr (t', created)
    /\ lookup_dir t' ["src"; "models"] = Some d' /\ files d' = [].
Proof.
  eexists. eexists.
  match goal with
  | |- exists d', create_signposts ?g ?md ?t = inr (?t', ?c) /\ _ =>
      destruct (proj1 (create_stops_at_max_depth (PF := ascii_platform)
          g md t t' c ["src"; "models"]
                         empty_dir ltac:(vm_compute; reflexivity) eq_refl
                         ltac:(discriminate) ltac:(cbn; lia)))
        as (d' & Hl & Hf & _)
  end.
  exists d'. split; [vm_compute; reflexivity|]. split; [exact Hl | exact Hf].
Defined.

(** X3.  The depth limit of [create_signposts] is not known to the
    validator: when the tree holds a tracked directory deeper than
    [max_depth] that had no signpost, the tree [create_signposts] leaves is
    not valid. *)
Theorem validate_fails_beyond_max_depth {PF : Platform} (g : SignpostGenerator) (md : Z)
  (t t' : dir) (created : list path) (root rel : path) (d : dir) :
  create_signposts g md t = inr (t', created) ->
  lookup_dir t rel = Some d -> forallb kept rel = true ->
  (0 <= md < Z.of_nat (List.length rel))%Z ->
  filter is_signpost (map fst (files d)) = [] ->
  validate_signposts root t' = false
  /\ In ("Missing signpost in: " ++ rel_str rel) (snd (validate_signposts_run root t')).
Proof.
  intros Hc Hl Hk Hd Hnone.
  assert (Hne : rel <> []) by (intros ->; cbn in Hd; lia).
  pose proof (create_signposts_spec g md t) as H.
  rewrite Hc in H. destruct H as (_ & Ht & _).
  assert (Hw : within_depth md rel = false).
  { destruct (within_depth md rel) eqn:E; [|reflexivity].
    apply within_depth_iff in E. lia. }
  assert (Hl' : lookup_dir t' rel = Some (signposted g md rel d)).
  { rewrite Ht, signposted_lookup_any, root_written_lookup, Hl, Hk by exact Hne.
    reflexivity. }
  pose proof (tracked_lookup t' rel _ Hne Hl' Hk) as Hin.
  assert (Hf : files (signposted g md rel d) = files d).
  { destruct d as [fs sds]. cbn [signposted files]. rewrite Hw. reflexivity. }
  rewrite Hf in Hin.
  assert (Hroot : Py.mem "_CARDINAL_ROOT.txt" (map fst (files t')) = true).
  { rewrite Ht. unfold root_written. cbn [signposted files within_depth].
    apply store_names_mem. }
  assert (Hiss : In ("Missing signpost in: " ++ rel_str rel)
                    (snd (validate_signposts_run root t'))).
  { rewrite validate_run_spec, Hroot. cbn [orb negb snd].
    apply in_or_app. right. apply in_flat_map.
    eexists. split; [exact Hin|]. unfold dir_issues. rewrite Hnone.
    left. reflexivity. }
  split; [|exact Hiss].
  unfold validate_signposts. revert Hiss. rewrite validate_run_spec, Hroot.
  cbn [orb negb fst snd]. destruct (_ ++ _)%list; [contradiction | reflexivity].
Qed.

Lemma validate_fails_beyond_max_depth_witness :
  exists t' created,
    create_signposts (default_generator ["tmp"; "test_project"]) 1 temp_project
    = inr (t', created)
    /\ validate_signposts ["tmp"; "test_project"] t' = false.
Proof.
  eexists. eexists. split; [vm_compute; reflexivity|].
  refine (proj1 (validate_fails_beyond_max_depth (PF := ascii_platform)
                   (default_generator ["tmp"; "test_project"]) 1 temp_project _ _
                   ["tmp"; "test_project"] ["src"; "models"] empty_dir
                   _ eq_refl eq_refl _ eq_refl));
    [vm_compute; reflexivity | cbn; lia].
Defined.

(** ** What a valid project is *)

(** X4.  When [validate_signposts] returns true, the root signpost exists
    and passes the content check, and every directory below the root that
    the exclusion-filtered walk reaches holds exactly one signpost-named
    file, which passes the content check. *)
Theorem valid_project {PF : Platform} (root : path) (t : dir) :
  validate_signposts root t = true ->
  (Py.mem "_CARDINAL_ROOT.txt" (map fst (files t))
   || Py.mem "_CARDINAL_ROOT.txt" (map fst (subdirs t)) = true)
  /\ _validate_signpost_content root [] (map fst (subdirs t)) (files t)
       "_CARDINAL_ROOT.txt" = (true, [])
  /\ forall rel dirnames fs,
       In (rel, dirnames, fs) (tracked t) ->
       exists name,
         filter is_signpost (map fst fs) = [name]
         /\ _validate_signpost_content root rel dirnames fs name = (true, []).
Proof.
  unfold validate_signposts. rewrite validate_run_spec.
  destruct (Py.mem "_CARDINAL_ROOT.txt" (map fst (files t))
            || Py.mem "_CARDINAL_ROOT.txt" (map fst (subdirs t)));
    cbn [negb fst]; [|discriminate].
  intros H.
  assert (E : (snd (_validate_signpost_content root [] (map fst (subdirs t))
                      (files t) "_CARDINAL_ROOT.txt")
               ++ flat_map (dir_issues root) (tracked t))%list = [])
    by (destruct (_ ++ _)%list; [reflexivity | discriminate]).
  apply app_eq_nil in E. destruct E as [Er Ed].
  assert (Hpass : forall rel dn fs name,
             snd (_validate_signpost_content root rel dn fs name) = [] ->
             _validate_signpost_content root rel dn fs name = (true, [])).
  { intros rel dn fs name Hs.
    pose proof (content_valid_iff root rel dn fs name) as Hv.
    destruct (_validate_signpost_content root rel dn fs name) as [v ci].
    cbn [fst snd] in *. subst ci v. reflexivity. }
  split; [reflexivity|]. split; [apply Hpass; exact Er|].
  intros rel dirnames fs Hin.
  assert (Hx : dir_issues root (rel, dirnames, fs) = []).
  { destruct (dir_issues root (rel, dirnames, fs)) as [|i l] eqn:Ei; [reflexivity|].
    assert (Hi : In i (flat_map (dir_issues root) (tracked t))).
    { apply in_flat_map. eexists. split; [exact Hin|]. rewrite Ei. left. reflexivity. }
    rewrite Ed in Hi. contradiction. }
  unfold dir_issues in Hx.
  destruct (filter is_signpost (map fst fs)) as [|first others]; [discriminate|].
  destruct others; [|discriminate]. exists first. split; [reflexivity|].
  apply Hpass. exact Hx.
Qed.

Lemma valid_project_witness :
  let t := MkDir [("_CARDINAL_ROOT.txt",
                   "ROOT: /p/" ++ Py.LF ++ "HERE: /p/" ++ Py.LF ++ "ROLE: root")]
             [("a", MkDir [("_CARDINAL_A.txt",
                            "ROOT: /p/" ++ Py.LF ++ "HERE: /p/a/" ++ Py.LF ++ "ROLE: A")] [])] in
  exists name,
    filter is_signpost ["_CARDINAL_A.txt"] = [name]
    /\ _validate_signpost_content ["p"] ["a"] []
         [("_CARDINAL_A.txt", "ROOT: /p/" ++ Py.LF ++ "HERE: /p/a/" ++ Py.LF ++ "ROLE: A")]
         name = (true, []).
Proof.
  intros t.
  exact (proj2 (proj2 (valid_project (PF := ascii_platform) ["p"] t eq_refl)) ["a"] [] _
           (or_introl eq_refl)).
Defined.

(** X5.  After [remove], [validate_signposts] returns false at its first
    check, with the missing-root issue and no other: nothing below the root
    is looked at.  (The root must not hold a directory named
    [_CARDINAL_ROOT.txt], which [remove] would leave in place.) *)
Theorem validate_after_remove {PF : Platform}
  (root : path) (t t' : dir) (removed : nat) :
  remove t = inr (t', removed) ->
  Py.mem "_CARDINAL_ROOT.txt" (map fst (subdirs t)) = false ->
  validate_signposts_run root t'
  = (false, ["Missing root signpost: " ++ path_str (root ++ ["_CARDINAL_ROOT.txt"])]).
Proof.
  intros Hr Hd. unfold remove in Hr.
  rewrite (remove_walk_spec t [] 0%nat) in Hr. injection Hr as <- _.
  rewrite validate_run_spec.
  assert (Hf : Py.mem "_CARDINAL_ROOT.txt" (map fst (files (without_signposts t))) = false).
  { destruct t as [fs sds]. cbn [without_signposts files]. clear. unfold Py.mem.
    induction fs as [|[n c] fs IH]; [reflexivity|]. cbn [filter fst].
    destruct (is_signpost n) eqn:Hn; cbn [negb]; [exact IH|].
    cbn [map existsb fst]. rewrite IH, orb_false_r.
    apply String.eqb_neq. intros <-. discriminate. }
  assert (Hs : map fst (subdirs (without_signposts t)) = map fst (subdirs t)).
  { destruct t as [fs sds]. cbn [without_signposts subdirs]. rewrite map_map.
    reflexivity. }
  rewrite Hf, Hs, Hd. reflexivity.
Qed.

Lemma validate_after_remove_witness :
  let t := MkDir [("_CARDINAL_ROOT.txt", "x"); ("notes", "n")]
             [("src", MkDir [("_CARDINAL_SRC.txt", "y")] [])] in
  validate_signposts_run ["p"] (MkDir [("notes", "n")] [("src", empty_dir)])
  = (false, ["Missing root signpost: /p/_CARDINAL_ROOT.txt"]).
Proof.
  intros t. apply (validate_after_remove (PF := ascii_platform)
      ["p"] t _ 2%nat); reflexivity.
Defined.

(** ** [create_signposts] and [remove] *)

Lemma without_store (n c : string) (fs : list (string * string)) :
  is_signpost n = true ->
  filter (fun f => negb (is_signpost (fst f))) (store_file n c fs)
  = filter (fun f => negb (is_signpost (fst f))) fs.
Proof.
  intros Hn. induction fs as [|[m x] fs IH]; cbn [store_file filter fst].
  - rewrite Hn. reflexivity.
  - destruct (String.eqb n m) eqn:E; cbn [filter fst].
    + apply String.eqb_eq in E. subst m. rewrite Hn. reflexivity.
    + rewrite IH. reflexivity.
Qed.

Lemma without_signposted {PF : Platform} (g : SignpostGenerator) (md : Z) (d : dir) :
  forall rel, without_signposts (signposted g md rel d) = without_signposts d.
Proof.
  induction d as [fs sds IH] using dir_tree_ind. intros rel.
  cbn [signposted without_signposts]. f_equal.
  - destruct (within_depth md rel); [|reflexivity].
    apply without_store, is_signpost_filename.
  - rewrite map_map. apply map_ext_Forall.
    eapply Forall_impl; [|exact IH]. intros [n sd] H. cbn [fst snd] in *.
    destruct (kept n); cbn [fst snd]; [rewrite H|]; reflexivity.
Qed.

Lemma without_root_written (g : SignpostGenerator) (t : dir) :
  without_signposts (root_written g t) = without_signposts t.
Proof.
  destruct t as [fs sds]. unfold root_written. cbn [without_signposts files subdirs].
  rewrite without_store by reflexivity. reflexivity.
Qed.

Lemma without_idem (d : dir) :
  without_signposts (without_signposts d) = without_signposts d.
Proof.
  induction d as [fs sds IH] using dir_tree_ind.
  cbn [without_signposts]. f_equal.
  - induction fs as [|[n c] fs IHf]; [reflexivity|].
    cbn [filter fst]. destruct (is_signpost n) eqn:Hn; cbn [negb filter fst];
      [exact IHf | rewrite Hn; cbn [negb]; rewrite IHf; reflexivity].
  - rewrite map_map. apply map_ext_Forall.
    eapply Forall_impl; [|exact IH]. intros [n sd] H. cbn [fst snd] in *.
    rewrite H. reflexivity.
Qed.

Lemma no_signpost_names (fs : list (string * string)) :
  List.length (filter is_signpost (map fst fs)) = 0%nat ->
  forallb (fun f => negb (is_signpost (fst f))) fs = true.
Proof.
  induction fs as [|[n c] fs IH]; [reflexivity|].
  cbn [map filter fst forallb]. destruct (is_signpost n); [discriminate|].
  exact IH.
Qed.

Lemma count_zero_parts (fs : list (string * string)) (sds : list (string * dir)) :
  count_signposts (MkDir fs sds) = 0%nat ->
  forallb (fun f => negb (is_signpost (fst f))) fs = true
  /\ Forall (fun x => count_signposts (snd x) = 0%nat) sds.
Proof.
  cbn [count_signposts]. intros H. apply Nat.eq_add_0 in H. destruct H as [H1 H2].
  split; [apply no_signpost_names; exact H1|].
  induction sds as [|x l IH]; constructor.
  - cbn [map] in H2. rewrite list_sum_cons in H2. lia.
  - apply IH. cbn [map] in H2. rewrite list_sum_cons in H2. lia.
Qed.

Lemma count_zero_without (d : dir) :
  count_signposts d = 0%nat -> without_signposts d = d.
Proof.
  induction d as [fs sds IH] using dir_tree_ind. intros H.
  destruct (count_zero_parts fs sds H) as [Hf Hs].
  cbn [without_signposts]. f_equal.
  - clear -Hf. induction fs as [|f fs IHf]; [reflexivity|].
    cbn [forallb filter] in *. apply andb_true_iff in Hf. destruct Hf as [H1 H2].
    rewrite H1, (IHf H2). reflexivity.
  - clear -IH Hs. induction sds as [|[n sd] l IHl]; [reflexivity|].
    inversion IH as [|? ? Hx Hl]; subst. inversion Hs as [|? ? Hc Hcl]; subst.
    cbn [map fst snd] in *. rewrite (Hx Hc), (IHl Hl Hcl). reflexivity.
Qed.

Lemma count_signposted {PF : Platform} (g : SignpostGenerator) (md : Z) (d : dir) :
  forall rel,
    count_signposts d = 0%nat ->
    count_signposts (signposted g md rel d)
    = List.length (markers (root_path g) md (os_walk kept rel d)).
Proof.
  induction d as [fs sds IH] using dir_tree_ind. intros rel H.
  destruct (count_zero_parts fs sds H) as [Hf Hs].
  cbn [signposted count_signposts os_walk]. rewrite markers_cons, length_app.
  cbn [fst]. f_equal.
  - destruct (within_depth md rel).
    + rewrite store_fresh by (exact Hf || apply is_signpost_filename). reflexivity.
    + apply Nat.eq_add_0 in H. destruct H as [H _]. exact H.
  - clear H Hf. rewrite map_map.
    induction sds as [|[n sd] l IHl]; [reflexivity|].
    inversion IH as [|? ? Hx Hl]; subst. inversion Hs as [|? ? Hc Hcl]; subst.
    cbn [map flat_map fst snd] in *.
    rewrite list_sum_cons, markers_app, length_app, (IHl Hl Hcl). f_equal.
    destruct (kept n); cbn [snd]; [apply Hx; exact Hc | exact Hc].
Qed.

(** X6.  On a tree that holds no signpost-named file, [remove] undoes
    [create_signposts]: it gives back the tree as it was and returns the
    number of paths [create_signposts] returned. *)
Theorem remove_undoes_create {PF : Platform}
  (g : SignpostGenerator) (md : Z) (t t' : dir)
  (created : list path) :
  count_signposts t = 0%nat ->
  create_signposts g md t = inr (t', created) ->
  remove t' = inr (t, List.length created).
Proof.
  intros Hz Hc. pose proof (create_signposts_spec g md t) as H.
  rewrite Hc in H. destruct H as (_ & -> & ->).
  unfold remove. rewrite remove_walk_spec. cbn [Nat.add]. f_equal. f_equal.
  - rewrite without_signposted, without_root_written.
    apply count_zero_without. exact Hz.
  - destruct t as [fs sds]. destruct (count_zero_parts fs sds Hz) as [Hf Hs].
    unfold root_written, tracked. cbn [files subdirs signposted count_signposts os_walk tl].
    replace (within_depth md []) with false by reflexivity.
    rewrite store_fresh by (exact Hf || reflexivity).
    cbn [List.length].
    pose proof (count_signposted g md (MkDir [] sds) []) as Hn.
    cbn [signposted count_signposts os_walk] in Hn.
    replace (within_depth md []) with false in Hn by reflexivity.
    rewrite markers_cons in Hn. cbn [fst] in Hn.
    replace (within_depth md []) with false in Hn by reflexivity.
    cbn [List.length app Nat.add filter map] in Hn.
    apply Nat.eq_add_0 in Hz. destruct Hz as [_ Hz].
    exact (f_equal S (Hn Hz)).
Qed.

Lemma remove_undoes_create_witness :
  exists t',
    create_signposts (default_generator ["tmp"; "test_project"]) 10 temp_project
    = inr (t', [["tmp"; "test_project"; "_CARDINAL_ROOT.txt"];
                ["tmp"; "test_project"; "src"; "_CARDINAL_SRC.txt"];
                ["tmp"; "test_project"; "src"; "models"; "_CARDINAL_SRC_MODELS.txt"];
                ["tmp"; "test_project"; "tests"; "_CARDINAL_TESTS.txt"];
                ["tmp"; "test_project"; "config"; "_CARDINAL_CONFIG.txt"]])
    /\ remove t' = inr (temp_project, 5%nat).
Proof.
  eexists. split; [vm_compute; reflexivity|].
  match goal with
  | |- remove ?t' = _ =>
      exact (remove_undoes_create (PF := ascii_platform)
          (default_generator ["tmp"; "test_project"]) 10
               temp_project t' _ eq_refl ltac:(vm_compute; reflexivity))
  end.
Defined.

(** ** [update] *)

Lemma update_spec {PF : Platform} (g : SignpostGenerator) (t : dir) :
  update g t = create_signposts g 10 (without_signposts t).
Proof.
  unfold update, remove. rewrite remove_walk_spec. reflexivity.
Qed.

Lemma depth_without (d : dir) : depth (without_signposts d) = depth d.
Proof.
  induction d as [fs sds IH] using dir_tree_ind.
  cbn [without_signposts depth].
  induction IH as [|[n sd] l Hx _ IHl]; [reflexivity|].
  cbn [map fold_right fst snd] in *. rewrite Hx, IHl. reflexivity.
Qed.

(** X7.  [update] is idempotent: run again on the tree it left, it returns
    the same paths and leaves the same tree, byte for byte, also with
    [include_tree = true] (the root signpost is rendered after the old
    signposts have been removed). *)
Theorem update_twice {PF : Platform}
  (g : SignpostGenerator) (t t1 : dir) (created : list path) :
  update g t = inr (t1, created) -> update g t1 = inr (t1, created).
Proof.
  intros Hu. rewrite update_spec in Hu |- *.
  pose proof (create_signposts_spec g 10 (without_signposts t)) as H.
  rewrite Hu in H. destruct H as (_ & Ht & _).
  rewrite Ht at 1.
  rewrite without_signposted, without_root_written, without_idem. exact Hu.
Qed.

Lemma update_twice_witness :
  let g := {| root_path := ["proj"]; format := "txt"; include_rules := true;
              include_tree := true; custom_rules := [] |} in
  let t := MkDir [("_CARDINAL_OLD.txt", "stale")] [("src", empty_dir)] in
  exists t1 created, update g t = inr (t1, created) /\ update g t1 = inr (t1, created).
Proof.
  intros g t. eexists. eexists. split; [vm_compute; reflexivity|].
  match goal with
  | |- update g ?t1 = inr (_, ?c) =>
      exact (update_twice (PF := ascii_platform) g t t1 c ltac:(vm_compute; reflexivity))
  end.
Defined.

(** X8.  [update] repairs a project: whatever signpost-named files the tree
    holds, stale, duplicated or misplaced, if the tree is otherwise
    well-named (no directory with a signpost name, tracked directory names
    clean), at most 10 deep, and the root is well-named and not [/], then,
    on a platform that takes the signposts of the tree and decodes their
    texts and whose [strip] leaves a path between slashes alone, [update]
    returns and the tree it leaves is valid. *)
Theorem update_repairs {PF : Platform} (g : SignpostGenerator) (t : dir) :
  strip_keeps_paths -> platform_serves g (without_signposts t) ->
  root_path g <> [] ->
  Forall (fun s => segment_ok s = true) (root_path g) ->
  fresh (without_signposts t) = true -> (depth t <= 10)%nat ->
  exists t' created, update g t = inr (t', created) /\ validate g t' = true.
Proof.
  intros Hstrip Hserve Hne Hs Hf Hd. rewrite update_spec.
  destruct (signposted_valid g 10 (without_signposts t) Hstrip Hserve Hne Hs Hf)
    as [Hc Hv].
  { rewrite depth_without. lia. }
  pose proof (create_signposts_spec g 10 (without_signposts t)) as H.
  destruct (create_signposts g 10 (without_signposts t)) as [e|[t' created]];
    [congruence|].
  destruct H as (_ & -> & _). eexists. eexists. split; [reflexivity|].
  unfold validate, validate_signposts. rewrite Hv. reflexivity.
Qed.

Lemma update_repairs_witness :
  let t := MkDir [("_CARDINAL_ROOT.txt", "broken")]
             [("src", MkDir [("_CARDINAL_A.txt", "a"); ("_CARDINAL_B.txt", "b")] []);
              ("docs", empty_dir)] in
  validate_signposts ["proj"] t = false
  /\ exists t' created,
       update (default_generator ["proj"]) t = inr (t', created)
       /\ validate (default_generator ["proj"]) t' = true.
Proof.
  intros t. split; [reflexivity|].
  apply (update_repairs (PF := ascii_platform) (default_generator ["proj"]) t).
  - exact ascii_strip_keeps_paths.
  - apply ascii_platform_serves.
  - discriminate.
  - repeat constructor.
  - reflexivity.
  - cbn. lia.
Defined.

(** ** Coverage *)

Lemma coverage_walk_subdirs (rel : path) (sds : list (string * dir)) :
  Forall (fun x => forall rel st,
              walk kept coverage_body rel (snd x) st
              = inr (snd x,
                     ((fst st + List.length (os_walk kept rel (snd x)))%nat,
                      (snd st + List.length (filter has_signpost
                                               (os_walk kept rel (snd x))))%nat))) sds ->
  forall st,
    walk_subdirs kept (walk kept coverage_body) rel sds st
    = inr (sds,
           ((fst st
             + List.length (flat_map (fun x => if kept (fst x)
                                               then os_walk kept (rel ++ [fst x]) (snd x)
                                               else []) sds))%nat,
            (snd st
             + List.length
                 (filter has_signpost
                    (flat_map (fun x => if kept (fst x)
                                        then os_walk kept (rel ++ [fst x]) (snd x)
                                        else []) sds)))%nat)).
Proof.
  induction 1 as [|[n sd] l Hx _ IH]; intros [a b]; cbn [walk_subdirs flat_map fst snd].
  - rewrite !Nat.add_0_r. reflexivity.
  - cbn [snd] in Hx. destruct (kept n).
    + rewrite Hx, IH. cbn [fst snd].
      rewrite filter_app, !length_app, !Nat.add_assoc. reflexivity.
    + rewrite IH. reflexivity.
Qed.

Lemma coverage_walk_spec (d : dir) :
  forall rel st,
    walk kept coverage_body rel d st
    = inr (d, ((fst st + List.length (os_walk kept rel d))%nat,
               (snd st + List.length (filter has_signpost (os_walk kept rel d)))%nat)).
Proof.
  induction d as [fs sds IH] using dir_tree_ind. intros rel [a b].
  rewrite walk_eq. unfold coverage_body at 1. cbn [fst snd].
  rewrite (coverage_walk_subdirs rel sds IH). cbn [fst snd os_walk filter].
  unfold has_signpost at 2. cbn [snd List.length].
  destruct (existsb is_signpost (map fst fs)); cbn [List.length];
    rewrite ?Nat.add_succ_r; reflexivity.
Qed.

Lemma coverage_counts_spec (t : dir) :
  coverage_counts (Some t)
  = (List.length (os_walk kept [] t),
     List.length (filter has_signpost (os_walk kept [] t))).
Proof. unfold coverage_counts. rewrite coverage_walk_spec. reflexivity. Qed.

Lemma percent_full (n : nat) :
  (0 < n)%nat -> QArith_base.Qeq (percent n n) (QArith_base.inject_Z 100).
Proof.
  intros H. destruct n as [|k]; [lia|].
  unfold percent, QArith_base.Qeq, QArith_base.Qdiv, QArith_base.Qmult,
    QArith_base.Qinv, QArith_base.inject_Z.
  cbn [Z.of_nat QArith_base.Qnum QArith_base.Qden]. lia.
Qed.



Lemma os_walk_depth (keep : string -> bool) (d : dir) :
  forall rel x,
    In x (os_walk keep rel d) ->
    (List.length (fst (fst x)) <= List.length rel + depth d)%nat.
Proof.
  induction d as [fs sds IH] using dir_tree_ind. intros rel x Hx.
  cbn [os_walk] in Hx. destruct Hx as [<-|Hx]; [cbn [fst]; lia|].
  apply in_flat_map in Hx. destruct Hx as ([n sd] & Hin & Hx).
  cbn [fst snd] in Hx. destruct (keep n); [|contradiction].
  rewrite Forall_forall in IH. specialize (IH _ Hin (rel ++ [n])%list x Hx).
  pose proof (depth_child fs sds (n, sd) Hin) as Hd. cbn [snd] in *.
  rewrite length_app in IH. cbn [List.length] in IH. lia.
Qed.

Lemma mem_signpost (n : string) (names : list string) :
  Py.mem n names = true -> is_signpost n = true -> existsb is_signpost names = true.
Proof.
  unfold Py.mem. intros Hm Hn. apply existsb_exists in Hm.
  destruct Hm as (m & Hin & E). apply String.eqb_eq in E. subst m.
  apply existsb_exists. exists n. auto.
Qed.

Lemma os_walk_signposted_has {PF : Platform}
  (g : SignpostGenerator) (md : Z) (d : dir) :
  forall rel x,
    In x (os_walk kept rel (signposted g md rel d)) ->
    within_depth md (fst (fst x)) = true -> has_signpost x = true.
Proof.
  induction d as [fs sds IH] using dir_tree_ind. intros rel x Hx Hw.
  cbn [signposted os_walk] in Hx. destruct Hx as [<-|Hx].
  - cbn [fst] in Hw. rewrite Hw. unfold has_signpost. cbn [snd].
    apply (mem_signpost (signpost_filename rel));
      [apply store_names_mem | apply is_signpost_filename].
  - apply in_flat_map in Hx. destruct Hx as (y & Hy & Hx).
    apply in_map_iff in Hy. destruct Hy as ([n sd] & <- & Hin).
    cbn [fst snd] in Hx. destruct (kept n) eqn:Hk; cbn [fst snd] in Hx;
      rewrite Hk in Hx; [|contradiction].
    rewrite Forall_forall in IH. exact (IH _ Hin _ x Hx Hw).
Qed.

Lemma filter_all {A : Type} (f : A -> bool) (l : list A) :
  (forall x, In x l -> f x = true) -> filter f l = l.
Proof.
  intros H. apply forallb_filter_id. apply forallb_forall. exact H.
Qed.

Lemma filter_none {A : Type} (f : A -> bool) (l : list A) :
  (forall x, In x l -> f x = false) -> filter f l = [].
Proof.
  induction l as [|a l IH]; intros H; [reflexivity|].
  cbn [filter]. rewrite (H a (or_introl eq_refl)). apply IH.
  intros x Hx. apply H. right. exact Hx.
Qed.

(** X10.  After [create_signposts] with a depth limit that covers the
    tree, every directory [check_signpost_coverage] counts has a signpost:
    the coverage is 100. *)
Theorem coverage_after_create {PF : Platform}
  (g : SignpostGenerator) (md : Z) (t t' : dir)
  (created : list path) :
  create_signposts g md t = inr (t', created) ->
  (Z.of_nat (depth t) <= md)%Z ->
  snd (coverage_counts (Some t')) = fst (coverage_counts (Some t'))
  /\ QArith_base.Qeq (check_signpost_coverage (Some t')) (QArith_base.inject_Z 100).
Proof.
  intros Hc Hd. pose proof (create_signposts_spec g md t) as H.
  rewrite Hc in H. destruct H as (_ & Ht & _).
  assert (Hall : forall x, In x (os_walk kept [] t') -> has_signpost x = true).
  { intros x Hx. rewrite Ht in Hx.
    assert (Hlen : (List.length (fst (fst x)) <= depth t)%nat).
    { pose proof (in_map (fun x => fst (fst x)) _ _ Hx) as Hp.
      rewrite os_walk_signposted_paths in Hp.
      replace (map (fun x => fst (fst x)) (os_walk kept [] (root_written g t)))
        with (map (fun x => fst (fst x)) (os_walk kept [] t)) in Hp
        by (destruct t; reflexivity).
      apply in_map_iff in Hp. destruct Hp as (z & Ez & Hz).
      rewrite <- Ez. apply (os_walk_depth kept t [] z Hz). }
    destruct (fst (fst x)) as [|s r] eqn:Ep.
    - assert (Ex : x = ([], map fst (subdirs (signposted g md [] (root_written g t))),
                        files (signposted g md [] (root_written g t)))).
      { destruct (signposted g md [] (root_written g t)) as [fs' sds'] eqn:E.
        cbn [os_walk] in Hx. destruct Hx as [<-|Hx]; [reflexivity|].
        apply in_flat_map in Hx. destruct Hx as ([n sd] & _ & Hx).
        cbn [fst snd] in Hx. destruct (kept n); [|contradiction].
        apply os_walk_paths in Hx. destruct Hx as (q & Eq & _).
        rewrite Ep in Eq. discriminate. }
      rewrite Ex. unfold has_signpost, root_written. cbn [snd signposted files].
      replace (within_depth md []) with false by reflexivity.
      apply (mem_signpost "_CARDINAL_ROOT.txt"); [apply store_names_mem | reflexivity].
    - apply (os_walk_signposted_has g md (root_written g t) [] x Hx).
      rewrite Ep in *. apply within_depth_iff. split; [discriminate|].
      cbn [List.length] in *. lia. }
  unfold check_signpost_coverage. rewrite coverage_counts_spec.
  rewrite (filter_all _ _ Hall). cbn [fst snd]. split; [reflexivity|].
  assert (Hpos : (0 < List.length (os_walk kept [] t'))%nat)
    by (destruct t'; cbn; lia).
  destruct (List.length (os_walk kept [] t')) as [|k] eqn:E; [lia|].
  cbn [Nat.eqb]. apply percent_full. lia.
Qed.

Lemma coverage_after_create_witness :
  exists t' created,
    create_signposts (default_generator ["tmp"; "test_project"]) 10 temp_project
    = inr (t', created)
    /\ snd (coverage_counts (Some t')) = fst (coverage_counts (Some t')).
Proof.
  eexists. eexists. split; [vm_compute; reflexivity|].
  match goal with
  | |- snd (coverage_counts (Some ?t')) = _ =>
      exact (proj1 (coverage_after_create (PF := ascii_platform)
                      (default_generator ["tmp"; "test_project"]) 10
                      temp_project t' _ ltac:(vm_compute; reflexivity)
                      ltac:(cbn; lia)))
  end.
Defined.

Lemma os_walk_without (keep : string -> bool) (d : dir) :
  forall rel x,
    In x (os_walk keep rel (without_signposts d)) -> has_signpost x = false.
Proof.
  induction d as [fs sds IH] using dir_tree_ind. intros rel x Hx.
  cbn [without_signposts os_walk] in Hx. destruct Hx as [<-|Hx].
  - unfold has_signpost. cbn [snd].
    pose proof (filter_signpost_gone fs) as Hg.
    destruct (existsb is_signpost
                (map fst (filter (fun f => negb (is_signpost (fst f))) fs))) eqn:E;
      [|reflexivity].
    apply existsb_exists in E. destruct E as (n & Hn & Hs).
    assert (Hin : In n (filter is_signpost
                          (map fst (filter (fun f => negb (is_signpost (fst f))) fs))))
      by (apply filter_In; auto).
    rewrite Hg in Hin. contradiction.
  - apply in_flat_map in Hx. destruct Hx as (y & Hy & Hx).
    apply in_map_iff in Hy. destruct Hy as ([n sd] & <- & Hin).
    cbn [fst snd] in Hx. destruct (keep n); [|contradiction].
    rewrite Forall_forall in IH. exact (IH _ Hin _ x Hx).
Qed.

(** X11.  After [remove], no directory [check_signpost_coverage] counts has
    a signpost: the coverage is 0. *)
Theorem coverage_after_remove (t t' : dir) (removed : nat) :
  remove t = inr (t', removed) ->
  snd (coverage_counts (Some t')) = 0%nat
  /\ QArith_base.Qeq (check_signpost_coverage (Some t')) (QArith_base.inject_Z 0).
Proof.
  intros Hr. unfold remove in Hr. rewrite remove_walk_spec in Hr.
  injection Hr as <- _.
  unfold check_signpost_coverage. rewrite coverage_counts_spec.
  rewrite (filter_none _ _ (os_walk_without kept t [])). cbn [snd List.length].
  split; [reflexivity|].
  destruct (List.length (os_walk kept [] (without_signposts t))) as [|k];
    [reflexivity|].
  cbn [Nat.eqb]. unfold percent, QArith_base.Qeq, QArith_base.Qdiv,
    QArith_base.Qmult, QArith_base.Qinv, QArith_base.inject_Z.
  cbn [Z.of_nat QArith_base.Qnum QArith_base.Qden]. lia.
Qed.

Lemma coverage_after_remove_witness :
  let t := MkDir [("_CARDINAL_ROOT.txt", "r")]
             [("src", MkDir [("_CARDINAL_SRC.txt", "s")] [])] in
  coverage_counts (Some t) = (2%nat, 2%nat)
  /\ snd (coverage_counts (Some (MkDir [] [("src", empty_dir)]))) = 0%nat.
Proof.
  intros t. split; [reflexivity|].
  exact (proj1 (coverage_after_remove t _ 2%nat eq_refl)).
Defined.

(** ** The root signpost *)

(** X12.  The custom rules passed at construction are in the root signpost
    that [create_signposts] writes: after a line [CUSTOM RULES:], one line
    [- key: value] per rule, in the order of the mapping, then an empty
    line. *)
Theorem custom_rules_in_root_signpost {PF : Platform} (g : SignpostGenerator) (md : Z)
  (t t' : dir) (created : list path) :
  create_signposts g md t = inr (t', created) ->
  custom_rules g <> [] ->
  exists before after,
    file_at t' [] "_CARDINAL_ROOT.txt"
    = Some (Py.join Py.LF
              (before
               ++ "CUSTOM RULES:"
                  :: map (fun kv => "- " ++ fst kv ++ ": " ++ snd kv)%string
                       (custom_rules g)
               ++ EmptyString :: after)).
Proof.
  intros Hc Hr. pose proof (create_signposts_spec g md t) as H.
  rewrite Hc in H. destruct H as (_ & -> & _).
  rewrite root_signpost_text. unfold _generate_root_content.
  destruct (custom_rules g) as [|r rules]; [congruence|].
  destruct (include_rules g), (include_tree g);
    match goal with
    | |- exists _ _, Some (Py.join _ ((?A ++ ["CUSTOM RULES:"] ++ _) ++ ?T)%list) = _ =>
        exists A, T
    | |- exists _ _, Some (Py.join _ (?A ++ ["CUSTOM RULES:"] ++ _)%list) = _ =>
        exists A, []
    end;
    rewrite <- ?app_assoc; reflexivity.
Qed.

Lemma custom_rules_in_root_signpost_witness :
  let g := {| root_path := ["proj"]; format := "txt"; include_rules := false;
              include_tree := false;
              custom_rules := [("RULE_1", "No duplicate configs");
                               ("RULE_2", "Use absolute imports")] |} in
  exists t' created before after,
    create_signposts g 10 empty_dir = inr (t', created)
    /\ file_at t' [] "_CARDINAL_ROOT.txt"
       = Some (Py.join Py.LF
                 (before
                  ++ ["CUSTOM RULES:"; "- RULE_1: No duplicate configs";
                      "- RULE_2: Use absolute imports"; EmptyString]
                  ++ after)).
Proof.
  intros g. eexists. eexists.
  match goal with
  | |- exists b a, create_signposts g ?md ?t = inr (?t', ?c) /\ _ =>
      destruct (custom_rules_in_root_signpost (PF := ascii_platform) g md t t' c
                  ltac:(vm_compute; reflexivity) ltac:(discriminate))
        as (before & after & H)
  end.
  exists before, after. split; [vm_compute; reflexivity | exact H].
Defined.

(** ** When [create_signposts] raises *)

Lemma taken_name_not_writable {PF : Platform} (g : SignpostGenerator) (md : Z)
  (d : dir) :
  forall rel x,
    In x (os_walk kept rel d) ->
    within_depth md (fst (fst x)) = true ->
    Py.mem (signpost_filename (fst (fst x))) (snd (fst x)) = true ->
    writable g md rel d = false.
Proof.
  induction d as [fs sds IH] using dir_tree_ind. intros rel x Hx Hw Hm.
  cbn [writable os_walk] in *. rewrite Forall_forall in IH.
  apply andb_false_iff. destruct Hx as [<-|Hx].
  - left. cbn [fst snd] in *. unfold signpost_writable. rewrite Hw, Hm. reflexivity.
  - right. apply in_flat_map in Hx. destruct Hx as (y & Hy & Hx).
    destruct (kept (fst y)) eqn:Hk; [|contradiction].
    pose proof (IH y Hy _ x Hx Hw Hm) as Hwy.
    clear IH. induction sds as [|z l IHl]; [contradiction|].
    cbn [forallb]. apply andb_false_iff. destruct Hy as [->|Hy].
    + left. rewrite Hk. exact Hwy.
    + right. apply IHl. exact Hy.
Qed.

(** X13.  [create_signposts] raises when the name of a signpost it has to
    write is taken by a directory: [_CARDINAL_ROOT.txt] in the root, or the
    derived name in a tracked directory within the depth limit.  (It can
    raise for other reasons: the platform may refuse a write.) *)
Theorem create_raises_on_taken_name {PF : Platform} (g : SignpostGenerator)
  (md : Z) (t : dir) :
  Py.mem "_CARDINAL_ROOT.txt" (map fst (subdirs t)) = true
  \/ (exists rel dirnames fs,
         In (rel, dirnames, fs) (tracked t)
         /\ within_depth md rel = true
         /\ Py.mem (signpost_filename rel) dirnames = true) ->
  exists e, create_signposts g md t = inl e.
Proof.
  intros Hc. pose proof (create_signposts_spec g md t) as H.
  assert (E : creatable g md t = false).
  { unfold creatable. destruct Hc as [Hm|(rel & dn & fs & Hin & Hw & Hm)].
    - rewrite Hm. reflexivity.
    - rewrite (taken_name_not_writable g md t [] (rel, dn, fs));
        [apply andb_false_r | apply tracked_in_walk; exact Hin | exact Hw | exact Hm]. }
  destruct (create_signposts g md t) as [e|[t' c]]; [eauto|].
  destruct H as (H & _). congruence.
Qed.

Lemma create_raises_on_taken_name_witness :
  let t := MkDir [] [("src", MkDir [] [("_CARDINAL_SRC.txt", empty_dir)])] in
  exists e, create_signposts (default_generator ["proj"]) 10 t = inl e.
Proof.
  intros t.
  apply (create_raises_on_taken_name (PF := ascii_platform)
           (default_generator ["proj"]) 10 t).
  right. exists ["src"], ["_CARDINAL_SRC.txt"], []. repeat split. left. reflexivity.
Defined.

(** ** Sorting a listing by name *)

Lemma leb_trans (a b c : string) :
  String.leb a b = true -> String.leb b c = true -> String.leb a c = true.
Proof.
  unfold String.leb.
  destruct (String.compare a b) eqn:E1; [| |discriminate];
    destruct (String.compare b c) eqn:E2; try discriminate; intros _ _.
  - apply OrderedTypeEx.String_as_OT.cmp_eq in E1, E2. subst.
    rewrite (proj2 (OrderedTypeEx.String_as_OT.cmp_eq c c) eq_refl : String.compare c c = Eq).
    reflexivity.
  - apply OrderedTypeEx.String_as_OT.cmp_eq in E1. subst. rewrite E2. reflexivity.
  - apply OrderedTypeEx.String_as_OT.cmp_eq in E2. subst. rewrite E1. reflexivity.
  - apply OrderedTypeEx.String_as_OT.cmp_lt in E1, E2.
    pose proof (OrderedTypeEx.String_as_OT.lt_trans _ _ _ E1 E2) as H.
    apply OrderedTypeEx.String_as_OT.cmp_lt in H.
    rewrite (H : String.compare a c = Lt). reflexivity.
Qed.

Section SortByName.
Context {A : Type}.
Implicit Types (x y : string * A) (l : list (string * A)).

Lemma insert_in x y l : In y (Py.insert_by_name x l) <-> y = x \/ In y l.
Proof.
  induction l as [|z l IH]; cbn [Py.insert_by_name].
  - cbn. intuition.
  - destruct (String.leb (fst x) (fst z)); cbn [In]; [intuition|].
    rewrite IH. intuition.
Qed.

Lemma insert_sorted x l : name_sorted l -> name_sorted (Py.insert_by_name x l).
Proof.
  unfold name_sorted. induction 1 as [|z l Hl IH Hz]; cbn [Py.insert_by_name].
  - constructor; constructor.
  - destruct (String.leb (fst x) (fst z)) eqn:E.
    + constructor; [constructor; assumption|]. constructor; [exact E|].
      eapply Forall_impl; [|exact Hz]. intros w Hw. cbn in Hw.
      apply (leb_trans _ _ _ E Hw).
    + constructor; [exact IH|]. apply Forall_forall. intros w Hw.
      apply insert_in in Hw. destruct Hw as [->|Hw].
      * destruct (String.leb_total (fst x) (fst z)) as [H|H]; [congruence | exact H].
      * rewrite Forall_forall in Hz. exact (Hz w Hw).
Qed.

Lemma sorted_by_name_sorted l : name_sorted (Py.sorted_by_name l).
Proof.
  induction l as [|x l IH]; cbn [Py.sorted_by_name]; [constructor|].
  apply insert_sorted. exact IH.
Qed.

Lemma insert_perm x l : Permutation (Py.insert_by_name x l) (x :: l).
Proof.
  induction l as [|z l IH]; cbn [Py.insert_by_name]; [reflexivity|].
  destruct (String.leb (fst x) (fst z)); [reflexivity|].
  rewrite IH. apply perm_swap.
Qed.

Lemma sorted_by_name_perm l : Permutation (Py.sorted_by_name l) l.
Proof.
  induction l as [|x l IH]; cbn [Py.sorted_by_name]; [reflexivity|].
  rewrite insert_perm, IH. reflexivity.
Qed.

Lemma insert_front x l :
  Forall (fun y => String.leb (fst x) (fst y) = true) l ->
  Py.insert_by_name x l = x :: l.
Proof.
  destruct l as [|z l]; [reflexivity|]. intros H. inversion H as [|? ? Hz _]; subst.
  cbn [Py.insert_by_name]. rewrite Hz. reflexivity.
Qed.

(** Filtering commutes with the sort. *)
Lemma filter_insert (p : string * A -> bool) x l :
  name_sorted l ->
  filter p (Py.insert_by_name x l)
  = if p x then Py.insert_by_name x (filter p l) else filter p l.
Proof.
  unfold name_sorted. induction 1 as [|z l Hl IH Hz]; cbn [Py.insert_by_name filter].
  - destruct (p x); reflexivity.
  - destruct (String.leb (fst x) (fst z)) eqn:E; cbn [filter].
    + destruct (p x); [|reflexivity]. symmetry. apply insert_front.
      assert (Hall : Forall (fun y => String.leb (fst x) (fst y) = true) (z :: l)).
      { constructor; [exact E|]. eapply Forall_impl; [|exact Hz].
        intros w Hw. cbn in Hw. apply (leb_trans _ _ _ E Hw). }
      apply Forall_forall. intros w Hw.
      change (In w (filter p (z :: l))) in Hw. apply filter_In in Hw.
      rewrite Forall_forall in Hall. apply Hall. tauto.
    + rewrite IH. destruct (p z), (p x); cbn [Py.insert_by_name]; rewrite ?E;
        reflexivity.
Qed.

Lemma filter_sorted_by_name (p : string * A -> bool) l :
  filter p (Py.sorted_by_name l) = Py.sorted_by_name (filter p l).
Proof.
  induction l as [|x l IH]; [reflexivity|]. cbn [Py.sorted_by_name filter].
  rewrite filter_insert by apply sorted_by_name_sorted.
  rewrite IH. destruct (p x); reflexivity.
Qed.

(** Two sorted listings of the same entries, with unique names, are the
    same list. *)
Lemma sorted_perm_eq l1 :
  forall l2,
    name_sorted l1 -> name_sorted l2 -> Permutation l1 l2 ->
    NoDup (map fst l1) -> l1 = l2.
Proof.
  unfold name_sorted. induction l1 as [|x l1 IH]; intros l2 H1 H2 Hp Hn.
  - apply Permutation_nil in Hp. congruence.
  - destruct l2 as [|y l2]; [apply Permutation_sym, Permutation_nil in Hp; discriminate|].
    inversion H1 as [|? ? Hs1 Hx]; subst. inversion H2 as [|? ? Hs2 Hy]; subst.
    assert (Exy : x = y).
    { assert (Hyin : In y (x :: l1))
        by (eapply Permutation_in; [apply Permutation_sym; exact Hp | left; reflexivity]).
      assert (Hxin : In x (y :: l2))
        by (eapply Permutation_in; [exact Hp | left; reflexivity]).
      destruct Hyin as [E|Hyin]; [exact E|].
      destruct Hxin as [E|Hxin]; [congruence|].
      rewrite Forall_forall in Hx, Hy.
      pose proof (Hx y Hyin) as Hle1. pose proof (Hy x Hxin) as Hle2.
      assert (En : fst x = fst y).
      { apply OrderedTypeEx.String_as_OT.cmp_eq.
        unfold OrderedTypeEx.String_as_OT.cmp.
        unfold String.leb in Hle1, Hle2.
        rewrite String.compare_antisym in Hle2.
        destruct (String.compare (fst x) (fst y)); [reflexivity| |]; discriminate. }
      exfalso. cbn [map] in Hn. inversion Hn as [|? ? Hnot _]; subst.
      apply Hnot. rewrite En. apply in_map. exact Hyin. }
    subst y. f_equal. apply IH; try assumption.
    + eapply Permutation_cons_inv. exact Hp.
    + cbn [map] in Hn. inversion Hn; assumption.
Qed.

Lemma sorted_by_name_unique l1 l2 :
  Permutation l1 l2 -> NoDup (map fst l1) ->
  Py.sorted_by_name l1 = Py.sorted_by_name l2.
Proof.
  intros Hp Hn. apply sorted_perm_eq; try apply sorted_by_name_sorted.
  - rewrite !sorted_by_name_perm. exact Hp.
  - eapply Permutation_NoDup; [|exact Hn].
    apply Permutation_map, Permutation_sym, sorted_by_name_perm.
Qed.
End SortByName.

Lemma insert_map {A B : Type} (h : string * A -> string * B) (x : string * A)
  (l : list (string * A)) :
  (forall y, fst (h y) = fst y) ->
  Py.insert_by_name (h x) (map h l) = map h (Py.insert_by_name x l).
Proof.
  intros Hh. induction l as [|z l IH]; [reflexivity|].
  cbn [map Py.insert_by_name]. rewrite !Hh.
  destruct (String.leb (fst x) (fst z)); [reflexivity|].
  cbn [map]. rewrite IH. reflexivity.
Qed.

Lemma sorted_by_name_map {A B : Type} (h : string * A -> string * B)
  (l : list (string * A)) :
  (forall y, fst (h y) = fst y) ->
  Py.sorted_by_name (map h l) = map h (Py.sorted_by_name l).
Proof.
  intros Hh. induction l as [|x l IH]; [reflexivity|].
  cbn [map Py.sorted_by_name]. rewrite IH. apply insert_map. exact Hh.
Qed.

Lemma insert_Forall2 {A B : Type} (R : string * A -> string * B -> Prop)
  (x : string * A) (y : string * B) (l : list (string * A)) (l' : list (string * B)) :
  (forall a b, R a b -> fst a = fst b) ->
  R x y -> Forall2 R l l' ->
  Forall2 R (Py.insert_by_name x l) (Py.insert_by_name y l').
Proof.
  intros Hn Hxy H. induction H as [|a b l l' Hab Hl IH]; cbn [Py.insert_by_name].
  - constructor; [exact Hxy | constructor].
  - rewrite (Hn _ _ Hxy), (Hn _ _ Hab).
    destruct (String.leb (fst y) (fst b)); constructor; auto.
Qed.

Lemma sorted_by_name_Forall2 {A B : Type} (R : string * A -> string * B -> Prop)
  (l : list (string * A)) (l' : list (string * B)) :
  (forall a b, R a b -> fst a = fst b) ->
  Forall2 R l l' -> Forall2 R (Py.sorted_by_name l) (Py.sorted_by_name l').
Proof.
  intros Hn H. induction H as [|a b l l' Hab Hl IH]; cbn [Py.sorted_by_name];
    [constructor|].
  apply insert_Forall2; assumption.
Qed.

Lemma filter_Forall2 {A B : Type} (R : A -> B -> Prop) (p : A -> bool) (q : B -> bool)
  (l : list A) (l' : list B) :
  (forall a b, R a b -> p a = q b) ->
  Forall2 R l l' -> Forall2 R (filter p l) (filter q l').
Proof.
  intros Hpq H. induction H as [|a b l l' Hab Hl IH]; cbn [filter]; [constructor|].
  rewrite (Hpq _ _ Hab). destruct (q b); [constructor|]; assumption.
Qed.

Lemma filter_map_names {A B : Type} (h : string * A -> string * B)
  (p : string -> bool) (l : list (string * A)) :
  (forall y, fst (h y) = fst y) ->
  filter (fun i => p (fst i)) (map h l) = map h (filter (fun i => p (fst i)) l).
Proof.
  intros Hh. induction l as [|x l IH]; [reflexivity|].
  cbn [map filter]. rewrite Hh, IH. destruct (p (fst x)); reflexivity.
Qed.

Lemma filter_filter {A : Type} (p : A -> bool) (l : list A) :
  filter p (filter p l) = filter p l.
Proof.
  induction l as [|x l IH]; [reflexivity|]. cbn [filter].
  destruct (p x) eqn:E; cbn [filter]; rewrite ?E, IH; reflexivity.
Qed.

(** ** The tree renderer *)

(** Listings that agree entry by entry render the same lines, when the
    agreement passes down to the directories. *)
Lemma build_tree_same (R : nat -> dir -> dir -> Prop) :
  (forall k d d', R (S k) d d' ->
                  Forall2 (same_item (R k)) (tree_items d) (tree_items d')) ->
  forall k d d' prefix, R k d d' -> build_tree k d prefix = build_tree k d' prefix.
Proof.
  intros HR. induction k as [|k IH]; intros d d' prefix Hd; [reflexivity|].
  cbn [build_tree]. pose proof (HR k d d' Hd) as F.
  induction F as [|[n sub] [n' sub'] l l' [Hn Hs] Hl IHl]; [reflexivity|].
  cbn [fst snd] in Hn, Hs. subst n'.
  assert (Hlast : match l with [] => true | _ => false end
                  = match l' with [] => true | _ => false end)
    by (destruct Hl; reflexivity).
  rewrite Hlast, IHl. f_equal.
  - destruct sub, sub'; try contradiction; reflexivity.
  - f_equal. destruct sub as [sd|], sub' as [sd'|]; try contradiction; [|reflexivity].
    apply IH. exact Hs.
Qed.

Lemma tree_items_visible (k : nat) (d : dir) :
  tree_items (visible (S k) d)
  = map (fun i => (fst i, option_map (visible k) (snd i))) (tree_items d).
Proof.
  unfold tree_items. cbn [visible files subdirs].
  set (nh := fun i : string * option dir => negb (tree_hidden (fst i))).
  set (V := fun i : string * option dir => (fst i, option_map (visible k) (snd i))).
  rewrite filter_app, (filter_app nh), map_app. f_equal.
  - rewrite map_map. cbn [fst snd].
    rewrite <- (map_map (fun x : string * dir => (fst x, Some (snd x))) V).
    rewrite (sorted_by_name_map V) by reflexivity.
    unfold nh. rewrite (filter_map_names V (fun n => negb (tree_hidden n))) by reflexivity.
    f_equal.
    rewrite <- (filter_map_names (fun x : string * dir => (fst x, Some (snd x)))
                  (fun n => negb (tree_hidden n))) by reflexivity.
    rewrite <- filter_sorted_by_name. apply filter_filter.
  - rewrite <- (filter_map_names (fun x : string * string => (fst x, @None dir))
                  (fun n => negb (tree_hidden n))) by reflexivity.
    rewrite <- filter_sorted_by_name. unfold nh. rewrite filter_filter.
    symmetry. rewrite <- (map_id (filter _ _)) at 2.
    apply map_ext_in. intros [n o] Hin. apply filter_In in Hin. destruct Hin as [Hin _].
    assert (Ho : o = None).
    { eapply Permutation_in in Hin; [|apply sorted_by_name_perm].
      apply in_map_iff in Hin. destruct Hin as (x & E & _). congruence. }
    subst o. reflexivity.
Qed.

(** X14.  The tree in the root signpost shows only what is not hidden and
    lies at most four levels below the root: entries whose name begins with
    a dot or is an excluded name, and everything deeper, have no effect on
    it. *)
Theorem tree_shows_visible_part (root_name : string) (t : dir) :
  _generate_tree root_name (visible 4 t) = _generate_tree root_name t.
Proof.
  unfold _generate_tree. f_equal.
  apply (build_tree_same (fun k d d' => d = visible k d')); [|reflexivity].
  intros k d d' ->. rewrite tree_items_visible.
  induction (tree_items d') as [|[n o] l IH]; [constructor|].
  cbn [map]. constructor; [|exact IH]. split; [reflexivity|].
  cbn [fst snd]. destruct o; cbn [option_map]; auto.
Qed.

Lemma Forall2_names {A B : Type} (R : string * A -> string * B -> Prop)
  (l : list (string * A)) (l' : list (string * B)) :
  (forall a b, R a b -> fst a = fst b) ->
  Forall2 R l l' -> map fst l = map fst l'.
Proof.
  intros Hn H. induction H as [|a b l l' Hab _ IH]; [reflexivity|].
  cbn [map]. rewrite (Hn _ _ Hab), IH. reflexivity.
Qed.

Lemma tree_items_reordered (d d' : dir) :
  reordered d d' -> Forall2 (same_item reordered) (tree_items d) (tree_items d').
Proof.
  intros H. inversion H as [fs fs' sds mid sds' Hpf Hnf Hmid Hps Hns]; subst.
  unfold tree_items. cbn [files subdirs].
  apply (filter_Forall2 (same_item reordered)).
  { intros a b [Hab _]. rewrite Hab. reflexivity. }
  apply Forall2_app.
  - assert (Hn : map fst sds = map fst mid).
    { apply (Forall2_names _ _ _ (fun a b (H : fst a = fst b /\ _) => proj1 H) Hmid). }
    rewrite <- (sorted_by_name_unique
                  (map (fun x : string * dir => (fst x, Some (snd x))) mid)
                  (map (fun x : string * dir => (fst x, Some (snd x))) sds')).
    + apply sorted_by_name_Forall2; [intros a b [Hab _]; exact Hab|].
      clear -Hmid. induction Hmid as [|x y l l' [Hxy Hr] _ IH]; cbn [map];
        constructor; [split; cbn; assumption | exact IH].
    + apply Permutation_map. exact Hps.
    + rewrite map_map, (map_ext _ fst) by reflexivity. rewrite <- Hn. exact Hns.
  - rewrite <- (sorted_by_name_unique
                  (map (fun x : string * string => (fst x, @None dir)) fs)
                  (map (fun x : string * string => (fst x, @None dir)) fs')).
    + apply sorted_by_name_Forall2; [intros a b [Hab _]; exact Hab|].
      clear. induction fs as [|x l IH]; cbn [map]; constructor;
        [split; cbn; auto | exact IH].
    + apply Permutation_map. exact Hpf.
    + rewrite map_map, (map_ext _ fst) by reflexivity. exact Hnf.
Qed.

(** X15.  The tree in the root signpost does not depend on the order in
    which the file system lists a directory: two trees with the same
    entries, listed in any order at every level, render the same lines. *)
Theorem tree_order_independent (root_name : string) (t t' : dir) :
  reordered t t' -> _generate_tree root_name t = _generate_tree root_name t'.
Proof.
  intros H. unfold _generate_tree. f_equal.
  apply (build_tree_same (fun _ d d' => reordered d d')); [|exact H].
  intros _ d d' Hd. apply tree_items_reordered. exact Hd.
Qed.

Lemma tree_order_independent_witness :
  _generate_tree "p" (MkDir [("b.txt", "1"); ("a.txt", "2")]
                        [("lib", MkDir [("z", "3"); ("y", "4")] []); ("bin", empty_dir)])
  = _generate_tree "p" (MkDir [("a.txt", "2"); ("b.txt", "1")]
                          [("bin", empty_dir); ("lib", MkDir [("y", "4"); ("z", "3")] [])]).
Proof.
  apply tree_order_independent.
  apply (reordered_dir _ _ _
           [("lib", MkDir [("y", "4"); ("z", "3")] []); ("bin", empty_dir)]).
  - apply perm_swap.
  - repeat constructor; cbn; intuition discriminate.
  - constructor; [|constructor; [|constructor]].
    + split; [reflexivity|]. cbn [snd].
      apply (reordered_dir [("z", "3"); ("y", "4")] [("y", "4"); ("z", "3")] [] [] []).
      * apply perm_swap.
      * repeat constructor; cbn; intuition discriminate.
      * constructor.
      * constructor.
      * constructor.
    + split; [reflexivity|]. cbn [snd].
      apply (reordered_dir [] [] [] [] []); constructor.
  - apply perm_swap.
  - repeat constructor; cbn; intuition discriminate.
Defined.

(** ** Stale signposts and unreadable ones *)

Lemma store_names_in (n c m : string) (fs : list (string * string)) :
  In m (map fst fs) -> In m (map fst (store_file n c fs)).
Proof.
  induction fs as [|[k x] fs IH]; [contradiction|].
  cbn [store_file map fst In]. destruct (String.eqb n k); cbn [map fst In]; tauto.
Qed.

Lemma two_in_filter (names : list string) (a b : string) :
  In a names -> In b names -> a <> b ->
  is_signpost a = true -> is_signpost b = true ->
  exists first second others,
    filter is_signpost names = first :: second :: others.
Proof.
  intros Ha Hb Hab Hsa Hsb.
  assert (Ia : In a (filter is_signpost names)) by (apply filter_In; auto).
  assert (Ib : In b (filter is_signpost names)) by (apply filter_In; auto).
  destruct (filter is_signpost names) as [|x [|y l]]; [contradiction | | eauto].
  destruct Ia as [<-|[]]. destruct Ib as [<-|[]]. congruence.
Qed.

(** X16.  [create_signposts] does not clear stale signposts: when a tracked
    directory within the depth limit already holds a signpost-named file
    under another name than the derived one, that file stays beside the
    new signpost and the tree fails validation with a multiple issue. *)
Theorem create_keeps_stale_signposts {PF : Platform} (g : SignpostGenerator) (md : Z)
  (t t' : dir) (created : list path) (root rel : path) (d : dir) (stale : string) :
  create_signposts g md t = inr (t', created) ->
  lookup_dir t rel = Some d -> forallb kept rel = true ->
  within_depth md rel = true ->
  In stale (map fst (files d)) -> is_signpost stale = true ->
  stale <> signpost_filename rel ->
  validate_signposts root t' = false
  /\ In ("Multiple signposts in: " ++ rel_str rel)
        (snd (validate_signposts_run root t')).
Proof.
  intros Hc Hl Hk Hw Hin Hs Hne.
  assert (Hrel : rel <> []) by (apply within_depth_iff in Hw; tauto).
  pose proof (create_signposts_spec g md t) as H.
  rewrite Hc in H. destruct H as (_ & Ht & _).
  assert (Hl' : lookup_dir t' rel = Some (signposted g md rel d)).
  { rewrite Ht, signposted_lookup_any, root_written_lookup, Hl, Hk by exact Hrel.
    reflexivity. }
  pose proof (tracked_lookup t' rel _ Hrel Hl' Hk) as Htr.
  assert (Hf : files (signposted g md rel d)
               = store_file (signpost_filename rel) (directory_text g rel) (files d)).
  { destruct d as [fs sds]. cbn [signposted files]. rewrite Hw. reflexivity. }
  rewrite Hf in Htr.
  destruct (two_in_filter
              (map fst (store_file (signpost_filename rel) (directory_text g rel)
                          (files d)))
              stale (signpost_filename rel))
    as (first & second & others & Hfil);
    [apply store_names_in; exact Hin | | exact Hne | exact Hs
     | apply is_signpost_filename |].
  { assert (Hm := store_names_mem (signpost_filename rel) (directory_text g rel)
                    (files d)).
    unfold Py.mem in Hm. apply existsb_exists in Hm.
    destruct Hm as (m & Hm & E). apply String.eqb_eq in E. subst m. exact Hm. }
  assert (Hroot : Py.mem "_CARDINAL_ROOT.txt" (map fst (files t')) = true).
  { rewrite Ht. unfold root_written. cbn [signposted files within_depth].
    apply store_names_mem. }
  assert (Hiss : In ("Multiple signposts in: " ++ rel_str rel)
                    (snd (validate_signposts_run root t'))).
  { rewrite validate_run_spec, Hroot. cbn [orb negb snd].
    apply in_or_app. right. apply in_flat_map.
    eexists. split; [exact Htr|]. unfold dir_issues. rewrite Hfil.
    left. reflexivity. }
  split; [|exact Hiss].
  unfold validate_signposts. revert Hiss. rewrite validate_run_spec, Hroot.
  cbn [orb negb fst snd]. destruct (_ ++ _)%list; [contradiction | reflexivity].
Qed.

Lemma create_keeps_stale_signposts_witness :
  let t := MkDir [] [("src", MkDir [("_CARDINAL_OLD.txt", "stale")] [])] in
  exists t' created,
    create_signposts (default_generator ["proj"]) 10 t = inr (t', created)
    /\ validate_signposts ["proj"] t' = false.
Proof.
  intros t. eexists. eexists. split; [vm_compute; reflexivity|].
  refine (proj1 (create_keeps_stale_signposts (PF := ascii_platform)
      (default_generator ["proj"]) 10 t _ _
                   ["proj"] ["src"] (MkDir [("_CARDINAL_OLD.txt", "stale")] [])
                   "_CARDINAL_OLD.txt" _ eq_refl eq_refl eq_refl _ eq_refl _));
    [vm_compute; reflexivity | left; reflexivity | discriminate].
Defined.

(** X17.  A directory named [_CARDINAL_ROOT.txt] in the root passes the
    existence check of [validate_signposts] but cannot be read: when the
    root holds no file of that name, validation fails with the issue of the
    caught exception. *)
Theorem root_signpost_is_a_directory {PF : Platform} (root : path) (t : dir) :
  Py.mem "_CARDINAL_ROOT.txt" (map fst (subdirs t)) = true ->
  find_file "_CARDINAL_ROOT.txt" (files t) = None ->
  validate_signposts root t = false
  /\ In ("Cannot read " ++ path_str (root ++ ["_CARDINAL_ROOT.txt"])
         ++ ": [Errno 21] Is a directory: '"
         ++ path_str (root ++ ["_CARDINAL_ROOT.txt"]) ++ "'")
        (snd (validate_signposts_run root t)).
Proof.
  intros Hd Hf.
  assert (Hiss : In ("Cannot read " ++ path_str (root ++ ["_CARDINAL_ROOT.txt"])
                     ++ ": [Errno 21] Is a directory: '"
                     ++ path_str (root ++ ["_CARDINAL_ROOT.txt"]) ++ "'")
                    (snd (validate_signposts_run root t))).
  { rewrite validate_run_spec, Hd, orb_true_r. cbn [negb snd].
    apply in_or_app. left.
    unfold _validate_signpost_content, read_text. rewrite Hf, Hd.
    cbn [snd exn_str]. rewrite !app_nil_r. left. reflexivity. }
  split; [|exact Hiss].
  unfold validate_signposts. revert Hiss. rewrite validate_run_spec, Hd, orb_true_r.
  cbn [negb fst snd]. destruct (_ ++ flat_map _ _)%list; [contradiction | reflexivity].
Qed.

Lemma root_signpost_is_a_directory_witness :
  validate_signposts ["p"] (MkDir [] [("_CARDINAL_ROOT.txt", empty_dir)]) = false.
Proof.
  exact (proj1 (root_signpost_is_a_directory (PF := ascii_platform) ["p"]
                  (MkDir [] [("_CARDINAL_ROOT.txt", empty_dir)]) eq_refl eq_refl)).
Defined.

(** * The Google Shopping feed fixer *)

Lemma set_item_length (i : nat) (v : string) (l : list string) :
  length (set_item i v l) = length l.
Proof.
  revert i. induction l as [|x l IH]; intros [|i]; cbn; auto.
Qed.

Lemma item_set_item (i j : nat) (v : string) (l : list string) :
  item (set_item j v l) i
  = if Nat.eqb i j && Nat.ltb j (length l) then v else item l i.
Proof.
  unfold item. revert i j. induction l as [|x l IH]; intros i j.
  - destruct i, j; cbn; rewrite ?andb_false_r; reflexivity.
  - destruct j as [|j]; destruct i as [|i]; cbn [set_item nth Nat.eqb andb length];
      try reflexivity.
    rewrite IH. reflexivity.
Qed.

Lemma item_set_other (i j : nat) (v : string) (l : list string) :
  i <> j -> item (set_item j v l) i = item l i.
Proof.
  intros H. rewrite item_set_item. apply Nat.eqb_neq in H. rewrite H. reflexivity.
Qed.

Lemma item_set_same (i : nat) (v : string) (l : list string) :
  i < length l -> item (set_item i v l) i = v.
Proof.
  intros H. rewrite item_set_item, Nat.eqb_refl. apply Nat.ltb_lt in H.
  rewrite H. reflexivity.
Qed.

Lemma set_item_id (i : nat) (v : string) (l : list string) :
  item l i = v -> set_item i v l = l.
Proof.
  unfold item. revert i. induction l as [|x l IH]; intros [|i] H; cbn in *;
    try reflexivity; [congruence | f_equal; auto].
Qed.

Lemma set_item_out (i : nat) (v : string) (l : list string) :
  Nat.ltb i (length l) = false -> set_item i v l = l.
Proof.
  revert i. induction l as [|x l IH]; intros [|i] H; cbn in *;
    try reflexivity; [discriminate | f_equal; apply IH; exact H].
Qed.

Lemma item_out (i : nat) (l : list string) :
  Nat.ltb i (length l) = false -> item l i = EmptyString.
Proof.
  intros H. apply Nat.ltb_ge in H. apply nth_overflow. exact H.
Qed.

Lemma item_ext (l l' : list string) :
  length l = length l' -> (forall i, item l i = item l' i) -> l = l'.
Proof.
  intros Hl H. apply (nth_ext l l' EmptyString EmptyString Hl).
  intros n _. apply H.
Qed.

Lemma google_column_cases (i : nat) :
  google_column i = true ->
  i = COL_GENDER \/ i = COL_AGE_GROUP \/ i = COL_MPN \/ i = COL_CONDITION
  \/ i = COL_CUSTOM_PRODUCT.
Proof.
  unfold google_column, COL_GENDER, COL_AGE_GROUP, COL_MPN, COL_CONDITION,
    COL_CUSTOM_PRODUCT.
  intros H. apply andb_true_iff in H. destruct H as [H1 H2].
  apply Nat.leb_le in H1, H2. lia.
Qed.

Section FixRow.

Variable str_lower : string -> string.
Variable str_strip : string -> string.

Lemma fix_gender_fst (st : list string * list string) :
  fst (fix_gender str_lower st)
  = set_item COL_GENDER (lowered str_lower genders (item (fst st) COL_GENDER))
      (fst st).
Proof.
  destruct st as [row ch]. unfold fix_gender, lowered, genders. cbn [fst].
  destruct (Nat.ltb COL_GENDER (length row)) eqn:L;
    [|cbn [andb fst]; symmetry; apply set_item_out; exact L].
  destruct (truthy (item row COL_GENDER)) eqn:T; cbn [andb fst];
    [|symmetry; apply set_item_id; reflexivity].
  destruct (Py.mem _ _) eqn:M; cbn [andb fst];
    [|symmetry; apply set_item_id; reflexivity].
  destruct (String.eqb _ _) eqn:Q; cbn [negb fst]; [|reflexivity].
  apply String.eqb_eq in Q. symmetry. apply set_item_id. exact Q.
Qed.

Lemma fix_age_group_fst (st : list string * list string) :
  fst (fix_age_group str_lower st)
  = set_item COL_AGE_GROUP (lowered str_lower ages (item (fst st) COL_AGE_GROUP))
      (fst st).
Proof.
  destruct st as [row ch]. unfold fix_age_group, lowered, ages. cbn [fst].
  destruct (Nat.ltb COL_AGE_GROUP (length row)) eqn:L;
    [|cbn [andb fst]; symmetry; apply set_item_out; exact L].
  destruct (truthy (item row COL_AGE_GROUP)) eqn:T; cbn [andb fst];
    [|symmetry; apply set_item_id; reflexivity].
  cbv zeta.
  destruct (Py.mem _ _) eqn:M; cbn [andb fst];
    [|symmetry; apply set_item_id; reflexivity].
  destruct (String.eqb _ _) eqn:Q; cbn [negb fst]; [|reflexivity].
  apply String.eqb_eq in Q. symmetry. apply set_item_id. exact Q.
Qed.

Lemma fix_condition_fst (st : list string * list string) :
  fst (fix_condition str_strip st)
  = set_item COL_CONDITION
      (defaulted str_strip "new" (item (fst st) COL_CONDITION)) (fst st).
Proof.
  destruct st as [row ch]. unfold fix_condition, defaulted. cbn [fst].
  destruct (Nat.ltb COL_CONDITION (length row)) eqn:L;
    [|symmetry; apply set_item_out; exact L].
  destruct (blank _ _) eqn:B; cbn [fst];
    [reflexivity | symmetry; apply set_item_id; reflexivity].
Qed.

Lemma fix_custom_product_fst (st : list string * list string) :
  fst (fix_custom_product str_strip st)
  = set_item COL_CUSTOM_PRODUCT
      (defaulted str_strip "FALSE" (item (fst st) COL_CUSTOM_PRODUCT)) (fst st).
Proof.
  destruct st as [row ch]. unfold fix_custom_product, defaulted. cbn [fst].
  destruct (Nat.ltb COL_CUSTOM_PRODUCT (length row)) eqn:L;
    [|symmetry; apply set_item_out; exact L].
  destruct (blank _ _) eqn:B; cbn [fst];
    [reflexivity | symmetry; apply set_item_id; reflexivity].
Qed.

Lemma fix_mpn_fst (st : list string * list string) :
  fst (fix_mpn str_strip st)
  = set_item COL_MPN
      (mpn_value str_strip (item (fst st) COL_MPN) (item (fst st) COL_SKU))
      (fst st).
Proof.
  destruct st as [row ch]. unfold fix_mpn, mpn_value. cbn [fst].
  destruct (Nat.ltb COL_MPN (length row)) eqn:L;
    [|cbn [andb fst]; symmetry; apply set_item_out; exact L].
  destruct (Nat.ltb COL_SKU (length row)) eqn:L'; cbn [andb fst].
  - destruct (blank _ _ && truthy _) eqn:B; cbn [fst];
      [reflexivity | symmetry; apply set_item_id; reflexivity].
  - apply Nat.ltb_lt in L. apply Nat.ltb_ge in L'.
    unfold COL_MPN, COL_SKU in *. lia.
Qed.

(** The row [fix_row] returns, column by column. *)
Lemma fix_row_fst (row : list string) (n : nat) :
  fst (fix_row str_lower str_strip row n)
  = set_item COL_MPN
      (mpn_value str_strip (item row COL_MPN) (item row COL_SKU))
      (set_item COL_CUSTOM_PRODUCT
         (defaulted str_strip "FALSE" (item row COL_CUSTOM_PRODUCT))
         (set_item COL_CONDITION
            (defaulted str_strip "new" (item row COL_CONDITION))
            (set_item COL_AGE_GROUP
               (lowered str_lower ages (item row COL_AGE_GROUP))
               (set_item COL_GENDER
                  (lowered str_lower genders (item row COL_GENDER)) row)))).
Proof.
  unfold fix_row. cbv zeta.
  rewrite fix_mpn_fst, fix_custom_product_fst, fix_condition_fst,
    fix_age_group_fst, fix_gender_fst.
  cbn [fst].
  unfold COL_MPN, COL_SKU, COL_CUSTOM_PRODUCT, COL_CONDITION, COL_AGE_GROUP,
    COL_GENDER.
  rewrite !item_set_other by lia. reflexivity.
Qed.

Lemma fix_row_length (row : list string) (n : nat) :
  length (fst (fix_row str_lower str_strip row n)) = length row.
Proof.
  rewrite fix_row_fst, !set_item_length. reflexivity.
Qed.

Lemma fix_row_item_other (row : list string) (n i : nat) :
  google_column i = false ->
  item (fst (fix_row str_lower str_strip row n)) i = item row i.
Proof.
  intros G. rewrite fix_row_fst.
  assert (H : i <> COL_GENDER /\ i <> COL_AGE_GROUP /\ i <> COL_MPN
              /\ i <> COL_CONDITION /\ i <> COL_CUSTOM_PRODUCT).
  { unfold google_column, COL_GENDER, COL_AGE_GROUP, COL_MPN, COL_CONDITION,
      COL_CUSTOM_PRODUCT in *.
    apply andb_false_iff in G. destruct G as [G|G]; apply Nat.leb_gt in G; lia. }
  destruct H as (H1 & H2 & H3 & H4 & H5).
  rewrite !item_set_other by assumption. reflexivity.
Qed.

Lemma fix_row_item_gender (row : list string) (n : nat) :
  item (fst (fix_row str_lower str_strip row n)) COL_GENDER
  = lowered str_lower genders (item row COL_GENDER).
Proof.
  rewrite fix_row_fst.
  rewrite !(item_set_other COL_GENDER) by (unfold COL_GENDER, COL_MPN,
    COL_CUSTOM_PRODUCT, COL_CONDITION, COL_AGE_GROUP; lia).
  rewrite item_set_item, Nat.eqb_refl. cbn [andb].
  destruct (Nat.ltb COL_GENDER (length row)) eqn:L; [reflexivity|].
  rewrite (item_out _ _ L). reflexivity.
Qed.

Lemma fix_row_item_age_group (row : list string) (n : nat) :
  item (fst (fix_row str_lower str_strip row n)) COL_AGE_GROUP
  = lowered str_lower ages (item row COL_AGE_GROUP).
Proof.
  rewrite fix_row_fst.
  rewrite !(item_set_other COL_AGE_GROUP) by (unfold COL_GENDER, COL_MPN,
    COL_CUSTOM_PRODUCT, COL_CONDITION, COL_AGE_GROUP; lia).
  rewrite item_set_item, Nat.eqb_refl, set_item_length. cbn [andb].
  destruct (Nat.ltb COL_AGE_GROUP (length row)) eqn:L; [reflexivity|].
  rewrite item_set_other by (unfold COL_GENDER, COL_AGE_GROUP; lia).
  rewrite (item_out _ _ L). reflexivity.
Qed.

Lemma fix_row_item_condition (row : list string) (n : nat) :
  COL_CONDITION < length row ->
  item (fst (fix_row str_lower str_strip row n)) COL_CONDITION
  = defaulted str_strip "new" (item row COL_CONDITION).
Proof.
  intros L. rewrite fix_row_fst.
  rewrite !(item_set_other COL_CONDITION) by (unfold COL_GENDER, COL_MPN,
    COL_CUSTOM_PRODUCT, COL_CONDITION, COL_AGE_GROUP; lia).
  apply item_set_same. rewrite !set_item_length. exact L.
Qed.

Lemma fix_row_item_custom_product (row : list string) (n : nat) :
  COL_CUSTOM_PRODUCT < length row ->
  item (fst (fix_row str_lower str_strip row n)) COL_CUSTOM_PRODUCT
  = defaulted str_strip "FALSE" (item row COL_CUSTOM_PRODUCT).
Proof.
  intros L. rewrite fix_row_fst.
  rewrite !(item_set_other COL_CUSTOM_PRODUCT) by (unfold COL_GENDER, COL_MPN,
    COL_CUSTOM_PRODUCT, COL_CONDITION, COL_AGE_GROUP; lia).
  apply item_set_same. rewrite !set_item_length. exact L.
Qed.

Lemma fix_row_item_mpn (row : list string) (n : nat) :
  COL_MPN < length row ->
  item (fst (fix_row str_lower str_strip row n)) COL_MPN
  = mpn_value str_strip (item row COL_MPN) (item row COL_SKU).
Proof.
  intros L. rewrite fix_row_fst.
  apply item_set_same. rewrite !set_item_length. exact L.
Qed.

Lemma lowered_twice (valid : list string) (o : string) :
  (forall v, In v valid -> str_lower v = v) ->
  lowered str_lower valid (lowered str_lower valid o) = lowered str_lower valid o.
Proof.
  intros H. destruct (truthy o && Py.mem (str_lower o) valid) eqn:E.
  - assert (L : lowered str_lower valid o = str_lower o)
      by (unfold lowered; rewrite E; reflexivity).
    rewrite L. apply andb_true_iff in E. destruct E as [_ M].
    assert (I : In (str_lower o) valid).
    { unfold Py.mem in M. apply existsb_exists in M. destruct M as (x & I & Q).
      apply String.eqb_eq in Q. subst x. exact I. }
    unfold lowered. rewrite (H _ I).
    destruct (truthy (str_lower o) && Py.mem (str_lower o) valid); reflexivity.
  - assert (L : lowered str_lower valid o = o)
      by (unfold lowered; rewrite E; reflexivity).
    rewrite L. exact L.
Qed.

Lemma defaulted_twice (d o : string) :
  defaulted str_strip d (defaulted str_strip d o) = defaulted str_strip d o.
Proof.
  unfold defaulted. destruct (blank str_strip o) eqn:B; [|rewrite B; reflexivity].
  destruct (blank str_strip d); reflexivity.
Qed.

Lemma mpn_value_twice (m s : string) :
  mpn_value str_strip (mpn_value str_strip m s) s = mpn_value str_strip m s.
Proof.
  unfold mpn_value. destruct (blank str_strip m && truthy s) eqn:B;
    [|rewrite B; reflexivity].
  destruct (blank str_strip s && truthy s); reflexivity.
Qed.

Lemma append_longer (ch : list string) (m : string) :
  length ch < length (Py.append ch m).
Proof.
  unfold Py.append. rewrite length_app. cbn. lia.
Qed.

Lemma fix_gender_quiet : quiet_step (fix_gender str_lower).
Proof.
  intros [row ch]. unfold fix_gender. cbn [fst snd].
  destruct (_ && _); [|cbn; split; [lia | reflexivity]].
  destruct (_ && _); cbn [fst snd]; [|split; [lia | reflexivity]].
  pose proof (append_longer ch ("Gender: " ++ item row COL_GENDER ++ "→"
                                ++ str_lower (item row COL_GENDER))).
  split; lia.
Qed.

Lemma fix_age_group_quiet : quiet_step (fix_age_group str_lower).
Proof.
  intros [row ch]. unfold fix_age_group. cbn [fst snd].
  destruct (_ && _); [|cbn; split; [lia | reflexivity]].
  cbv zeta.
  destruct (_ && _); cbn [fst snd]; [|split; [lia | reflexivity]].
  pose proof (append_longer ch ("Age: " ++ item row COL_AGE_GROUP ++ "→"
                                ++ str_lower (item row COL_AGE_GROUP))).
  split; lia.
Qed.

Lemma fix_condition_quiet : quiet_step (fix_condition str_strip).
Proof.
  intros [row ch]. unfold fix_condition. cbn [fst snd].
  destruct (Nat.ltb _ _); [|cbn; split; [lia | reflexivity]].
  destruct (blank _ _); cbn [fst snd]; [|split; [lia | reflexivity]].
  pose proof (append_longer ch "Condition: →new"). split; lia.
Qed.

Lemma fix_custom_product_quiet : quiet_step (fix_custom_product str_strip).
Proof.
  intros [row ch]. unfold fix_custom_product. cbn [fst snd].
  destruct (Nat.ltb _ _); [|cbn; split; [lia | reflexivity]].
  destruct (blank _ _); cbn [fst snd]; [|split; [lia | reflexivity]].
  pose proof (append_longer ch "Custom Product: →FALSE"). split; lia.
Qed.

Lemma fix_mpn_quiet : quiet_step (fix_mpn str_strip).
Proof.
  intros [row ch]. unfold fix_mpn. cbn [fst snd].
  destruct (_ && _); [|cbn; split; [lia | reflexivity]].
  destruct (_ && _); cbn [fst snd]; [|split; [lia | reflexivity]].
  pose proof (append_longer ch ("MPN: →" ++ item row COL_SKU)). split; lia.
Qed.

Lemma quiet_compose (f g : list string * list string -> list string * list string) :
  quiet_step f -> quiet_step g -> quiet_step (fun st => g (f st)).
Proof.
  intros Hf Hg st. destruct (Hf st) as [F1 F2]. destruct (Hg (f st)) as [G1 G2].
  split; [lia|]. intros E. rewrite G2 by lia. apply F2. lia.
Qed.

Lemma fix_row_quiet (row : list string) (n : nat) :
  snd (fix_row str_lower str_strip row n) = [] ->
  fst (fix_row str_lower str_strip row n) = row.
Proof.
  intros E.
  pose proof (quiet_compose _ _
                (quiet_compose _ _
                   (quiet_compose _ _
                      (quiet_compose _ _ fix_gender_quiet fix_age_group_quiet)
                      fix_condition_quiet)
                   fix_custom_product_quiet)
                fix_mpn_quiet (row, [])) as [_ H].
  cbn beta in H. unfold fix_row in *. cbv zeta in *.
  apply H. rewrite E. reflexivity.
Qed.

End FixRow.

Section ProcessRows.

Variable str_lower : string -> string.
Variable str_strip : string -> string.

Lemma google_column_other (i : nat) :
  google_column i = false -> i <> COL_GENDER /\ i <> COL_AGE_GROUP.
Proof.
  unfold google_column, COL_GENDER, COL_AGE_GROUP, COL_CUSTOM_PRODUCT.
  intros G. apply andb_false_iff in G.
  destruct G as [G|G]; apply Nat.leb_gt in G; lia.
Qed.

Lemma row_kept_fix (row row' : list string) (n : nat) :
  length row' = length row ->
  (forall i, google_column i = false -> item row' i = item row i) ->
  Nat.ltb (length row) 10 = false ->
  row_kept row (fst (fix_row str_lower str_strip row' n)).
Proof.
  intros Hl Hi L. apply Nat.ltb_ge in L. repeat split.
  - rewrite fix_row_length. exact Hl.
  - lia.
  - intros i G. rewrite fix_row_item_other by exact G. apply Hi, G.
Qed.

(** What one turn of the loop does to the loop-carried state. *)
Lemma process_row_spec (i : nat) (row : list string) (st : loop_state) :
  let st' := process_row str_lower str_strip i row st in
  let long := if Nat.ltb (length row) 10 then 0%nat else 1%nat in
  exists o,
    output_rows st' = (output_rows st ++ [o])%list
    /\ row_kept row o
    /\ total_rows st' = (total_rows st + long)%nat
    /\ fixed_rows st <= fixed_rows st' <= fixed_rows st + long
    /\ length (all_changes st) + (fixed_rows st' - fixed_rows st)
       <= length (all_changes st').
Proof.
  cbv zeta. unfold process_row.
  destruct (Nat.ltb (length row) 10) eqn:L.
  - rewrite orb_true_r. cbn [output_rows total_rows fixed_rows all_changes].
    exists row. repeat split; lia.
  - replace (match row with [] => true | _ :: _ => false end) with false
      by (destruct row; [discriminate L | reflexivity]).
    cbn [orb].
    repeat (match goal with
            | |- context [if ?c then _ else _] => destruct c eqn:?
            end; cbv beta iota zeta);
    match goal with
    | |- context [fix_row _ _ ?r ?n] =>
        pose proof (row_kept_fix row r n) as K;
        destruct (fix_row str_lower str_strip r n) as [fr ch] eqn:F
    end;
    cbn [output_rows total_rows fixed_rows all_changes fst] in *;
    exists fr;
    (split; [reflexivity|]);
    (split;
     [apply K;
      [rewrite ?set_item_length; reflexivity
      | intros j G; destruct (google_column_other j G);
        rewrite ?item_set_other by assumption; reflexivity
      | exact L]
     |]);
    destruct ch; unfold Py.append, Py.extend; rewrite ?length_app;
    cbn [length]; lia.
Qed.

Lemma process_loop_spec (rows : list (list string)) :
  forall (i : nat) (st : loop_state),
    let st' := process_loop str_lower str_strip i rows st in
    let long := length (filter (fun r => Nat.leb 10 (length r)) rows) in
    exists outs,
      output_rows st' = (output_rows st ++ outs)%list
      /\ Forall2 row_kept rows outs
      /\ total_rows st' = (total_rows st + long)%nat
      /\ fixed_rows st <= fixed_rows st' <= fixed_rows st + long
      /\ length (all_changes st) + (fixed_rows st' - fixed_rows st)
         <= length (all_changes st').
Proof.
  induction rows as [|row rows IH]; intros i st; cbv zeta.
  - exists []. cbn. rewrite app_nil_r. repeat split; try lia. constructor.
  - cbn [process_loop filter].
    destruct (process_row_spec i row st) as (o & Ho & Hk & Ht & Hf & Hc).
    destruct (IH (S i) (process_row str_lower str_strip i row st))
      as (outs & Ho' & Hk' & Ht' & Hf' & Hc').
    cbv zeta in *.
    assert (E : (if Nat.ltb (length row) 10 then 0%nat else 1%nat)
                = length (if Nat.leb 10 (length row) then [row] else [])).
    { destruct (Nat.ltb_spec (length row) 10); destruct (Nat.leb_spec 10 (length row));
        try reflexivity; lia. }
    rewrite E in Ht, Hf.
    exists (o :: outs). split; [rewrite Ho', Ho, <- app_assoc; reflexivity|].
    split; [constructor; assumption|].
    destruct (Nat.leb 10 (length row)); cbn [length] in *; lia.
Qed.

End ProcessRows.

(** X18.  [fix_row] returns a row of the same length in which only the
    five Google Shopping columns (38 to 42) can differ from the row it was
    given. *)
Theorem fix_row_touches_only_google_columns
  (str_lower str_strip : string -> string) (row : list string) (n : nat) :
  length (fst (fix_row str_lower str_strip row n)) = length row
  /\ forall i, google_column i = false ->
               item (fst (fix_row str_lower str_strip row n)) i = item row i.
Proof.
  split; [apply fix_row_length | intros i G; apply fix_row_item_other, G].
Qed.

(** X19.  [fix_row] leaves in the gender column the lower-case form of the
    value when that form is one of [male], [female], [unisex], and the value
    itself otherwise; likewise in the age group column with the five age
    groups.  The later blocks do not disturb either column. *)
Theorem fix_row_lowercases
  (str_lower str_strip : string -> string) (row : list string) (n : nat) :
  item (fst (fix_row str_lower str_strip row n)) COL_GENDER
  = lowered str_lower genders (item row COL_GENDER)
  /\ item (fst (fix_row str_lower str_strip row n)) COL_AGE_GROUP
     = lowered str_lower ages (item row COL_AGE_GROUP).
Proof.
  split; [apply fix_row_item_gender | apply fix_row_item_age_group].
Qed.

(** X20.  In a row that has the columns, [fix_row] leaves a condition and a
    custom product that are not blank, and an MPN that is not blank when
    the SKU is not; this needs [new] and [FALSE] not to be blank
    themselves. *)
Theorem fix_row_fills_defaults
  (str_lower str_strip : string -> string) (row : list string) (n : nat) :
  blank str_strip "new" = false ->
  blank str_strip "FALSE" = false ->
  COL_CUSTOM_PRODUCT < length row ->
  let out := fst (fix_row str_lower str_strip row n) in
  blank str_strip (item out COL_CONDITION) = false
  /\ blank str_strip (item out COL_CUSTOM_PRODUCT) = false
  /\ (blank str_strip (item row COL_SKU) = false ->
      blank str_strip (item out COL_MPN) = false).
Proof.
  intros Hn Hf L out. subst out.
  rewrite fix_row_item_condition, fix_row_item_custom_product, fix_row_item_mpn
    by (unfold COL_CUSTOM_PRODUCT, COL_CONDITION, COL_MPN in *; lia).
  unfold defaulted, mpn_value. repeat split.
  - destruct (blank str_strip (item row COL_CONDITION)) eqn:B; assumption.
  - destruct (blank str_strip (item row COL_CUSTOM_PRODUCT)) eqn:B; assumption.
  - intros Hs. destruct (blank str_strip (item row COL_MPN)) eqn:B; cbn [andb];
      [|exact B].
    destruct (truthy (item row COL_SKU)) eqn:T; [exact Hs|].
    unfold blank in Hs. rewrite T in Hs. discriminate Hs.
Qed.

Lemma fix_row_fills_defaults_witness :
  let row := (repeat "x" 17 ++ ["SKU-1"] ++ repeat " " 25)%list in
  let out := fst (fix_row Py.lower Py.strip row 2) in
  blank Py.strip (item out COL_CONDITION) = false
  /\ blank Py.strip (item out COL_CUSTOM_PRODUCT) = false
  /\ (blank Py.strip (item row COL_SKU) = false ->
      blank Py.strip (item out COL_MPN) = false).
Proof.
  intros row.
  exact (fix_row_fills_defaults Py.lower Py.strip row 2 eq_refl eq_refl
           ltac:(vm_compute; lia)).
Defined.

(** X21.  Running [fix_row] on a row it has returned gives that row again,
    provided lower-casing leaves the eight valid gender and age values as
    they are. *)
Theorem fix_row_twice
  (str_lower str_strip : string -> string) (row : list string) (n m : nat) :
  (forall v, In v (genders ++ ages)%list -> str_lower v = v) ->
  fst (fix_row str_lower str_strip (fst (fix_row str_lower str_strip row n)) m)
  = fst (fix_row str_lower str_strip row n).
Proof.
  intros H. apply item_ext; [apply fix_row_length|].
  intros i. destruct (google_column i) eqn:G;
    [|apply fix_row_item_other; exact G].
  destruct (Nat.ltb i (length row)) eqn:L;
    [|rewrite !item_out by (rewrite ?fix_row_length; exact L); reflexivity].
  apply Nat.ltb_lt in L.
  destruct (google_column_cases i G) as [->|[->|[->|[->| ->]]]].
  - rewrite fix_row_item_gender, fix_row_item_gender.
    apply lowered_twice. intros v I. apply H, in_or_app. left. exact I.
  - rewrite fix_row_item_age_group, fix_row_item_age_group.
    apply lowered_twice. intros v I. apply H, in_or_app. right. exact I.
  - rewrite fix_row_item_mpn by (rewrite fix_row_length; exact L).
    rewrite (fix_row_item_other str_lower str_strip row n COL_SKU) by reflexivity.
    rewrite fix_row_item_mpn by exact L. apply mpn_value_twice.
  - rewrite fix_row_item_condition by (rewrite fix_row_length; exact L).
    rewrite fix_row_item_condition by exact L. apply defaulted_twice.
  - rewrite fix_row_item_custom_product by (rewrite fix_row_length; exact L).
    rewrite fix_row_item_custom_product by exact L. apply defaulted_twice.
Qed.

Lemma fix_row_twice_witness :
  let row := (repeat "x" 17 ++ ["SKU-1"] ++ repeat " " 20
              ++ ["Male"; "ADULT"; EmptyString; " "; EmptyString])%list in
  fst (fix_row Py.lower Py.strip (fst (fix_row Py.lower Py.strip row 2)) 2)
  = fst (fix_row Py.lower Py.strip row 2).
Proof.
  intros row. apply (fix_row_twice Py.lower Py.strip row 2 2).
  intros v Hv. cbn in Hv.
  repeat (destruct Hv as [<-|Hv]; [reflexivity|]). contradiction.
Defined.

(** X22.  A row for which [fix_row] reports no change is returned as it
    was given. *)
Theorem fix_row_unreported
  (str_lower str_strip : string -> string) (row : list string) (n : nat) :
  snd (fix_row str_lower str_strip row n) = [] ->
  fst (fix_row str_lower str_strip row n) = row.
Proof.
  apply fix_row_quiet.
Qed.

Lemma fix_row_unreported_witness :
  let row := (repeat "x" 38 ++ ["male"; "Grown up"; "M-1"; "used"; "TRUE"])%list in
  fst (fix_row Py.lower Py.strip row 2) = row.
Proof.
  intros row. exact (fix_row_unreported Py.lower Py.strip row 2 eq_refl).
Defined.

(** X23.  [process_csv] fails on a file without rows, where [rows[0]]
    raises; otherwise the output has the header row as it was and one row
    for each data row, of the same length, equal to it outside the Google
    Shopping columns, and the row itself when it has fewer than ten
    fields. *)
Theorem process_rows_keeps_shape
  (str_lower str_strip : string -> string) (rows : list (list string)) :
  match process_rows str_lower str_strip rows with
  | None => rows = []
  | Some st =>
      exists header data outs,
        rows = header :: data
        /\ output_rows st = header :: outs
        /\ Forall2 row_kept data outs
  end.
Proof.
  destruct rows as [|header data]; [reflexivity|].
  cbn [process_rows].
  destruct (process_loop_spec str_lower str_strip data 2
              {| output_rows := [header];
                 last_product_data :=
                   {| gender := EmptyString; age_group := EmptyString;
                      title := EmptyString; handle := EmptyString |};
                 all_changes := [];
                 total_rows := 0;
                 fixed_rows := 0 |})
    as (outs & Ho & Hk & _).
  exists header, data, outs. repeat split; assumption.
Qed.

(** X24.  The counters of [process_csv]: the product rows counted are the
    data rows with at least ten fields, the rows counted as modified are
    among them, and there is at least one recorded change for each. *)
Theorem process_rows_counts
  (str_lower str_strip : string -> string) (rows : list (list string))
  (st : loop_state) :
  process_rows str_lower str_strip rows = Some st ->
  total_rows st = length (filter (fun r => Nat.leb 10 (length r)) (tl rows))
  /\ fixed_rows st <= total_rows st
  /\ fixed_rows st <= length (all_changes st).
Proof.
  destruct rows as [|header data]; [discriminate|].
  cbn [process_rows tl]. intros E. injection E as <-.
  destruct (process_loop_spec str_lower str_strip data 2
              {| output_rows := [header];
                 last_product_data :=
                   {| gender := EmptyString; age_group := EmptyString;
                      title := EmptyString; handle := EmptyString |};
                 all_changes := [];
                 total_rows := 0;
                 fixed_rows := 0 |})
    as (outs & _ & _ & Ht & Hf & Hc).
  cbv zeta in *. cbn [total_rows fixed_rows all_changes length] in *. lia.
Qed.

Lemma process_rows_counts_witness :
  let rows := [ ["Handle"; "Title"];
                (["shirt"; "Shirt"] ++ repeat "x" 36 ++ ["Male"])%list;
                ["shirt"];
                (["shirt"; EmptyString] ++ repeat "x" 8)%list ] in
  exists st,
    process_rows Py.lower Py.strip rows = Some st
    /\ total_rows st = 2%nat
    /\ fixed_rows st <= total_rows st
    /\ fixed_rows st <= length (all_changes st).
Proof.
  intros rows. eexists. split; [vm_compute; reflexivity|].
  match goal with
  | |- total_rows ?st = _ /\ _ =>
      exact (process_rows_counts Py.lower Py.strip rows st eq_refl)
  end.
Defined.
